(** * Baudrate: a shallow embedding of [baudrate.py]

    The development follows the Python class [Baudrate]: the candidate
    ladder ([set_baud_from_index], [NextBaudrate], [toggle_baud]), the
    display buffer ([_print], [cap_stderr]), the detection loop ([Detect])
    and the keypress interpreter ([HandleKeypress]).

    Python objects that the code manipulates are modelled as follows.
    - [str] is a sequence of Unicode code points, [bytes] a sequence of
      8-bit values; the two never compare equal, as in Python 3.
    - [self] is the record [Baudrate]; the record also carries the two
      pieces of the outside world that the methods write to: the text
      written to [sys.stderr] and the log of calls made on the serial
      port object.
    - A method is a function from the object to a result and the updated
      object.  A raised exception keeps the updates made before the raise,
      as an attribute assignment in Python is not rolled back.
    - Clocks, the transport and the keyboard are inputs: every loop
      iteration consumes one record with the values it reads.  A clock
      reading is an integer number of ticks of some fixed unit (the
      program only subtracts and compares readings); [timeout] is in the
      unit of the detector's clock, and [0] is the "not started" value of
      [start_time] and [interpret_esc_timeout] as in the source. *)

From Stdlib Require Import ZArith NArith List Bool Lia.
From Stdlib.Strings Require Import String Ascii Byte.
Import ListNotations.

Open Scope Z_scope.

(** ** Python values *)

Definition str := list N.
Definition bytes := list byte.

Definition lit (s : string) : str :=
  map N_of_ascii (list_ascii_of_string s).

Definition TAB : N := 9%N.
Definition LF : N := 10%N.
Definition CR : N := 13%N.
Definition SP : N := 32%N.

Inductive PyVal :=
| PyBytes (b : bytes)
| PyStr (s : str).

Fixpoint list_eqb {A} (eqb : A -> A -> bool) (l1 l2 : list A) : bool :=
  match l1, l2 with
  | [], [] => true
  | x :: l1', y :: l2' => eqb x y && list_eqb eqb l1' l2'
  | _, _ => false
  end.

Definition str_eqb : str -> str -> bool := list_eqb N.eqb.
Definition bytes_eqb : bytes -> bytes -> bool := list_eqb Byte.eqb.

(** [a == b] on the two kinds of value the program compares. *)
Definition py_eq (a b : PyVal) : bool :=
  match a, b with
  | PyBytes x, PyBytes y => bytes_eqb x y
  | PyStr x, PyStr y => str_eqb x y
  | _, _ => false
  end.

(** [x in l] for a list [l] of [str] constants. *)
Definition py_in (x : PyVal) (l : list str) : bool :=
  existsb (fun s => py_eq x (PyStr s)) l.

(** Truth value of a [bytes] or [str] object: non-empty. *)
Definition truthy (v : PyVal) : bool :=
  match v with
  | PyBytes [] | PyStr [] => false
  | _ => true
  end.

Definition py_len {A} (l : list A) : Z := Z.of_nat (List.length l).

(** ** Exceptions and the method monad *)

Inductive exn :=
| IndexError
| ValueError
| AttributeError
| TypeError
| UnicodeDecodeError
| UnicodeEncodeError.

Inductive result (A : Type) :=
| Ok (a : A)
| Raise (e : exn).
Arguments Ok {A} a.
Arguments Raise {A} e.

(** [l[i]] with Python's negative indices. *)
Definition py_getitem {A} (l : list A) (i : Z) : result A :=
  let j := if i <? 0 then i + py_len l else i in
  if (j <? 0) || (py_len l <=? j) then Raise IndexError
  else match nth_error l (Z.to_nat j) with
       | Some x => Ok x
       | None => Raise IndexError
       end.

(** [l.index(x)]: position of the first occurrence, [ValueError] if none. *)
Fixpoint py_index_from (x : str) (l : list str) (k : Z) : result Z :=
  match l with
  | [] => Raise ValueError
  | y :: l' => if str_eqb y x then Ok k else py_index_from x l' (k + 1)
  end.

Definition py_index (x : str) (l : list str) : result Z := py_index_from x l 0.

(** ** Class constants *)

Definition BAUDRATES : list str :=
  map lit
    [ "921600"; "576000"; "460800"; "230400"; "115200"; "76800"; "57600";
      "38400"; "28800"; "19200"; "9600"; "4800"; "2400"; "1800"; "1200";
      "600"; "300"; "200"; "150"; "134"; "110"; "75"; "50" ]%string.

Definition MAX_LEN : Z := fold_right Z.max 0 (map py_len BAUDRATES).

Definition READ_TIMEOUT : Z := 5.
Definition DEFAULT_BAUDRATE : str := lit "115200".

Definition CONTROL_B : str := [2%N].
Definition CONTROL_C : str := [3%N].
Definition INTERPRET_MODE_KEY : str := CONTROL_B.
Definition ESCAPE_KEY : str := [27%N].
Definition ESCAPE_CODE_COMING : str := lit "[".
Definition INTERPRET_ESC_TIMEOUT_MS : Z := 100.

Definition UPKEYS : list str := [lit "u"; lit "U"; lit "A"].
Definition DOWNKEYS : list str := [lit "d"; lit "D"; lit "B"].
Definition HELPKEYS : list str := [lit "h"; lit "?"].
Definition RETURN : list str := [[LF]; [CR]].

Definition MIN_CHAR_COUNT : Z := 25.
Definition WHITESPACE : list str := [[SP]; [TAB]; [CR]; [LF]].
Definition PUNCTUATION : list str :=
  [lit "."; lit ","; lit ":"; lit ";"; lit "?"; lit "!"].
Definition VOWELS : list str :=
  [lit "a"; lit "A"; lit "e"; lit "E"; lit "i"; lit "I"; lit "o"; lit "O";
   lit "u"; lit "U"].

(** ** The object *)

(** Calls made on [self.serial], in order. *)
Inductive serial_call :=
| SerFlush
| SerSetBaudrate (rate : str)
| SerWrite (data : bytes).

(** A [threading.Thread] object: its target method and whether [start]
    has been called on it. *)
Inductive method_name := HandleKeypress_method.

Record Thread := mkThread {
  target : method_name;
  started : bool
}.

Record Baudrate := mkBaudrate {
  threshold : Z;
  timeout : Z;
  auto_detect : bool;
  verbose : bool;
  index : Z;
  valid_characters : list str;
  ctlc : bool;
  thread : option Thread;
  buffer : str;
  max_display_chars : Z;
  newline_sub : str;
  stderr_needs_capping : bool;
  allow_newline : bool;
  passthrough_keys : bool;
  toggle_bauds : Z * Z;
  (* [self.serial]: absent until [Open]; then the calls made on it *)
  serial : option (list serial_call);
  (* everything written to [sys.stderr] so far *)
  stderr : str
}.

Definition with_index (v : Z) (b : Baudrate) : Baudrate :=
  mkBaudrate (threshold b) (timeout b) (auto_detect b) (verbose b) v
    (valid_characters b) (ctlc b) (thread b) (buffer b) (max_display_chars b)
    (newline_sub b) (stderr_needs_capping b) (allow_newline b)
    (passthrough_keys b) (toggle_bauds b) (serial b) (stderr b).

Definition with_valid_characters (v : list str) (b : Baudrate) : Baudrate :=
  mkBaudrate (threshold b) (timeout b) (auto_detect b) (verbose b) (index b)
    v (ctlc b) (thread b) (buffer b) (max_display_chars b)
    (newline_sub b) (stderr_needs_capping b) (allow_newline b)
    (passthrough_keys b) (toggle_bauds b) (serial b) (stderr b).

Definition with_ctlc (v : bool) (b : Baudrate) : Baudrate :=
  mkBaudrate (threshold b) (timeout b) (auto_detect b) (verbose b) (index b)
    (valid_characters b) v (thread b) (buffer b) (max_display_chars b)
    (newline_sub b) (stderr_needs_capping b) (allow_newline b)
    (passthrough_keys b) (toggle_bauds b) (serial b) (stderr b).

Definition with_thread (v : option Thread) (b : Baudrate) : Baudrate :=
  mkBaudrate (threshold b) (timeout b) (auto_detect b) (verbose b) (index b)
    (valid_characters b) (ctlc b) v (buffer b) (max_display_chars b)
    (newline_sub b) (stderr_needs_capping b) (allow_newline b)
    (passthrough_keys b) (toggle_bauds b) (serial b) (stderr b).

Definition with_buffer (v : str) (b : Baudrate) : Baudrate :=
  mkBaudrate (threshold b) (timeout b) (auto_detect b) (verbose b) (index b)
    (valid_characters b) (ctlc b) (thread b) v (max_display_chars b)
    (newline_sub b) (stderr_needs_capping b) (allow_newline b)
    (passthrough_keys b) (toggle_bauds b) (serial b) (stderr b).

Definition with_stderr_needs_capping (v : bool) (b : Baudrate) : Baudrate :=
  mkBaudrate (threshold b) (timeout b) (auto_detect b) (verbose b) (index b)
    (valid_characters b) (ctlc b) (thread b) (buffer b) (max_display_chars b)
    (newline_sub b) v (allow_newline b)
    (passthrough_keys b) (toggle_bauds b) (serial b) (stderr b).

Definition with_toggle_bauds (v : Z * Z) (b : Baudrate) : Baudrate :=
  mkBaudrate (threshold b) (timeout b) (auto_detect b) (verbose b) (index b)
    (valid_characters b) (ctlc b) (thread b) (buffer b) (max_display_chars b)
    (newline_sub b) (stderr_needs_capping b) (allow_newline b)
    (passthrough_keys b) v (serial b) (stderr b).

Definition with_serial (v : option (list serial_call)) (b : Baudrate) : Baudrate :=
  mkBaudrate (threshold b) (timeout b) (auto_detect b) (verbose b) (index b)
    (valid_characters b) (ctlc b) (thread b) (buffer b) (max_display_chars b)
    (newline_sub b) (stderr_needs_capping b) (allow_newline b)
    (passthrough_keys b) (toggle_bauds b) v (stderr b).

Definition with_stderr (v : str) (b : Baudrate) : Baudrate :=
  mkBaudrate (threshold b) (timeout b) (auto_detect b) (verbose b) (index b)
    (valid_characters b) (ctlc b) (thread b) (buffer b) (max_display_chars b)
    (newline_sub b) (stderr_needs_capping b) (allow_newline b)
    (passthrough_keys b) (toggle_bauds b) (serial b) v.

(** A method body: runs on the object, yields a value or an exception and
    the object as it is at that point. *)
Definition M (A : Type) : Type := Baudrate -> result A * Baudrate.

Definition ret {A} (a : A) : M A := fun b => (Ok a, b).

Definition bind {A B} (m : M A) (k : A -> M B) : M B :=
  fun b =>
    match m b with
    | (Ok a, b') => k a b'
    | (Raise e, b') => (Raise e, b')
    end.

Definition raise {A} (e : exn) : M A := fun b => (Raise e, b).

Definition get : M Baudrate := fun b => (Ok b, b).

Definition modify (f : Baudrate -> Baudrate) : M unit := fun b => (Ok tt, f b).

Definition lift {A} (r : result A) : M A := fun b => (r, b).

(** [try: m  except: pass] *)
Definition try_except_pass (m : M unit) : M unit :=
  fun b => (Ok tt, snd (m b)).

Declare Scope method_scope.
Delimit Scope method_scope with method.
Notation "x <- m ;; k" := (bind m (fun x => k))
  (at level 61, m at next level, right associativity) : method_scope.
Notation "m ;; k" := (bind m (fun _ => k))
  (at level 61, right associativity) : method_scope.
Open Scope method_scope.

(** [sys.stderr.write(s)] *)
Definition stderr_write (s : str) : M unit :=
  modify (fun b => with_stderr (stderr b ++ s) b).

(** A call on [self.serial]; the attribute does not exist before [Open]. *)
Definition serial_do (c : serial_call) : M unit :=
  fun b =>
    match serial b with
    | Some log => (Ok tt, with_serial (Some (log ++ [c])) b)
    | None => (Raise AttributeError, b)
    end.

(** ** Construction *)

Fixpoint gen_printable (fuel : nat) (c : N) : list str :=
  match fuel with
  | O => []
  | S fuel' =>
      if (c <=? 126)%N then [c] :: gen_printable fuel' (c + 1)%N else []
  end.

Fixpoint add_missing (ws : list str) (acc : list str) : list str :=
  match ws with
  | [] => acc
  | c :: ws' =>
      if negb (py_in (PyStr c) acc) then add_missing ws' (acc ++ [c])
      else add_missing ws' acc
  end.

(** [_gen_char_list]: the loop from [' '] to ['~'] takes 95 rounds. *)
Definition _gen_char_list : M unit :=
  modify (fun b =>
    with_valid_characters
      (add_missing WHITESPACE (valid_characters b ++ gen_printable 128 SP)) b).

(** The attribute assignments of [__init__], given the two positions
    found in [BAUDRATES]. *)
Definition new_self (threshold' timeout' : Z)
    (auto verbose' allow_newline' passthrough_keys' : bool)
    (dflt i : Z) : Baudrate :=
  let max_display := 80 in
  mkBaudrate threshold' timeout' auto verbose' dflt [] false None []
    max_display ([CR] ++ repeat SP (Z.to_nat max_display) ++ [CR])
    false allow_newline' passthrough_keys' (i, i) None [].

Definition __init__ (threshold' timeout' : Z)
    (auto verbose' allow_newline' passthrough_keys' : bool)
    (toggle_baud : str) : result Baudrate :=
  match py_index DEFAULT_BAUDRATE BAUDRATES with
  | Raise e => Raise e
  | Ok dflt =>
      match py_index toggle_baud BAUDRATES with
      | Raise e => Raise e
      | Ok i =>
          Ok (snd (_gen_char_list
                     (new_self threshold' timeout' auto verbose'
                        allow_newline' passthrough_keys' dflt i)))
      end
  end.

(** ** Display buffer: capping *)

Definition cap_stderr : M unit :=
  stderr_write [LF; LF] ;;
  modify (with_stderr_needs_capping false).

(** ** The candidate ladder *)

(** [f"{rate:>{MAX_LEN}}"] *)
Definition rjust (w : Z) (s : str) : str :=
  repeat SP (Z.to_nat (w - py_len s)) ++ s.

Definition status_line (rate : str) : str :=
  [CR] ++ lit "@@@@@@@@@@@@@@@@@@@@@ Baudrate: " ++ rjust MAX_LEN rate
       ++ lit " @@@@@@@@@@@@@@@@@@@@@".

(** The argument is [None] or an integer; [index if index else self.index]
    keeps the current index for [None] and for [0]. *)
Definition set_baud_from_index (arg : option Z) : M unit :=
  self <- get ;;
  modify (with_index
            match arg with
            | Some i => if i =? 0 then index self else i
            | None => index self
            end) ;;
  self <- get ;;
  (if negb (stderr_needs_capping self)
   then stderr_write [LF; LF] ;; modify (with_stderr_needs_capping true)
   else ret tt) ;;
  self <- get ;;
  rate <- lift (py_getitem BAUDRATES (index self)) ;;
  stderr_write (status_line rate) ;;
  serial_do SerFlush ;;
  self <- get ;;
  rate <- lift (py_getitem BAUDRATES (index self)) ;;
  serial_do (SerSetBaudrate rate) ;;
  serial_do SerFlush.

Definition NextBaudrate (updn : Z) : M unit :=
  self <- get ;;
  modify (with_index (index self - updn)) ;;
  self <- get ;;
  (if py_len BAUDRATES <=? index self then modify (with_index 0)
   else if index self <? 0 then modify (with_index (py_len BAUDRATES - 1))
   else ret tt) ;;
  set_baud_from_index None.

Definition toggle_baud : M unit :=
  self <- get ;;
  let prev_index := fst (toggle_bauds self) in
  let next_index := snd (toggle_bauds self) in
  prev_index <-
    (if negb (index self =? next_index)
     then set_baud_from_index (Some next_index) ;; ret (index self)
     else ret prev_index) ;;
  modify (with_toggle_bauds (next_index, prev_index)).

(** [Open]: the port object is created, then the current rate is applied. *)
Definition Open : M unit :=
  modify (with_serial (Some [])) ;;
  NextBaudrate 0.

(** ** Display buffer *)

Definition in_range (lo hi n : N) : bool := (lo <=? n)%N && (n <=? hi)%N.

(** [bytes.decode('utf-8')], strict: shortest forms only, no surrogates,
    nothing above U+10FFFF. *)
Fixpoint decode_utf8 (bs : bytes) : option str :=
  match bs with
  | [] => Some []
  | b0 :: r0 =>
      let n0 := Byte.to_N b0 in
      if (n0 <? 128)%N then option_map (cons n0) (decode_utf8 r0)
      else if in_range 194 223 n0 then
        match r0 with
        | b1 :: r1 =>
            let n1 := Byte.to_N b1 in
            if in_range 128 191 n1
            then option_map (cons ((n0 - 192) * 64 + (n1 - 128))%N)
                            (decode_utf8 r1)
            else None
        | _ => None
        end
      else if in_range 224 239 n0 then
        match r0 with
        | b1 :: b2 :: r2 =>
            let n1 := Byte.to_N b1 in
            let n2 := Byte.to_N b2 in
            let lo := if (n0 =? 224)%N then 160%N else 128%N in
            let hi := if (n0 =? 237)%N then 159%N else 191%N in
            if in_range lo hi n1 && in_range 128 191 n2
            then option_map
                   (cons ((n0 - 224) * 4096 + (n1 - 128) * 64 + (n2 - 128))%N)
                   (decode_utf8 r2)
            else None
        | _ => None
        end
      else if in_range 240 244 n0 then
        match r0 with
        | b1 :: b2 :: b3 :: r3 =>
            let n1 := Byte.to_N b1 in
            let n2 := Byte.to_N b2 in
            let n3 := Byte.to_N b3 in
            let lo := if (n0 =? 240)%N then 144%N else 128%N in
            let hi := if (n0 =? 244)%N then 143%N else 191%N in
            if in_range lo hi n1 && in_range 128 191 n2 && in_range 128 191 n3
            then option_map
                   (cons ((n0 - 240) * 262144 + (n1 - 128) * 4096
                          + (n2 - 128) * 64 + (n3 - 128))%N)
                   (decode_utf8 r3)
            else None
        | _ => None
        end
      else None
  end.

(** [data.decode('utf-8')]: a [str] object has no [decode] attribute. *)
Definition decode (data : PyVal) : result str :=
  match data with
  | PyBytes bs =>
      match decode_utf8 bs with
      | Some s => Ok s
      | None => Raise UnicodeDecodeError
      end
  | PyStr _ => Raise AttributeError
  end.

(** Characters removed by [str.strip()]. *)
Definition py_isspace (c : N) : bool :=
  in_range 9 13 c || in_range 28 32 c || (c =? 133)%N || (c =? 160)%N
  || (c =? 5760)%N || in_range 8192 8202 c || (c =? 8232)%N || (c =? 8233)%N
  || (c =? 8239)%N || (c =? 8287)%N || (c =? 12288)%N.

Fixpoint lstrip (s : str) : str :=
  match s with
  | [] => []
  | c :: s' => if py_isspace c then lstrip s' else s
  end.

Definition strip (s : str) : str := rev (lstrip (rev (lstrip s))).

(** [c in s] for a one-character [c]. *)
Definition contains (c : N) (s : str) : bool := existsb (N.eqb c) s.

(** [s.rfind(c)]: the highest position of [c], [-1] if there is none. *)
Fixpoint rfind_from (c : N) (s : str) (k last : Z) : Z :=
  match s with
  | [] => last
  | x :: s' => rfind_from c s' (k + 1) (if (x =? c)%N then k else last)
  end.

Definition rfind (c : N) (s : str) : Z := rfind_from c s 0 (-1).

(** [s[i:]] *)
Definition py_slice_from {A} (s : list A) (i : Z) : list A :=
  skipn (Z.to_nat (if i <? 0 then Z.max 0 (i + py_len s) else i)) s.

(** The tail of [_print]: cap if needed, write, reset a full buffer. *)
Definition _print_write (reprinting : bool) : M unit :=
  self <- get ;;
  (if stderr_needs_capping self then cap_stderr else ret tt) ;;
  let prefix := if reprinting then [CR] else [] in
  self <- get ;;
  stderr_write (prefix ++ buffer self) ;;
  self <- get ;;
  if (max_display_chars self <=? py_len (buffer self))
     || negb (truthy (PyStr prefix))
  then modify (with_buffer [])
  else ret tt.

(** The body of the [try] block of [_print]. *)
Definition _print_try (data : PyVal) (allow_newline' : bool) : M unit :=
  buf <- lift (decode data) ;;
  self <- get ;;
  if allow_newline' || allow_newline self then
    modify (with_buffer (buffer self ++ buf)) ;;
    _print_write (negb (contains LF buf))
  else if contains LF buf then
    if str_eqb [LF] buf then
      modify (with_buffer (newline_sub self))
    else
      let buf := strip buf in
      (if contains LF buf
       then modify (with_buffer
                      (newline_sub self ++ py_slice_from buf (rfind LF buf + 1)))
       else modify (with_buffer buf)) ;;
      _print_write true
  else
    modify (with_buffer (buffer self ++ buf)) ;;
    _print_write true.

Definition _print (data : PyVal) (allow_newline' : bool) : M unit :=
  self <- get ;;
  if verbose self
  then try_except_pass (_print_try data allow_newline')
  else ret tt.

(** ** Keypress interpreter *)

Definition byte_of (n : N) : byte :=
  match Byte.of_N n with
  | Some b => b
  | None => x00
  end.

(** UTF-8 encoding of one character; surrogates (and values that are not
    characters at all) cannot be encoded. *)
Definition encode_char (c : N) : option bytes :=
  if (c <? 128)%N then Some [byte_of c]
  else if (c <? 2048)%N then
    Some [byte_of (192 + c / 64); byte_of (128 + c mod 64)]%N
  else if (c <? 65536)%N then
    if in_range 55296 57343 c then None
    else Some [byte_of (224 + c / 4096); byte_of (128 + (c / 64) mod 64);
               byte_of (128 + c mod 64)]%N
  else if (c <? 1114112)%N then
    Some [byte_of (240 + c / 262144); byte_of (128 + (c / 4096) mod 64);
          byte_of (128 + (c / 64) mod 64); byte_of (128 + c mod 64)]%N
  else None.

Fixpoint encode_utf8 (s : str) : option bytes :=
  match s with
  | [] => Some []
  | c :: s' =>
      match encode_char c, encode_utf8 s' with
      | Some x, Some y => Some (x ++ y)
      | _, _ => None
      end
  end.

(** [bytes(c, 'UTF-8')]: an encoding is only accepted with a [str]. *)
Definition py_bytes (c : PyVal) : result bytes :=
  match c with
  | PyStr s =>
      match encode_utf8 s with
      | Some bs => Ok bs
      | None => Raise UnicodeEncodeError
      end
  | PyBytes _ => Raise TypeError
  end.

Definition prefix_char : str :=
  match INTERPRET_MODE_KEY with
  | c :: _ => [(65 + c - 1)%N]
  | [] => []
  end.

Definition help_text (prefix : str) : str :=
  let indent := repeat SP 8 in
  lit "Keys:" ++ [LF]
  ++ indent ++ prefix
  ++ lit " when in key press passthrough mode for this programme to process the following keypresses."
  ++ [LF]
  ++ indent ++ lit "ESC to cancel " ++ prefix ++ lit "." ++ [LF]
  ++ indent ++ [8593%N] ++ lit " and " ++ [8595%N]
  ++ lit " arrow keys or 'u' and 'd' to increment/decrement the baudrate."
  ++ [LF]
  ++ indent ++ lit "h to display this helpful information." ++ [LF]
  ++ indent ++ lit "SPACE to toggle between recent baudrates." ++ [LF]
  ++ indent ++ lit "CTRL-C to break out from this programme." ++ [LF]
  ++ indent.

Definition help_keys : M unit :=
  let prefix := lit "CTRL-" ++ prefix_char in
  self <- get ;;
  (if stderr_needs_capping self then cap_stderr else ret tt) ;;
  stderr_write (help_text prefix ++ [LF]).

(** Local variables of [HandleKeypress]. *)
Record KeyLocals := mkKeyLocals {
  interpret_mode : bool;
  interpret_esc_timeout : Z
}.

(** What one iteration of the interpreter reads from outside: the key and
    the clock, in milliseconds, at the two places that consult it. *)
Record KeyEvent := mkKeyEvent {
  key : PyVal;
  now_ms : Z;
  arm_ms : Z
}.

(** Lines after the pass-through block: the command dispatch. *)
Definition HandleKeypress_interpret (ev : KeyEvent) (l : KeyLocals)
  : M KeyLocals :=
  let c := key ev in
  if interpret_mode l then
    self <- get ;;
    let done : M KeyLocals :=
      self <- get ;;
      ret (if passthrough_keys self
           then mkKeyLocals false (interpret_esc_timeout l)
           else l) in
    if py_in c UPKEYS then NextBaudrate 1 ;; done
    else if py_in c DOWNKEYS then NextBaudrate (-1) ;; done
    else if py_in c HELPKEYS then help_keys ;; done
    else if py_eq c (PyStr [SP]) then toggle_baud ;; done
    else if py_in c RETURN then
      (if stderr_needs_capping self then cap_stderr else ret tt) ;;
      stderr_write [LF] ;; done
    else if py_eq c (PyStr CONTROL_C) then modify (with_ctlc true) ;; done
    else if py_eq c (PyStr ESCAPE_KEY) && passthrough_keys self then
      ret (mkKeyLocals false (arm_ms ev + INTERPRET_ESC_TIMEOUT_MS))
    else done
  else ret l.

(** One round of the [while] loop of [HandleKeypress]; a [continue]
    returns the locals at that point. *)
Definition HandleKeypress_iter (ev : KeyEvent) (l : KeyLocals) : M KeyLocals :=
  let c := key ev in
  if negb (interpret_esc_timeout l =? 0)
     && (now_ms ev <? interpret_esc_timeout l)
     && py_eq c (PyStr ESCAPE_CODE_COMING)
  then ret (mkKeyLocals true 0)
  else
    let l := mkKeyLocals (interpret_mode l) 0 in
    self <- get ;;
    if passthrough_keys self && negb (interpret_mode l) then
      if py_eq c (PyStr INTERPRET_MODE_KEY) && negb (interpret_mode l) then
        ret (mkKeyLocals true (interpret_esc_timeout l))
      else
        data <- lift (py_bytes c) ;;
        serial_do (SerWrite data) ;;
        HandleKeypress_interpret ev l
    else HandleKeypress_interpret ev l.

(** The interpreter as a thread: blocked in [userinput()] with its locals,
    or ended (the loop condition failed, or an exception escaped). *)
Inductive thread_state :=
| NoThread
| Running (l : KeyLocals)
| Ended.

(** The loop condition [not self.ctlc], evaluated before each wait. *)
Definition HandleKeypress_wait (l : KeyLocals) (b : Baudrate) : thread_state :=
  if ctlc b then Ended else Running l.

(** The thread consumes the keys in order.  An exception that escapes
    ends the thread only; the traceback Python prints for it is not
    recorded in [stderr]. *)
Fixpoint HandleKeypress_run (evs : list KeyEvent) (ts : thread_state)
    (b : Baudrate) : thread_state * Baudrate :=
  match evs, ts with
  | ev :: evs', Running l =>
      match HandleKeypress_iter ev l b with
      | (Ok l', b') => HandleKeypress_run evs' (HandleKeypress_wait l' b') b'
      | (Raise _, b') => (Ended, b')
      end
  | _, _ => (ts, b)
  end.

(** Entry of [HandleKeypress]. *)
Definition HandleKeypress_start (b : Baudrate) : thread_state :=
  HandleKeypress_wait (mkKeyLocals (negb (passthrough_keys b)) 0) b.

(** ** Detector *)

Record DetectLocals := mkDetectLocals {
  count : Z;
  whitespace : Z;
  punctuation : Z;
  vowels : Z;
  start_time : Z;
  timed_out : bool;
  clear_counters : bool
}.

(** What one iteration of the detector reads from outside: the clock at
    the top of the loop, the result of [serial.read(1)], the clock at the
    timeout test, and the keys the interpreter thread handles while the
    detector waits for the transport. *)
Record Tick := mkTick {
  clock_start : Z;
  rx : PyVal;
  clock_check : Z;
  keys : list KeyEvent
}.

(** Which [break] ended the loop. *)
Inductive exit_by :=
| ExitConfirmed
| ExitCancelled.

Inductive ctl :=
| Break (e : exit_by) (l : DetectLocals)
| Next (l : DetectLocals).

(** The classification of a received byte. *)
Definition classify (self : Baudrate) (byte : PyVal) (l : DetectLocals)
  : DetectLocals :=
  if auto_detect self && py_in byte (valid_characters self) then
    let l :=
      if py_in byte WHITESPACE then
        mkDetectLocals (count l) (whitespace l + 1) (punctuation l) (vowels l)
          (start_time l) (timed_out l) (clear_counters l)
      else if py_in byte PUNCTUATION then
        mkDetectLocals (count l) (whitespace l) (punctuation l + 1) (vowels l)
          (start_time l) (timed_out l) (clear_counters l)
      else if py_in byte VOWELS then
        mkDetectLocals (count l) (whitespace l) (punctuation l) (vowels l + 1)
          (start_time l) (timed_out l) (clear_counters l)
      else l in
    mkDetectLocals (count l + 1) (whitespace l) (punctuation l) (vowels l)
      (start_time l) (timed_out l) (clear_counters l)
  else
    mkDetectLocals (count l) (whitespace l) (punctuation l) (vowels l)
      (start_time l) (timed_out l) true.

(** The condition of the first [break]. *)
Definition confirmed (self : Baudrate) (l : DetectLocals) : bool :=
  (threshold self <=? count l) && (0 <? whitespace l)
  && (0 <? punctuation l) && (0 <? vowels l).

(** Assignments to the locals made by the loop body. *)
Definition open_window (tk : Tick) (l : DetectLocals) : DetectLocals :=
  if start_time l =? 0 then
    mkDetectLocals (count l) (whitespace l) (punctuation l) (vowels l)
      (clock_start tk) (timed_out l) (clear_counters l)
  else l.

Definition mark_timed_out (l : DetectLocals) : DetectLocals :=
  mkDetectLocals (count l) (whitespace l) (punctuation l) (vowels l)
    (start_time l) true (clear_counters l).

Definition rotated (l : DetectLocals) : DetectLocals :=
  mkDetectLocals (count l) (whitespace l) (punctuation l) (vowels l)
    0 false true.

Definition cleared (l : DetectLocals) : DetectLocals :=
  if clear_counters l then
    mkDetectLocals 0 0 0 0 (start_time l) (timed_out l) false
  else l.

(** The two tests that follow the echo of a byte. *)
Definition verdict (self : Baudrate) (tk : Tick) (l : DetectLocals) : ctl :=
  if confirmed self l then Break ExitConfirmed l
  else if timeout self <=? clock_check tk - start_time l then
    Next (mark_timed_out l)
  else Next l.

(** The first half of the loop body: window start, the read, the
    classification, the echo, and the two tests. *)
Definition Detect_receive (tk : Tick) (l : DetectLocals) : M ctl :=
  let l := open_window tk l in
  let byte := rx tk in
  if truthy byte then
    self <- get ;;
    let l := classify self byte l in
    _print byte false ;;
    self <- get ;;
    ret (verdict self tk l)
  else
    ret (Next (mark_timed_out l)).

(** The second half: rotation on timeout, clearing, cancellation. *)
Definition Detect_settle (l : DetectLocals) : M ctl :=
  self <- get ;;
  l <- (if timed_out l && auto_detect self then
          NextBaudrate (-1) ;;
          ret (rotated l)
        else ret l) ;;
  let l := cleared l in
  self <- get ;;
  if ctlc self then ret (Break ExitCancelled l) else ret (Next l).

Definition Detect_iter (tk : Tick) (l : DetectLocals) : M ctl :=
  r <- Detect_receive tk l ;;
  match r with
  | Break e l' => ret (Break e l')
  | Next l' => Detect_settle l'
  end.

(** The [while True] loop over the inputs of successive iterations.  The
    interpreter thread, when there is one, runs while the detector is
    blocked in the read.  [None]: the inputs are used up and the loop is
    still running. *)
Fixpoint Detect_loop (ticks : list Tick) (l : DetectLocals)
    (ts : thread_state) : M (option (exit_by * DetectLocals)) :=
  match ticks with
  | [] => ret None
  | tk :: ticks' =>
      ts' <- (fun b => let (ts', b') := HandleKeypress_run (keys tk) ts b
                       in (Ok ts', b')) ;;
      r <- Detect_iter tk l ;;
      match r with
      | Break e l' => ret (Some (e, l'))
      | Next l' => Detect_loop ticks' l' ts'
      end
  end.

Definition Detect_locals : DetectLocals :=
  mkDetectLocals 0 0 0 0 0 false false.

(** The thread creation at the head of [Detect]. *)
Definition Detect_start : M thread_state :=
  self <- get ;;
  if negb (auto_detect self) then
    modify (with_thread (Some (mkThread HandleKeypress_method false))) ;;
    modify (with_thread (Some (mkThread HandleKeypress_method true))) ;;
    self <- get ;;
    ret (HandleKeypress_start self)
  else ret NoThread.

Definition Detect (ticks : list Tick) : M (option str) :=
  ts <- Detect_start ;;
  r <- Detect_loop ticks Detect_locals ts ;;
  match r with
  | None => ret None
  | Some _ =>
      _print (PyStr [LF]) true ;;
      self <- get ;;
      rate <- lift (py_getitem BAUDRATES (index self)) ;;
      ret (Some rate)
  end.

(** ** Notions used by the statements *)

(** A method leaves an attribute (or any function of the object) alone. *)
Definition keeps {A X} (proj : Baudrate -> X) (m : M A) : Prop :=
  forall b, proj (snd (m b)) = proj b.

(** An attribute is not affected by the assignment [set]. *)
Definition ignores {X V} (proj : Baudrate -> X)
    (set : V -> Baudrate -> Baudrate) : Prop :=
  forall v b, proj (set v b) = proj b.

Definition is_open (b : Baudrate) : bool :=
  match serial b with
  | Some _ => true
  | None => false
  end.

(** The ladder pointer and both toggle slots are positions of the list. *)
Definition in_ladder (i : Z) : Prop := 0 <= i < py_len BAUDRATES.

Definition ladder_ok (b : Baudrate) : Prop :=
  in_ladder (index b)
  /\ in_ladder (fst (toggle_bauds b))
  /\ in_ladder (snd (toggle_bauds b)).

(** The operations that move the ladder pointer. *)
Inductive ladder_op :=
| Step (delta : Z)
| SetIndex (arg : option Z)
| Toggle.

Definition run_op (o : ladder_op) : M unit :=
  match o with
  | Step delta => NextBaudrate delta
  | SetIndex arg => set_baud_from_index arg
  | Toggle => toggle_baud
  end.

Fixpoint run_ops (ops : list ladder_op) : M unit :=
  match ops with
  | [] => ret tt
  | o :: ops' => run_op o ;; run_ops ops'
  end.

Definition valid_op (o : ladder_op) : Prop :=
  match o with
  | SetIndex (Some i) => in_ladder i
  | _ => True
  end.

(** The index that [set_baud_from_index] selects, and the wrap that
    [NextBaudrate] applies. *)
Definition chosen_index (arg : option Z) (b : Baudrate) : Z :=
  match arg with
  | Some i => if i =? 0 then index b else i
  | None => index b
  end.

Definition wrapped_index (i : Z) : Z :=
  if py_len BAUDRATES <=? i then 0
  else if i <? 0 then py_len BAUDRATES - 1
  else i.

(** [n] calls of [toggle_baud] in a row. *)
Fixpoint toggles (n : nat) (b : Baudrate) : Baudrate :=
  match n with
  | O => b
  | S n' => toggles n' (snd (toggle_baud b))
  end.

(** The constants of the display buffer, as [__init__] sets them. *)
Definition LINE_CLEAR : str := [CR] ++ repeat SP 80 ++ [CR].

Definition display_ok (b : Baudrate) : Prop :=
  max_display_chars b = 80 /\ newline_sub b = LINE_CLEAR.

(** What [_print] writes first when the status line has to be capped. *)
Definition cap_text (b : Baudrate) : str :=
  if stderr_needs_capping b then [LF; LF] else [].

(** The transport delivers the character [c]: as a one-byte [bytes]
    object, or as a one-character [str]. *)
Definition is_char (c : N) (v : PyVal) : Prop :=
  v = PyStr [c] \/ exists x, Byte.to_N x = c /\ v = PyBytes [x].

Definition counters_zero (l : DetectLocals) : Prop :=
  count l = 0 /\ whitespace l = 0 /\ punctuation l = 0 /\ vowels l = 0.

Definition locals_of (c : ctl) : DetectLocals :=
  match c with
  | Break _ l => l
  | Next l => l
  end.

(** A method maintains a property of the object. *)
Definition preserves {A} (P : Baudrate -> Prop) (m : M A) : Prop :=
  forall b, P b -> P (snd (m b)).

(** The locals after the second half of the loop body. *)
Definition settled (self : Baudrate) (l : DetectLocals) : DetectLocals :=
  cleared (if timed_out l && auto_detect self then rotated l else l).

(** The states in which [Detect], called on [b0], is at the top of its
    loop: the detector's locals, the interpreter thread, the object. *)
Inductive at_loop_head (b0 : Baudrate)
  : DetectLocals -> thread_state -> Baudrate -> Prop :=
| head_first ts b :
    Detect_start b0 = (Ok ts, b) ->
    at_loop_head b0 Detect_locals ts b
| head_next tk l ts b ts' b1 l' b' :
    at_loop_head b0 l ts b ->
    HandleKeypress_run (keys tk) ts b = (ts', b1) ->
    Detect_iter tk l b1 = (Ok (Next l'), b') ->
    at_loop_head b0 l' ts' b'.

(** A session as [main] sets it up with the default toggle rate:
    constructed, then opened. *)
Definition session (auto verbose' allow_newline' passthrough_keys' : bool)
  : Baudrate :=
  snd (Open (snd (_gen_char_list
                    (new_self MIN_CHAR_COUNT READ_TIMEOUT auto verbose'
                       allow_newline' passthrough_keys' 4 4)))).

(** ** Minicom configuration *)

(** [self.port] and [self.name] are assigned by [__init__] and by nothing
    else; they are parameters here.  Each is [None] or a [str]. *)
Definition format_s (x : option str) : str :=
  match x with
  | Some s => s
  | None => lit "None"
  end.

(** What [MinicomConfig] touches besides the object: the files it writes
    (path and content) and standard output. *)
Record Outside := mkOutside {
  files : list (str * str);
  stdout : str
}.

Definition config_text (port : option str) (rate : str) : str :=
  repeat 35%N 72 ++ [LF]
  ++ lit "# Minicom configuration file - use " ++ [34%N] ++ lit "minicom -s"
  ++ [34%N] ++ lit " to change parameters." ++ [LF]
  ++ lit "pu port             " ++ format_s port ++ [LF]
  ++ lit "pu baudrate         " ++ rate ++ [LF]
  ++ lit "pu bits             8" ++ [LF]
  ++ lit "pu parity           N" ++ [LF]
  ++ lit "pu stopbits         1" ++ [LF]
  ++ lit "pu rtscts           No" ++ [LF]
  ++ repeat 35%N 72 ++ [LF].

(** [save_error path] is the outcome of [open(path, "w").write(config)]:
    [None] when it succeeds, the text of the exception when it fails. *)
Definition MinicomConfig (port self_name : option str)
    (save_error : str -> option str) (name : option str)
    (b : Baudrate) (w : Outside)
  : result (bool * str) * Baudrate * Outside :=
  let name := match name with None => self_name | Some _ => name end in
  match py_getitem BAUDRATES (index b) with
  | Raise e => (Raise e, b, w)
  | Ok rate =>
      let config := config_text port rate in
      match name with
      | Some (c :: n) =>
          let path := lit "/etc/minicom/minirc." ++ c :: n in
          match save_error path with
          | None =>
              (Ok (true, config), b,
               mkOutside (files w ++ [(path, config)]) (stdout w))
          | Some msg =>
              let b' := if stderr_needs_capping b
                        then snd (cap_stderr b) else b in
              (Ok (false, config), b',
               mkOutside (files w)
                 (stdout w ++ lit "Error saving minicom config file:"
                           ++ [SP] ++ msg ++ [LF]))
          end
      | _ => (Ok (true, config), b, w)
      end
  end.

(** ** Notions used by the further properties *)

(** The rate last assigned to [self.serial.baudrate]. *)
Fixpoint last_rate (log : list serial_call) (acc : option str) : option str :=
  match log with
  | [] => acc
  | SerSetBaudrate r :: log' => last_rate log' (Some r)
  | _ :: log' => last_rate log' acc
  end.

Definition port_rate (b : Baudrate) : option str :=
  match serial b with
  | Some log => last_rate log None
  | None => None
  end.

(** The port is set to the rate the ladder points at. *)
Definition in_step (b : Baudrate) : Prop :=
  exists r, py_getitem BAUDRATES (index b) = Ok r /\ port_rate b = Some r.

(** The state of a running session: ladder in bounds, port open and set
    to the selected rate. *)
Definition session_ok (b : Baudrate) : Prop :=
  ladder_ok b /\ is_open b = true /\ in_step b.

(** Everything written to the transport, in order. *)
Fixpoint sent (log : list serial_call) : bytes :=
  match log with
  | [] => []
  | SerWrite data :: log' => data ++ sent log'
  | _ :: log' => sent log'
  end.

Definition transport_out (b : Baudrate) : bytes :=
  match serial b with
  | Some log => sent log
  | None => []
  end.

(** [n] calls of [NextBaudrate(updn)] in a row. *)
Fixpoint steps (n : nat) (updn : Z) (b : Baudrate) : Baudrate :=
  match n with
  | O => b
  | S n' => steps n' updn (snd (NextBaudrate updn b))
  end.

(** The characters [_gen_char_list] collects. *)
Definition printable_or_blank (c : N) : bool :=
  in_range 32 126 c || (c =? 9)%N || (c =? 13)%N || (c =? 10)%N.

(** A key, with the clock readings of its iteration. *)
Definition press (k : str) (t : Z) : KeyEvent := mkKeyEvent (PyStr k) t t.

(** The detector receives nothing within the read timeout. *)
Definition silent (tk : Tick) : Prop := truthy (rx tk) = false.

(** The counters are consistent: none negative, the three categories
    together at most the total. *)
Definition counters_ok (l : DetectLocals) : Prop :=
  0 <= whitespace l /\ 0 <= punctuation l /\ 0 <= vowels l
  /\ whitespace l + punctuation l + vowels l <= count l.

(** The part of the object the rate commands and the interpreter work
    on: everything but the display (buffer, standard error, capping
    flag). *)
Definition rate_view (b : Baudrate)
  : Z * (Z * Z) * option (list serial_call) * bool * bool :=
  (index b, toggle_bauds b, serial b, ctlc b, passthrough_keys b).

(** Two method bodies agree on objects with the same rate view: same
    outcome, and the same rate view afterwards. *)
Definition agree {A} (m1 m2 : M A) : Prop :=
  forall b1 b2,
    rate_view b1 = rate_view b2 ->
    fst (m1 b1) = fst (m2 b2)
    /\ rate_view (snd (m1 b1)) = rate_view (snd (m2 b2)).

(** A method body that returns normally and leaves the rate view alone. *)
Definition display_only (m : M unit) : Prop :=
  forall b, fst (m b) = Ok tt /\ rate_view (snd (m b)) = rate_view b.

(** Example states.  [manual]: a manual session (no automatic detection,
    echo on).  [at_top]: the operator pressed the up key four times.
    [after_down]: up, space, space, down, which leaves the index on the
    second slot of the toggle pair. *)
Definition manual : Baudrate := session false true false false.

Definition automatic : Baudrate := session true true false false.

Definition at_top : Baudrate :=
  snd (run_ops [Step 1; Step 1; Step 1; Step 1] manual).

Definition after_down : Baudrate :=
  snd (run_ops [Step 1; Toggle; Toggle; Step (-1)] manual).

(** * Properties *)

(** ** Framing: what each method leaves alone *)

Section Keeps.
Context {X : Type} (proj : Baudrate -> X).

Lemma keeps_ret A (a : A) : keeps proj (ret a).
Proof. intro b. reflexivity. Qed.

Lemma keeps_get : keeps proj get.
Proof. intro b. reflexivity. Qed.

Lemma keeps_lift A (r : result A) : keeps proj (lift r).
Proof. intro b. reflexivity. Qed.

Lemma keeps_bind A B (m : M A) (k : A -> M B) :
  keeps proj m -> (forall a, keeps proj (k a)) -> keeps proj (bind m k).
Proof.
  intros Hm Hk b. unfold bind.
  specialize (Hm b). destruct (m b) as [[a | e] b']; simpl in *.
  - rewrite Hk. exact Hm.
  - exact Hm.
Qed.

Lemma keeps_modify (f : Baudrate -> Baudrate) :
  (forall b, proj (f b) = proj b) -> keeps proj (modify f).
Proof. intros H b. apply H. Qed.

Lemma keeps_try (m : M unit) :
  keeps proj m -> keeps proj (try_except_pass m).
Proof. intros H b. apply H. Qed.

Lemma keeps_serial_do c :
  ignores proj (@with_serial) -> keeps proj (serial_do c).
Proof.
  intros H b. unfold serial_do. destruct (serial b); simpl; auto.
Qed.
End Keeps.

Lemma keeps_open_serial_do c : keeps is_open (serial_do c).
Proof.
  intro b. unfold serial_do, is_open.
  destruct (serial b) eqn:E; simpl; rewrite ?E; reflexivity.
Qed.

Ltac keeps_step :=
  match goal with
  | H : forall c, keeps _ (serial_do c) |- keeps _ (serial_do _) => apply H
  | |- keeps _ (serial_do _) => apply keeps_serial_do; assumption
  | |- keeps _ (bind _ _) => apply keeps_bind; [ | intros ]
  | |- keeps _ (ret _) => apply keeps_ret
  | |- keeps _ get => apply keeps_get
  | |- keeps _ (lift _) => apply keeps_lift
  | H : ignores ?p ?set |- keeps ?p (modify (?set _)) =>
      apply keeps_modify; intro; apply H
  | H : ignores ?p ?set |- keeps ?p (modify (fun b => ?set _ b)) =>
      apply keeps_modify; intro; apply H
  | |- keeps _ (try_except_pass _) => apply keeps_try
  | |- keeps _ (if ?c then _ else _) => destruct c
  | |- keeps _ (match ?c with _ => _ end) => destruct c
  | |- keeps _ _ => progress cbv zeta
  end.

Create HintDb keeps.

Ltac keeps_tac := repeat (keeps_step || solve [eauto with keeps]).

Lemma keeps_stderr_write {X} (proj : Baudrate -> X) s :
  ignores proj (@with_stderr) -> keeps proj (stderr_write s).
Proof. intros H. unfold stderr_write. keeps_tac. Qed.
#[global] Hint Resolve keeps_stderr_write : keeps.

Lemma keeps_cap_stderr {X} (proj : Baudrate -> X) :
  ignores proj (@with_stderr) ->
  ignores proj (@with_stderr_needs_capping) ->
  keeps proj cap_stderr.
Proof. intros H1 H2. unfold cap_stderr. keeps_tac. Qed.
#[global] Hint Resolve keeps_cap_stderr : keeps.

Lemma keeps_set_baud_from_index {X} (proj : Baudrate -> X) arg :
  ignores proj (@with_index) ->
  ignores proj (@with_stderr) ->
  ignores proj (@with_stderr_needs_capping) ->
  (forall c, keeps proj (serial_do c)) ->
  keeps proj (set_baud_from_index arg).
Proof. intros H1 H2 H3 H4. unfold set_baud_from_index. keeps_tac. Qed.
#[global] Hint Resolve keeps_set_baud_from_index : keeps.

Lemma keeps_NextBaudrate {X} (proj : Baudrate -> X) updn :
  ignores proj (@with_index) ->
  ignores proj (@with_stderr) ->
  ignores proj (@with_stderr_needs_capping) ->
  (forall c, keeps proj (serial_do c)) ->
  keeps proj (NextBaudrate updn).
Proof. intros H1 H2 H3 H4. unfold NextBaudrate. keeps_tac. Qed.
#[global] Hint Resolve keeps_NextBaudrate : keeps.

Lemma keeps_toggle_baud {X} (proj : Baudrate -> X) :
  ignores proj (@with_index) ->
  ignores proj (@with_toggle_bauds) ->
  ignores proj (@with_stderr) ->
  ignores proj (@with_stderr_needs_capping) ->
  (forall c, keeps proj (serial_do c)) ->
  keeps proj toggle_baud.
Proof. intros H1 H2 H3 H4 H5. unfold toggle_baud. keeps_tac. Qed.
#[global] Hint Resolve keeps_toggle_baud : keeps.

Lemma keeps__print_write {X} (proj : Baudrate -> X) r :
  ignores proj (@with_buffer) ->
  ignores proj (@with_stderr) ->
  ignores proj (@with_stderr_needs_capping) ->
  keeps proj (_print_write r).
Proof. intros H1 H2 H3. unfold _print_write. keeps_tac. Qed.
#[global] Hint Resolve keeps__print_write : keeps.

Lemma keeps__print {X} (proj : Baudrate -> X) data nl :
  ignores proj (@with_buffer) ->
  ignores proj (@with_stderr) ->
  ignores proj (@with_stderr_needs_capping) ->
  keeps proj (_print data nl).
Proof. intros H1 H2 H3. unfold _print, _print_try. keeps_tac. Qed.
#[global] Hint Resolve keeps__print : keeps.

Lemma keeps_help_keys {X} (proj : Baudrate -> X) :
  ignores proj (@with_stderr) ->
  ignores proj (@with_stderr_needs_capping) ->
  keeps proj help_keys.
Proof. intros H1 H2. unfold help_keys. keeps_tac. Qed.
#[global] Hint Resolve keeps_help_keys : keeps.

Lemma keeps_HandleKeypress_iter {X} (proj : Baudrate -> X) ev l :
  ignores proj (@with_index) ->
  ignores proj (@with_toggle_bauds) ->
  ignores proj (@with_ctlc) ->
  ignores proj (@with_stderr) ->
  ignores proj (@with_stderr_needs_capping) ->
  (forall c, keeps proj (serial_do c)) ->
  keeps proj (HandleKeypress_iter ev l).
Proof.
  intros H1 H2 H3 H4 H5 H6.
  unfold HandleKeypress_iter, HandleKeypress_interpret. keeps_tac.
Qed.
#[global] Hint Resolve keeps_HandleKeypress_iter : keeps.

Lemma keeps_HandleKeypress_run {X} (proj : Baudrate -> X) evs :
  ignores proj (@with_index) ->
  ignores proj (@with_toggle_bauds) ->
  ignores proj (@with_ctlc) ->
  ignores proj (@with_stderr) ->
  ignores proj (@with_stderr_needs_capping) ->
  (forall c, keeps proj (serial_do c)) ->
  forall ts b, proj (snd (HandleKeypress_run evs ts b)) = proj b.
Proof.
  intros H1 H2 H3 H4 H5 H6.
  induction evs as [| ev evs IH]; intros ts b; simpl.
  - destruct ts; reflexivity.
  - destruct ts as [| l |]; try reflexivity.
    pose proof (keeps_HandleKeypress_iter proj ev l H1 H2 H3 H4 H5 H6 b) as K.
    destruct (HandleKeypress_iter ev l b) as [[l' | e] b']; simpl in *.
    + rewrite IH. exact K.
    + exact K.
Qed.

Lemma keeps_Detect_receive {X} (proj : Baudrate -> X) tk l :
  ignores proj (@with_buffer) ->
  ignores proj (@with_stderr) ->
  ignores proj (@with_stderr_needs_capping) ->
  keeps proj (Detect_receive tk l).
Proof. intros H1 H2 H3. unfold Detect_receive. keeps_tac. Qed.
#[global] Hint Resolve keeps_Detect_receive : keeps.

Lemma keeps_Detect_settle {X} (proj : Baudrate -> X) l :
  ignores proj (@with_index) ->
  ignores proj (@with_stderr) ->
  ignores proj (@with_stderr_needs_capping) ->
  (forall c, keeps proj (serial_do c)) ->
  keeps proj (Detect_settle l).
Proof. intros H1 H2 H3 H4. unfold Detect_settle. keeps_tac. Qed.
#[global] Hint Resolve keeps_Detect_settle : keeps.

Lemma keeps_Detect_iter {X} (proj : Baudrate -> X) tk l :
  ignores proj (@with_index) ->
  ignores proj (@with_buffer) ->
  ignores proj (@with_stderr) ->
  ignores proj (@with_stderr_needs_capping) ->
  (forall c, keeps proj (serial_do c)) ->
  keeps proj (Detect_iter tk l).
Proof. intros H1 H2 H3 H4 H5. unfold Detect_iter. keeps_tac. Qed.
#[global] Hint Resolve keeps_Detect_iter : keeps.

#[global] Hint Extern 1 (ignores _ _) => intros ? ?; reflexivity : keeps.
#[global] Hint Resolve keeps_serial_do keeps_open_serial_do : keeps.

(** Solves [keeps proj m] for a method [m] with a footprint lemma. *)
Ltac frame := solve [eauto with keeps].

(** ** The example sessions *)

(** [session] is what the constructor and [Open] produce. *)
Remark session_is_constructed auto ve nl pk :
  exists b,
    __init__ MIN_CHAR_COUNT READ_TIMEOUT auto ve nl pk DEFAULT_BAUDRATE = Ok b
    /\ session auto ve nl pk = snd (Open b)
    /\ fst (Open b) = Ok tt.
Proof.
  eexists. split; [reflexivity |].
  destruct auto, ve, nl, pk; vm_compute; split; reflexivity.
Qed.

(** ** Lists and indices *)

Arguments py_getitem : simpl never.
Arguments status_line : simpl never.
Arguments help_text : simpl never.

Lemma py_getitem_in_ladder i :
  in_ladder i -> exists r, py_getitem BAUDRATES i = Ok r /\ In r BAUDRATES.
Proof.
  unfold in_ladder, py_getitem. intros [H0 Hlen].
  destruct (i <? 0) eqn:Eneg; [apply Z.ltb_lt in Eneg; lia |].
  destruct ((i <? 0) || (py_len BAUDRATES <=? i)) eqn:Eout.
  - apply orb_true_iff in Eout as [E | E];
      [apply Z.ltb_lt in E | apply Z.leb_le in E]; lia.
  - destruct (nth_error BAUDRATES (Z.to_nat i)) as [r |] eqn:En.
    + exists r. split; [reflexivity | eapply nth_error_In; eassumption].
    + apply nth_error_None in En. unfold py_len in Hlen. lia.
Qed.

Lemma py_index_from_bounds x l k r :
  py_index_from x l k = Ok r -> k <= r < k + py_len l.
Proof.
  revert k. induction l as [| y l IH]; intros k; simpl.
  - discriminate.
  - unfold py_len in *. cbn [List.length]. destruct (str_eqb y x).
    + intros [= <-]. lia.
    + intros H. apply IH in H. lia.
Qed.

Lemma py_index_in_ladder x r : py_index x BAUDRATES = Ok r -> in_ladder r.
Proof.
  unfold py_index, in_ladder. intros H.
  apply py_index_from_bounds in H. lia.
Qed.

(** ** The ladder, method by method *)

(** Runs a method on a symbolic object: unfolds the monad and splits on
    the innermost test that blocks evaluation. *)
Ltac run_method :=
  unfold bind, get, modify, lift, ret, stderr_write, serial_do;
  repeat (simpl;
          match goal with
          | |- context [match ?x with _ => _ end] =>
              lazymatch x with
              | context [match _ with _ => _ end] => fail
              | _ => destruct x eqn:?
              end
          end);
  simpl.

Lemma set_baud_from_index_index arg b :
  index (snd (set_baud_from_index arg b)) = chosen_index arg b.
Proof.
  unfold set_baud_from_index, chosen_index. run_method; reflexivity.
Qed.

Lemma set_baud_from_index_returns arg b :
  is_open b = true ->
  in_ladder (chosen_index arg b) ->
  fst (set_baud_from_index arg b) = Ok tt.
Proof.
  unfold is_open. intros Hopen Hin.
  destruct (py_getitem_in_ladder _ Hin) as (r & Hr & _).
  destruct (serial b) as [log |] eqn:Es; [| discriminate].
  unfold set_baud_from_index, chosen_index in *.
  unfold bind, get, modify, lift, ret, stderr_write, serial_do; simpl.
  destruct (stderr_needs_capping b); simpl; rewrite Hr; simpl;
    rewrite Es; simpl; rewrite Hr; reflexivity.
Qed.

Lemma py_len_BAUDRATES : py_len BAUDRATES = 23.
Proof. reflexivity. Qed.

Lemma wrapped_index_in_ladder i : in_ladder (wrapped_index i).
Proof.
  unfold wrapped_index, in_ladder. rewrite py_len_BAUDRATES.
  destruct (23 <=? i) eqn:E1; [lia |].
  destruct (i <? 0) eqn:E2; [lia |].
  apply Z.leb_gt in E1. apply Z.ltb_ge in E2. lia.
Qed.

Lemma NextBaudrate_index updn b :
  index (snd (NextBaudrate updn b)) = wrapped_index (index b - updn).
Proof.
  unfold NextBaudrate, wrapped_index, bind, get, modify, ret.
  cbn [index with_index].
  destruct (py_len BAUDRATES <=? index b - updn);
    [| destruct (index b - updn <? 0)];
    cbn beta iota; rewrite set_baud_from_index_index; reflexivity.
Qed.

Lemma NextBaudrate_returns updn b :
  is_open b = true -> fst (NextBaudrate updn b) = Ok tt.
Proof.
  intros Hopen.
  pose proof (wrapped_index_in_ladder (index b - updn)) as Hin.
  unfold NextBaudrate, wrapped_index, bind, get, modify, ret in *.
  cbn [index with_index].
  destruct (py_len BAUDRATES <=? index b - updn);
    [| destruct (index b - updn <? 0)];
    cbn beta iota; apply set_baud_from_index_returns; auto.
Qed.

Lemma toggle_baud_index b :
  index (snd (toggle_baud b)) =
  if index b =? snd (toggle_bauds b) then index b
  else chosen_index (Some (snd (toggle_bauds b))) b.
Proof.
  unfold toggle_baud, bind, get, modify, ret. cbn beta.
  destruct (index b =? snd (toggle_bauds b)); cbn [negb]; cbn beta iota.
  - reflexivity.
  - pose proof (set_baud_from_index_index (Some (snd (toggle_bauds b))) b) as H.
    destruct (set_baud_from_index (Some (snd (toggle_bauds b))) b)
      as [[[] | e] b']; exact H.
Qed.

Lemma toggle_baud_pair b :
  fst (toggle_baud b) = Ok tt ->
  toggle_bauds (snd (toggle_baud b)) =
  (snd (toggle_bauds b),
   if index b =? snd (toggle_bauds b) then fst (toggle_bauds b) else index b).
Proof.
  unfold toggle_baud, bind, get, modify, ret. cbn beta.
  destruct (index b =? snd (toggle_bauds b)); cbn [negb]; cbn beta iota.
  - reflexivity.
  - destruct (set_baud_from_index (Some (snd (toggle_bauds b))) b)
      as [[[] | e] b']; cbn; [reflexivity | discriminate].
Qed.

Lemma toggle_baud_returns b :
  is_open b = true -> ladder_ok b -> fst (toggle_baud b) = Ok tt.
Proof.
  intros Hopen (Hi & Ha & Hb).
  unfold toggle_baud, bind, get, modify, ret. cbn beta.
  destruct (index b =? snd (toggle_bauds b)); cbn [negb]; cbn beta iota.
  - reflexivity.
  - assert (H : fst (set_baud_from_index (Some (snd (toggle_bauds b))) b)
                = Ok tt).
    { apply set_baud_from_index_returns; auto. unfold chosen_index.
      destruct (snd (toggle_bauds b) =? 0); assumption. }
    destruct (set_baud_from_index (Some (snd (toggle_bauds b))) b)
      as [[[] | e] b']; cbn in *; [reflexivity | discriminate].
Qed.

(** ** The ladder invariant *)

Lemma ladder_ok_set_baud_from_index arg b :
  ladder_ok b -> valid_op (SetIndex arg) ->
  ladder_ok (snd (set_baud_from_index arg b)).
Proof.
  intros (Hi & Ha & Hb) Hv. unfold ladder_ok.
  rewrite set_baud_from_index_index.
  assert (K : keeps toggle_bauds (set_baud_from_index arg)) by frame.
  rewrite K. repeat split; try apply Ha; try apply Hb;
    unfold chosen_index; destruct arg as [i |]; try apply Hi;
    destruct (i =? 0); try apply Hi; apply Hv.
Qed.

Lemma ladder_ok_NextBaudrate updn b :
  ladder_ok b -> ladder_ok (snd (NextBaudrate updn b)).
Proof.
  intros (Hi & Ha & Hb). unfold ladder_ok.
  rewrite NextBaudrate_index.
  assert (K : keeps toggle_bauds (NextBaudrate updn)) by frame.
  rewrite K. auto using wrapped_index_in_ladder.
Qed.

Lemma ladder_ok_toggle_baud b :
  ladder_ok b -> ladder_ok (snd (toggle_baud b)).
Proof.
  intros Hok. pose proof Hok as (Hi & Ha & Hb).
  assert (Hidx : in_ladder (index (snd (toggle_baud b)))).
  { rewrite toggle_baud_index. unfold chosen_index.
    destruct (index b =? snd (toggle_bauds b)); auto.
    destruct (snd (toggle_bauds b) =? 0); auto. }
  unfold ladder_ok. split; [exact Hidx |].
  unfold toggle_baud, bind, get, modify, ret. cbn beta.
  destruct (index b =? snd (toggle_bauds b)); cbn [negb]; cbn beta iota.
  - cbn. auto.
  - assert (K : keeps toggle_bauds
                  (set_baud_from_index (Some (snd (toggle_bauds b))))) by frame.
    specialize (K b).
    destruct (set_baud_from_index (Some (snd (toggle_bauds b))) b)
      as [[[] | e] b']; cbn in *.
    + auto.
    + rewrite K. auto.
Qed.

Lemma ladder_ok_run_op o b :
  ladder_ok b -> valid_op o -> ladder_ok (snd (run_op o b)).
Proof.
  destruct o; simpl; intros.
  - apply ladder_ok_NextBaudrate; assumption.
  - apply ladder_ok_set_baud_from_index; assumption.
  - apply ladder_ok_toggle_baud; assumption.
Qed.

Lemma ladder_ok_run_ops ops :
  Forall valid_op ops ->
  forall b, ladder_ok b -> ladder_ok (snd (run_ops ops b)).
Proof.
  induction 1 as [| o ops Hv _ IH]; intros b Hok; simpl.
  - exact Hok.
  - unfold bind. pose proof (ladder_ok_run_op o b Hok Hv) as H1.
    destruct (run_op o b) as [[[] | e] b']; simpl in *; auto.
Qed.

(** ** Claims about the ladder *)

(** C10: [set_baud_from_index(0)] leaves the ladder index as it was,
    because the argument is tested for truth and [0] is false like [None];
    every non-zero argument becomes the index, and for a non-zero position
    of the list on an opened port the call returns normally. *)
Theorem set_baud_from_index_zero_keeps_index :
  forall b,
    index (snd (set_baud_from_index (Some 0) b)) = index b
    /\ index (snd (set_baud_from_index None b)) = index b
    /\ (forall i, i <> 0 ->
        index (snd (set_baud_from_index (Some i) b)) = i)
    /\ (forall i, i <> 0 -> in_ladder i -> is_open b = true ->
        fst (set_baud_from_index (Some i) b) = Ok tt).
Proof.
  intros b. repeat split.
  - apply set_baud_from_index_index.
  - apply set_baud_from_index_index.
  - intros i Hi. rewrite set_baud_from_index_index. unfold chosen_index.
    destruct (i =? 0) eqn:E; [apply Z.eqb_eq in E; contradiction | reflexivity].
  - intros i Hi Hin Hopen. apply set_baud_from_index_returns; auto.
    unfold chosen_index.
    destruct (i =? 0) eqn:E; [apply Z.eqb_eq in E; contradiction | exact Hin].
Qed.

Lemma set_baud_from_index_zero_keeps_index_witness :
  index (manual) = 4
  /\ index (snd (set_baud_from_index (Some 0) (manual)))
     = 4
  /\ index (snd (set_baud_from_index (Some 7) (manual)))
     = 7
  /\ fst (set_baud_from_index (Some 7) (manual))
     = Ok tt.
Proof.
  destruct (set_baud_from_index_zero_keeps_index
              (manual)) as (H0 & _ & Hnz & Hret).
  split; [reflexivity |]. split; [rewrite H0; reflexivity |].
  split.
  - apply Hnz. discriminate.
  - apply Hret; [discriminate | vm_compute; split; [discriminate | reflexivity]
                | reflexivity].
Defined.

(** C4, as stated, fails: from index 0 a step of 2 lands on the last
    position, 22, where [(0 - 2) mod 23] is 21. *)
Lemma NextBaudrate_is_not_modular :
  index at_top = 0
  /\ index (snd (NextBaudrate 2 at_top)) = 22
  /\ (index at_top - 2) mod py_len BAUDRATES = 21
  /\ index (snd (NextBaudrate 2 at_top))
     <> (index at_top - 2) mod py_len BAUDRATES.
Proof. vm_compute. repeat split. discriminate. Qed.

(** C4, amended: [NextBaudrate(delta)] moves the index to [index - delta]
    when that is a position of the list, to 0 when it is
    [len(BAUDRATES)] or more, and to the last position when it is
    negative.  This is [(index - delta) mod len(BAUDRATES)] whenever
    [index - delta] overshoots the list by at most one on either side, in
    particular for the steps -1, 0 and 1, the only ones the program takes. *)
Theorem NextBaudrate_wraps_by_one :
  forall b delta,
    in_ladder (index b) ->
    index (snd (NextBaudrate delta b)) = wrapped_index (index b - delta)
    /\ (-1 <= index b - delta <= py_len BAUDRATES ->
        index (snd (NextBaudrate delta b))
        = (index b - delta) mod py_len BAUDRATES)
    /\ (-1 <= delta <= 1 ->
        index (snd (NextBaudrate delta b))
        = (index b - delta) mod py_len BAUDRATES).
Proof.
  intros b delta Hin.
  assert (Hmod : -1 <= index b - delta <= py_len BAUDRATES ->
                 wrapped_index (index b - delta)
                 = (index b - delta) mod py_len BAUDRATES).
  { unfold wrapped_index. rewrite py_len_BAUDRATES. intros Hr.
    destruct (23 <=? index b - delta) eqn:E1.
    - apply Z.leb_le in E1. replace (index b - delta) with 23 by lia.
      reflexivity.
    - apply Z.leb_gt in E1. destruct (index b - delta <? 0) eqn:E2.
      + apply Z.ltb_lt in E2. replace (index b - delta) with (-1) by lia.
        reflexivity.
      + apply Z.ltb_ge in E2. symmetry. apply Z.mod_small. lia. }
  rewrite NextBaudrate_index. split; [reflexivity |]. split.
  - exact Hmod.
  - intros Hd. apply Hmod. unfold in_ladder in Hin. lia.
Qed.

Lemma NextBaudrate_wraps_by_one_witness :
  index (snd (NextBaudrate (-1)
                (snd (run_ops [SetIndex (Some 22)]
                        (manual))))) = 0.
Proof.
  pose (b := snd (run_ops [SetIndex (Some 22)]
                    (manual))).
  assert (Hin : in_ladder (index b))
    by (vm_compute; split; [discriminate | reflexivity]).
  destruct (NextBaudrate_wraps_by_one b (-1) Hin) as (_ & _ & H).
  fold b. rewrite H; [reflexivity | lia].
Defined.

(** One call of [toggle_baud] from a state whose index is the first slot:
    the index moves to the second slot and the pair is reversed. *)
Lemma toggle_baud_from_first_slot b :
  is_open b = true -> ladder_ok b ->
  index b = fst (toggle_bauds b) ->
  snd (toggle_bauds b) <> 0 ->
  index (snd (toggle_baud b)) = snd (toggle_bauds b)
  /\ toggle_bauds (snd (toggle_baud b))
     = (snd (toggle_bauds b), fst (toggle_bauds b)).
Proof.
  intros Hopen Hok Hfirst Hnz.
  rewrite toggle_baud_index, toggle_baud_pair
    by (apply toggle_baud_returns; assumption).
  unfold chosen_index.
  destruct (index b =? snd (toggle_bauds b)) eqn:E.
  - apply Z.eqb_eq in E. split; [exact E | reflexivity].
  - destruct (snd (toggle_bauds b) =? 0) eqn:E0;
      [apply Z.eqb_eq in E0; contradiction |].
    split; [reflexivity | rewrite Hfirst; reflexivity].
Qed.

Lemma toggles_alternate n :
  forall b,
    is_open b = true -> ladder_ok b ->
    index b = fst (toggle_bauds b) ->
    fst (toggle_bauds b) <> 0 -> snd (toggle_bauds b) <> 0 ->
    index (toggles n b)
    = (if Nat.even n then fst (toggle_bauds b) else snd (toggle_bauds b))
    /\ toggle_bauds (toggles n b)
       = (if Nat.even n then toggle_bauds b
          else (snd (toggle_bauds b), fst (toggle_bauds b))).
Proof.
  induction n as [| n IH]; intros b Hopen Hok Hfirst Ha Hc.
  - simpl. split; [exact Hfirst | reflexivity].
  - destruct (toggle_baud_from_first_slot b Hopen Hok Hfirst Hc) as (Hi & Hp).
    assert (Hopen' : is_open (snd (toggle_baud b)) = true).
    { assert (K : keeps is_open toggle_baud) by frame. rewrite K. exact Hopen. }
    assert (IH' := IH (snd (toggle_baud b)) Hopen'
                     (ladder_ok_toggle_baud b Hok)).
    rewrite Hp, Hi in IH'. cbn [fst snd] in IH'.
    destruct (IH' eq_refl Hc Ha) as (IHi & IHp).
    rewrite Nat.even_succ, <- Nat.negb_even. cbn [toggles].
    rewrite IHi, IHp.
    destruct (Nat.even n); simpl; split; try reflexivity.
    destruct (toggle_bauds b); reflexivity.
Qed.

(** C5, as stated, fails: after the keys up, space, space, down the index
    (4) is the second slot of the established pair (3, 4); the first call
    of [toggle_baud] only reverses the pair, the second moves to 3. *)
Lemma toggle_baud_twice_from_second_slot :
  toggle_bauds after_down = (3, 4)
  /\ index after_down = snd (toggle_bauds after_down)
  /\ index (toggles 1 after_down) = 4
  /\ index (toggles 2 after_down) = 3
  /\ index (toggles 2 after_down) <> index after_down.
Proof. vm_compute. repeat split. discriminate. Qed.

(** C5, amended: when the current index is the first slot of the toggle
    pair and neither slot is position 0, each call of [toggle_baud] moves
    the index to the other slot and reverses the pair; after an even
    number of calls index and pair are as at the start, after an odd
    number the index is the second slot.  (Position 0 is left out: see
    C10.) *)
Theorem toggle_baud_alternates_from_first_slot :
  forall b n,
    is_open b = true -> ladder_ok b ->
    index b = fst (toggle_bauds b) ->
    fst (toggle_bauds b) <> 0 -> snd (toggle_bauds b) <> 0 ->
    index (toggles 2 b) = index b
    /\ toggle_bauds (toggles 2 b) = toggle_bauds b
    /\ index (toggles n b)
       = (if Nat.even n then fst (toggle_bauds b) else snd (toggle_bauds b)).
Proof.
  intros b n Hopen Hok Hfirst Ha Hc.
  destruct (toggles_alternate 2 b Hopen Hok Hfirst Ha Hc) as (H2i & H2p).
  destruct (toggles_alternate n b Hopen Hok Hfirst Ha Hc) as (Hni & _).
  simpl Nat.even in H2i, H2p. rewrite H2i, H2p, Hni, Hfirst. auto.
Qed.

Lemma toggle_baud_alternates_from_first_slot_witness :
  index (toggles 2 (snd (run_ops [Step 1; Toggle] manual))) = 4
  /\ index (toggles 3 (snd (run_ops [Step 1; Toggle] manual))) = 3.
Proof.
  pose (b := snd (run_ops [Step 1; Toggle] manual)).
  assert (Hopen : is_open b = true) by reflexivity.
  assert (Hok : ladder_ok b)
    by (vm_compute; repeat split; (reflexivity || discriminate)).
  assert (Hfirst : index b = fst (toggle_bauds b)) by reflexivity.
  assert (Ha : fst (toggle_bauds b) <> 0) by (vm_compute; discriminate).
  assert (Hc : snd (toggle_bauds b) <> 0) by (vm_compute; discriminate).
  destruct (toggle_baud_alternates_from_first_slot b 3 Hopen Hok Hfirst Ha Hc)
    as (H2 & _ & H3).
  fold b. rewrite H2, H3. split; reflexivity.
Defined.

(** With position 0 in the pair the alternation is lost as well: position
    0 is never selected by [set_baud_from_index]. *)
Example toggle_baud_with_slot_zero :
  index at_top = 0
  /\ toggle_bauds (toggles 2 at_top) = (0, 4)
  /\ index (toggles 1 at_top) = 4
  /\ index (toggles 2 at_top) = 4
  /\ index (toggles 3 at_top) = 4.
Proof. vm_compute. repeat split. Qed.

(** ** The display buffer *)


Lemma list_eqb_eq {A} (eqb : A -> A -> bool) :
  (forall x y, eqb x y = true <-> x = y) ->
  forall l1 l2, list_eqb eqb l1 l2 = true <-> l1 = l2.
Proof.
  intros Heq. induction l1 as [| x l1 IH]; intros [| y l2]; simpl;
    try (split; [discriminate | discriminate]); try tauto.
  rewrite andb_true_iff, Heq, IH. split.
  - intros [-> ->]. reflexivity.
  - intros [= -> ->]. auto.
Qed.

Lemma str_eqb_eq s t : str_eqb s t = true <-> s = t.
Proof. apply list_eqb_eq. apply N.eqb_eq. Qed.

Lemma _print_returns data nl b : fst (_print data nl b) = Ok tt.
Proof.
  unfold _print, bind, get, try_except_pass, ret.
  destruct (verbose b); reflexivity.
Qed.

Lemma _print_undecodable data nl b :
  (forall s, decode data <> Ok s) -> snd (_print data nl b) = b.
Proof.
  intros H. unfold _print, _print_try, bind, get, try_except_pass, lift, ret.
  destruct (verbose b); [| reflexivity].
  destruct (decode data) as [s | e]; [exfalso; apply (H s); reflexivity |].
  reflexivity.
Qed.

Lemma _print_write_stderr r b :
  stderr (snd (_print_write r b))
  = stderr b ++ cap_text b ++ (if r then [CR] else []) ++ buffer b.
Proof.
  unfold _print_write, cap_text, cap_stderr. run_method;
    rewrite <- ?app_assoc; reflexivity.
Qed.

Lemma _print_write_buffer r b :
  buffer (snd (_print_write r b))
  = if (max_display_chars b <=? py_len (buffer b)) || negb r
    then [] else buffer b.
Proof.
  unfold _print_write, cap_stderr. run_method; try reflexivity; congruence.
Qed.

Lemma _print_lone_newline b :
  verbose b = true -> allow_newline b = false ->
  snd (_print (PyBytes [x0a]) false b) = with_buffer (newline_sub b) b.
Proof.
  intros Hv Ha.
  unfold _print, _print_try, bind, get, try_except_pass, lift, modify, ret.
  rewrite Hv. cbn. rewrite Ha. reflexivity.
Qed.

Lemma _print_plain_chunk bs s b :
  verbose b = true -> allow_newline b = false ->
  decode_utf8 bs = Some s -> contains LF s = false ->
  snd (_print (PyBytes bs) false b)
  = snd (_print_write true (with_buffer (buffer b ++ s) b)).
Proof.
  intros Hv Ha Hd Hc.
  unfold _print, _print_try, bind, get, try_except_pass, lift, modify, ret,
    decode.
  rewrite Hv, Hd. cbn. rewrite Ha, Hc. reflexivity.
Qed.

Lemma _print_a_newline_b b :
  verbose b = true -> allow_newline b = false ->
  snd (_print (PyBytes [x61; x0a; x62]) false b)
  = snd (_print_write true (with_buffer (newline_sub b ++ lit "b") b)).
Proof.
  intros Hv Ha.
  unfold _print, _print_try, bind, get, try_except_pass, lift, modify, ret.
  rewrite Hv. cbn. rewrite Ha. reflexivity.
Qed.

Lemma line_clear_fills_the_line s :
  (80 <=? py_len (LINE_CLEAR ++ s)) = true.
Proof.
  apply Z.leb_le. unfold py_len. rewrite length_app.
  change (List.length LINE_CLEAR) with 82%nat. lia.
Qed.

Lemma _print_embedded_newline bs s b :
  verbose b = true -> allow_newline b = false ->
  decode_utf8 bs = Some s -> contains LF s = true -> s <> [LF] ->
  contains LF (strip s) = false ->
  snd (_print (PyBytes bs) false b)
  = snd (_print_write true (with_buffer (strip s) b)).
Proof.
  intros Hv Ha Hd Hc Hne Hs.
  assert (He : str_eqb [LF] s = false).
  { destruct (str_eqb [LF] s) eqn:E; [| reflexivity].
    apply str_eqb_eq in E. congruence. }
  unfold _print, _print_try, bind, get, try_except_pass, lift, modify, ret,
    decode.
  rewrite Hv, Hd. cbn [fst snd orb]. rewrite Ha, Hc, He, Hs. reflexivity.
Qed.

(** C7, as stated, fails for the chunk ["\n"]: it writes nothing, and the
    line-clear it leaves pending is dropped when the next chunk ends in a
    line break.  After ["abcdef"] is shown, the chunks ["\n"] and
    ["x\n"] write a carriage return and ["x"], no blank at all: the line
    reads ["xbcdef"]. *)
Lemma print_lone_newline_clears_nothing :
  verbose manual = true /\ allow_newline manual = false
  /\ stderr (snd (_print (PyBytes [x61; x62; x63; x64; x65; x66]) false
                    manual))
     = stderr manual ++ [LF; LF] ++ [CR] ++ lit "abcdef"
  /\ stderr
       (snd (_print (PyBytes [x0a]) false
               (snd (_print (PyBytes [x61; x62; x63; x64; x65; x66]) false
                       manual))))
     = stderr manual ++ [LF; LF] ++ [CR] ++ lit "abcdef"
  /\ stderr
       (snd (_print (PyBytes [x78; x0a]) false
               (snd (_print (PyBytes [x0a]) false
                       (snd (_print (PyBytes [x61; x62; x63; x64; x65; x66])
                               false manual))))))
     = stderr manual ++ [LF; LF] ++ [CR] ++ lit "abcdef" ++ [CR] ++ lit "x"
  /\ contains SP ([CR] ++ lit "x") = false
  /\ contains SP LINE_CLEAR = true.
Proof. vm_compute. repeat split. Qed.

(** C7, amended: with echo on and newlines not allowed, the chunk ["\n"]
    writes nothing and replaces whatever was pending by the line-clear
    sequence (carriage return, 80 blanks, carriage return).  That
    sequence reaches the display with the next chunk only: before its
    text if the chunk has no line break; it stays pending if the chunk is
    ["\n"] again; and it is dropped, nothing but a carriage return and
    the stripped text being written, if the chunk has line breaks at its
    ends only.  The chunk ["a\nb"] writes the line-clear followed by
    exactly ["b"] and leaves nothing pending.  (What is written is
    preceded by the two capping newlines when a status line is on
    display, and by the carriage return of every in-place write.) *)
Theorem print_collapses_newlines :
  forall b,
    verbose b = true -> allow_newline b = false -> display_ok b ->
    (buffer (snd (_print (PyBytes [x0a]) false b)) = LINE_CLEAR
     /\ stderr (snd (_print (PyBytes [x0a]) false b)) = stderr b
     /\ Forall (fun c => c = CR \/ c = SP) LINE_CLEAR)
    /\ (forall bs s,
         decode_utf8 bs = Some s -> contains LF s = false ->
         stderr (snd (_print (PyBytes bs) false
                        (snd (_print (PyBytes [x0a]) false b))))
         = stderr b ++ cap_text b ++ [CR] ++ LINE_CLEAR ++ s)
    /\ (stderr (snd (_print (PyBytes [x61; x0a; x62]) false b))
        = stderr b ++ cap_text b ++ [CR] ++ LINE_CLEAR ++ lit "b"
        /\ buffer (snd (_print (PyBytes [x61; x0a; x62]) false b)) = [])
    /\ snd (_print (PyBytes [x0a]) false
              (snd (_print (PyBytes [x0a]) false b)))
       = snd (_print (PyBytes [x0a]) false b)
    /\ (forall bs s,
         decode_utf8 bs = Some s -> contains LF s = true -> s <> [LF] ->
         contains LF (strip s) = false ->
         stderr (snd (_print (PyBytes bs) false
                        (snd (_print (PyBytes [x0a]) false b))))
         = stderr b ++ cap_text b ++ [CR] ++ strip s).
Proof.
  intros b Hv Ha (Hmax & Hsub).
  split; [split; [| split] | split; [| split; [split |]]].
  - rewrite _print_lone_newline by assumption. exact Hsub.
  - rewrite _print_lone_newline by assumption. reflexivity.
  - unfold LINE_CLEAR.
    apply Forall_cons; [auto |]. apply Forall_app. split.
    + apply Forall_forall. intros c Hc. apply repeat_spec in Hc. auto.
    + apply Forall_cons; auto.
  - intros bs s Hd Hc. rewrite _print_lone_newline by assumption.
    rewrite (_print_plain_chunk bs s) by assumption.
    rewrite _print_write_stderr. cbn [buffer stderr with_buffer cap_text
      stderr_needs_capping]. rewrite Hsub. reflexivity.
  - rewrite _print_a_newline_b by assumption.
    rewrite _print_write_stderr. cbn [buffer stderr with_buffer cap_text
      stderr_needs_capping]. rewrite Hsub. reflexivity.
  - rewrite _print_a_newline_b by assumption.
    rewrite _print_write_buffer. cbn [buffer max_display_chars with_buffer].
    rewrite Hmax, Hsub, line_clear_fills_the_line. reflexivity.
  - split.
    + rewrite (_print_lone_newline b) by assumption.
      rewrite _print_lone_newline by assumption.
      destruct b; reflexivity.
    + intros bs s Hd Hc Hne Hs. rewrite _print_lone_newline by assumption.
      rewrite (_print_embedded_newline bs s) by assumption.
      rewrite _print_write_stderr. cbn [buffer stderr with_buffer cap_text
        stderr_needs_capping]. reflexivity.
Qed.

Lemma print_collapses_newlines_witness :
  buffer (snd (_print (PyBytes [x0a]) false manual)) = LINE_CLEAR
  /\ stderr (snd (_print (PyBytes [x61; x0a; x62]) false manual))
     = stderr manual ++ [LF; LF] ++ [CR] ++ LINE_CLEAR ++ lit "b"
  /\ stderr (snd (_print (PyBytes [x78; x0a]) false
                    (snd (_print (PyBytes [x0a]) false manual))))
     = stderr manual ++ [LF; LF] ++ [CR] ++ lit "x".
Proof.
  assert (Hd : display_ok manual) by (split; reflexivity).
  destruct (print_collapses_newlines manual eq_refl eq_refl Hd)
    as ((H1 & _) & _ & (H2 & _) & _ & H3).
  split; [exact H1 |]. split; [exact H2 |].
  rewrite (H3 [x78; x0a] (lit "x" ++ [LF])); try reflexivity.
  discriminate.
Defined.

(** C9: [_print] returns normally on every chunk; a chunk that cannot be
    decoded leaves the whole object, the pending buffer and the capping
    flag included, and the text written so far as they were. *)
Theorem print_never_raises :
  forall b data nl,
    fst (_print data nl b) = Ok tt
    /\ ((forall s, decode data <> Ok s) ->
        snd (_print data nl b) = b
        /\ buffer (snd (_print data nl b)) = buffer b
        /\ stderr_needs_capping (snd (_print data nl b))
           = stderr_needs_capping b).
Proof.
  intros b data nl. split.
  - apply _print_returns.
  - intros H. rewrite (_print_undecodable data nl b H). auto.
Qed.

Lemma print_never_raises_witness :
  decode (PyBytes [xff]) = Raise UnicodeDecodeError
  /\ fst (_print (PyBytes [xff]) false manual) = Ok tt
  /\ snd (_print (PyBytes [xff]) false manual) = manual.
Proof.
  destruct (print_never_raises manual (PyBytes [xff]) false) as (H1 & H2).
  split; [reflexivity |]. split; [exact H1 |].
  apply H2. intros s. vm_compute. discriminate.
Defined.

(** ** The keypress interpreter *)

(** C8: in pass-through mode with the escape deadline armed, the marker
    ['['] arriving before the deadline switches to interpreting mode,
    clears the deadline and touches nothing else, so it is not written to
    the transport.  Any other key, or any key at or after the deadline, is
    handled exactly as in pass-through mode with no deadline: the deadline
    is cleared, the mode-switch key switches mode without being written,
    and every other key is written to the transport and leaves the mode as
    it is. *)
Theorem HandleKeypress_escape_deadline :
  forall b l ev,
    passthrough_keys b = true ->
    interpret_mode l = false ->
    interpret_esc_timeout l <> 0 ->
    (py_eq (key ev) (PyStr ESCAPE_CODE_COMING) = true ->
     now_ms ev < interpret_esc_timeout l ->
     HandleKeypress_iter ev l b = (Ok (mkKeyLocals true 0), b))
    /\ (py_eq (key ev) (PyStr ESCAPE_CODE_COMING) = false
        \/ interpret_esc_timeout l <= now_ms ev ->
        HandleKeypress_iter ev l b
        = HandleKeypress_iter ev (mkKeyLocals false 0) b
        /\ (forall l' b',
             HandleKeypress_iter ev l b = (Ok l', b') ->
             interpret_esc_timeout l' = 0)
        /\ (py_eq (key ev) (PyStr INTERPRET_MODE_KEY) = true ->
            HandleKeypress_iter ev l b = (Ok (mkKeyLocals true 0), b))
        /\ (py_eq (key ev) (PyStr INTERPRET_MODE_KEY) = false ->
            forall data log,
              py_bytes (key ev) = Ok data ->
              serial b = Some log ->
              HandleKeypress_iter ev l b
              = (Ok (mkKeyLocals false 0),
                 with_serial (Some (log ++ [SerWrite data])) b))).
Proof.
  intros b [mode deadline] ev Hpass Hmode Harmed. simpl in *. subst mode.
  assert (Hnz : (deadline =? 0) = false) by (apply Z.eqb_neq; exact Harmed).
  split.
  - intros Hkey Hnow. unfold HandleKeypress_iter. simpl.
    rewrite Hnz, Hkey. apply Z.ltb_lt in Hnow. rewrite Hnow. reflexivity.
  - intros Hother.
    assert (Hcond : negb (deadline =? 0) && (now_ms ev <? deadline)
                    && py_eq (key ev) (PyStr ESCAPE_CODE_COMING) = false).
    { rewrite Hnz. simpl. destruct Hother as [Hk | Hlate].
      - rewrite Hk. apply andb_false_r.
      - apply Z.ltb_ge in Hlate. rewrite Hlate. reflexivity. }
    assert (Hswitch : py_eq (key ev) (PyStr INTERPRET_MODE_KEY) = true ->
                      HandleKeypress_iter ev (mkKeyLocals false deadline) b
                      = (Ok (mkKeyLocals true 0), b)).
    { intros Hk. unfold HandleKeypress_iter, bind, get, ret. simpl.
      rewrite Hcond, Hpass, Hk. reflexivity. }
    assert (Hwrite : py_eq (key ev) (PyStr INTERPRET_MODE_KEY) = false ->
                     forall data log,
                       py_bytes (key ev) = Ok data ->
                       serial b = Some log ->
                       HandleKeypress_iter ev (mkKeyLocals false deadline) b
                       = (Ok (mkKeyLocals false 0),
                          with_serial (Some (log ++ [SerWrite data])) b)).
    { intros Hk data log Hdata Hlog.
      unfold HandleKeypress_iter, HandleKeypress_interpret, bind, get, ret,
        lift, serial_do. simpl.
      rewrite Hcond, Hpass, Hk, Hdata. simpl. rewrite Hlog. reflexivity. }
    split; [| split; [| split]].
    + unfold HandleKeypress_iter. simpl. rewrite Hcond. reflexivity.
    + intros l' b'. unfold HandleKeypress_iter, HandleKeypress_interpret,
        bind, get, ret, lift, serial_do. simpl. rewrite Hcond, Hpass. simpl.
      destruct (py_eq (key ev) (PyStr INTERPRET_MODE_KEY)); simpl.
      * intros [= <- _]. reflexivity.
      * destruct (py_bytes (key ev)); [| discriminate].
        destruct (serial b); simpl; [| discriminate].
        intros [= <- _]. reflexivity.
    + exact Hswitch.
    + exact Hwrite.
Qed.

Lemma HandleKeypress_escape_deadline_witness :
  HandleKeypress_iter (mkKeyEvent (PyStr ESCAPE_CODE_COMING) 1050 1050)
    (mkKeyLocals false 1100)
    (session false true false true)
  = (Ok (mkKeyLocals true 0), session false true false true)
  /\ HandleKeypress_iter (mkKeyEvent (PyStr ESCAPE_CODE_COMING) 1100 1100)
       (mkKeyLocals false 1100)
       (session false true false true)
     = HandleKeypress_iter (mkKeyEvent (PyStr ESCAPE_CODE_COMING) 1100 1100)
         (mkKeyLocals false 0)
         (session false true false true).
Proof.
  assert (Harmed : interpret_esc_timeout (mkKeyLocals false 1100) <> 0)
    by discriminate.
  split.
  - destruct (HandleKeypress_escape_deadline (session false true false true)
                (mkKeyLocals false 1100)
                (mkKeyEvent (PyStr ESCAPE_CODE_COMING) 1050 1050)
                eq_refl eq_refl Harmed) as (Hin & _).
    exact (Hin eq_refl eq_refl).
  - destruct (HandleKeypress_escape_deadline (session false true false true)
                (mkKeyLocals false 1100)
                (mkKeyEvent (PyStr ESCAPE_CODE_COMING) 1100 1100)
                eq_refl eq_refl Harmed) as (_ & Hout).
    exact (proj1 (Hout (or_intror (Z.le_refl 1100)))).
Defined.

(** ** The detector: one iteration *)

Lemma verdict_ext b b' tk l :
  threshold b' = threshold b -> timeout b' = timeout b ->
  verdict b' tk l = verdict b tk l.
Proof. unfold verdict, confirmed. intros -> ->. reflexivity. Qed.

Lemma Detect_receive_run tk l b :
  Detect_receive tk l b
  = if truthy (rx tk)
    then (Ok (verdict b tk (classify b (rx tk) (open_window tk l))),
          snd (_print (rx tk) false b))
    else (Ok (Next (mark_timed_out (open_window tk l))), b).
Proof.
  unfold Detect_receive. destruct (truthy (rx tk)); [| reflexivity].
  unfold bind, get, ret.
  pose proof (_print_returns (rx tk) false b) as Hret.
  assert (Kt : keeps threshold (_print (rx tk) false)) by frame.
  assert (Ko : keeps timeout (_print (rx tk) false)) by frame.
  specialize (Kt b). specialize (Ko b).
  destruct (_print (rx tk) false b) as [[[] | e] b']; simpl in *;
    [| discriminate].
  rewrite (verdict_ext b b') by assumption. reflexivity.
Qed.

Lemma Detect_settle_outcome l b c b' :
  Detect_settle l b = (Ok c, b') ->
  c = (if ctlc b then Break ExitCancelled (settled b l)
       else Next (settled b l))
  /\ b' = (if timed_out l && auto_detect b
           then snd (NextBaudrate (-1) b) else b).
Proof.
  unfold Detect_settle, settled, bind, get, ret.
  destruct (timed_out l && auto_detect b).
  - assert (K : keeps ctlc (NextBaudrate (-1))) by frame. specialize (K b).
    destruct (NextBaudrate (-1) b) as [[[] | e] b1]; simpl in *;
      [| discriminate].
    rewrite K. destruct (ctlc b); intros [= <- <-]; auto.
  - destruct (ctlc b); intros [= <- <-]; auto.
Qed.

Lemma Detect_settle_returns l b :
  is_open b = true -> exists c b', Detect_settle l b = (Ok c, b').
Proof.
  intros Hopen. unfold Detect_settle, bind, get, ret.
  destruct (timed_out l && auto_detect b).
  - pose proof (NextBaudrate_returns (-1) b Hopen) as H.
    destruct (NextBaudrate (-1) b) as [[[] | e] b1]; simpl in *;
      [| discriminate].
    destruct (ctlc b1); eauto.
  - destruct (ctlc b); eauto.
Qed.

(** The outcome of one iteration, when it does not raise. *)
Lemma Detect_iter_outcome tk l b c b' :
  Detect_iter tk l b = (Ok c, b') ->
  let r := if truthy (rx tk)
           then verdict b tk (classify b (rx tk) (open_window tk l))
           else Next (mark_timed_out (open_window tk l)) in
  let b1 := if truthy (rx tk) then snd (_print (rx tk) false b) else b in
  match r with
  | Break e l1 => c = Break e l1 /\ b' = b1
  | Next l1 =>
      c = (if ctlc b1 then Break ExitCancelled (settled b1 l1)
           else Next (settled b1 l1))
  end.
Proof.
  unfold Detect_iter, bind. rewrite Detect_receive_run.
  destruct (truthy (rx tk)); cbv zeta.
  - destruct (verdict b tk (classify b (rx tk) (open_window tk l)))
      as [e l1 | l1].
    + unfold ret. intros [= <- <-]. auto.
    + intros H. apply Detect_settle_outcome in H. apply H.
  - intros H. apply Detect_settle_outcome in H. apply H.
Qed.

Lemma Detect_iter_returns tk l b :
  is_open b = true -> exists c b', Detect_iter tk l b = (Ok c, b').
Proof.
  intros Hopen. unfold Detect_iter, bind. rewrite Detect_receive_run.
  assert (Hopen' : is_open (snd (_print (rx tk) false b)) = true).
  { assert (K : keeps is_open (_print (rx tk) false)) by frame.
    rewrite K. exact Hopen. }
  destruct (truthy (rx tk)).
  - destruct (verdict b tk (classify b (rx tk) (open_window tk l))).
    + unfold ret. eauto.
    + apply Detect_settle_returns. exact Hopen'.
  - apply Detect_settle_returns. exact Hopen.
Qed.

(** ** The detector: the test for success *)

Lemma confirmed_iff b l :
  confirmed b l = true
  <-> threshold b <= count l /\ 0 < whitespace l
      /\ 0 < punctuation l /\ 0 < vowels l.
Proof.
  unfold confirmed. rewrite !andb_true_iff, Z.leb_le, !Z.ltb_lt. tauto.
Qed.

Lemma classify_open_window b v tk l :
  classify b v (open_window tk l)
  = mkDetectLocals (count (classify b v l)) (whitespace (classify b v l))
      (punctuation (classify b v l)) (vowels (classify b v l))
      (start_time (open_window tk l)) (timed_out (classify b v l))
      (clear_counters (classify b v l)).
Proof.
  unfold classify, open_window.
  destruct (start_time l =? 0), (auto_detect b && py_in v (valid_characters b)),
    (py_in v WHITESPACE), (py_in v PUNCTUATION), (py_in v VOWELS);
    destruct l; reflexivity.
Qed.

Lemma confirmed_open_window b v tk l :
  confirmed b (classify b v (open_window tk l)) = confirmed b (classify b v l).
Proof. rewrite classify_open_window. reflexivity. Qed.

Lemma py_in_bytes x l : py_in (PyBytes x) l = false.
Proof. induction l as [| s l IH]; [reflexivity | exact IH]. Qed.

Lemma is_char_not_in c v l :
  is_char c v -> py_in (PyStr [c]) l = false -> py_in v l = false.
Proof.
  intros [-> | (x & _ & ->)] H; [exact H | apply py_in_bytes].
Qed.

Lemma classify_whitespace_other b v l :
  py_in v WHITESPACE = false -> whitespace (classify b v l) = whitespace l.
Proof.
  intros H. unfold classify. rewrite H.
  destruct (auto_detect b && py_in v (valid_characters b)),
    (py_in v PUNCTUATION), (py_in v VOWELS); reflexivity.
Qed.

Lemma settled_whitespace b l :
  whitespace l = 0 -> whitespace (settled b l) = 0.
Proof.
  intros H. unfold settled, cleared, rotated.
  destruct (timed_out l && auto_detect b); simpl; [reflexivity |].
  destruct (clear_counters l); [reflexivity | exact H].
Qed.

Lemma verdict_without_whitespace b tk l :
  whitespace l = 0 ->
  exists l', verdict b tk l = Next l' /\ whitespace l' = 0.
Proof.
  intros H. unfold verdict, confirmed. rewrite H. simpl.
  rewrite andb_false_r. simpl.
  destruct (timeout b <=? clock_check tk - start_time l); eauto.
Qed.

(** A stream without whitespace never confirms. *)
Lemma Detect_loop_without_whitespace ticks :
  Forall (fun tk => py_in (rx tk) WHITESPACE = false) ticks ->
  forall l ts b lx,
    whitespace l = 0 ->
    fst (Detect_loop ticks l ts b) <> Ok (Some (ExitConfirmed, lx)).
Proof.
  induction 1 as [| tk ticks Htk _ IH]; intros l ts b lx Hws.
  - simpl. discriminate.
  - cbn [Detect_loop]. unfold bind at 1.
    destruct (HandleKeypress_run (keys tk) ts b) as [ts' b1].
    unfold bind.
    destruct (Detect_iter tk l b1) as [[c | e] b2] eqn:Eiter;
      [| simpl; discriminate].
    apply Detect_iter_outcome in Eiter. cbv zeta in Eiter.
    assert (Hnext : exists l1,
               (if truthy (rx tk)
                then verdict b1 tk (classify b1 (rx tk) (open_window tk l))
                else Next (mark_timed_out (open_window tk l))) = Next l1
               /\ whitespace l1 = 0).
    { assert (Hw : whitespace (open_window tk l) = 0).
      { unfold open_window. destruct (start_time l =? 0); exact Hws. }
      destruct (truthy (rx tk)).
      - apply verdict_without_whitespace.
        rewrite classify_whitespace_other; assumption.
      - eexists. split; [reflexivity | exact Hw]. }
    destruct Hnext as (l1 & Hn & Hl1). rewrite Hn in Eiter. subst c.
    destruct (ctlc _).
    + simpl. discriminate.
    + apply IH. apply settled_whitespace. exact Hl1.
Qed.

Lemma Detect_iter_confirms tk l b :
  (exists l', fst (Detect_iter tk l b) = Ok (Break ExitConfirmed l'))
  <-> truthy (rx tk) = true /\ confirmed b (classify b (rx tk) l) = true.
Proof.
  split.
  - intros (l' & H).
    destruct (Detect_iter tk l b) as [r b'] eqn:E. simpl in H. subst r.
    apply Detect_iter_outcome in E. cbv zeta in E.
    destruct (truthy (rx tk)).
    + split; [reflexivity |]. rewrite <- (confirmed_open_window b _ tk).
      unfold verdict in E.
      destruct (confirmed b (classify b (rx tk) (open_window tk l)));
        [reflexivity |].
      destruct (timeout b <=? _) in E; destruct (ctlc _) in E; discriminate.
    + destruct (ctlc b) in E; discriminate.
  - intros (Ht & Hc). rewrite <- (confirmed_open_window b _ tk) in Hc.
    unfold Detect_iter, bind. rewrite Detect_receive_run, Ht.
    unfold verdict. rewrite Hc. unfold ret. simpl. eauto.
Qed.

(** ** The interpreter thread *)

(** C1, as stated, fails in both directions: with automatic detection
    requested no thread is created, and without it the interpreter thread
    is created and started. *)
Lemma Detect_start_inverts_the_claim :
  auto_detect automatic = true
  /\ Detect_start automatic = (Ok NoThread, automatic)
  /\ thread (snd (Detect_start automatic)) = None
  /\ auto_detect manual = false
  /\ thread (snd (Detect_start manual))
     = Some (mkThread HandleKeypress_method true).
Proof. vm_compute. repeat split. Qed.

(** C1, amended: [Detect] creates and starts the [HandleKeypress] thread
    exactly when automatic detection is off; the thread then waits for
    keys in interpreting mode unless keys are passed through.  With
    automatic detection on no thread is created and the object is left as
    it is. *)
Theorem Detect_starts_thread_in_manual_mode :
  forall b,
    (auto_detect b = false ->
     thread (snd (Detect_start b)) = Some (mkThread HandleKeypress_method true)
     /\ fst (Detect_start b)
        = Ok (if ctlc b then Ended
              else Running (mkKeyLocals (negb (passthrough_keys b)) 0)))
    /\ (auto_detect b = true ->
        Detect_start b = (Ok NoThread, b)).
Proof.
  intros b. unfold Detect_start, bind, get, modify, ret,
    HandleKeypress_start, HandleKeypress_wait.
  split; intros H; rewrite H; simpl; auto.
Qed.

Lemma Detect_starts_thread_in_manual_mode_witness :
  thread (snd (Detect_start manual))
  = Some (mkThread HandleKeypress_method true)
  /\ Detect_start automatic
     = (Ok NoThread, automatic).
Proof.
  split.
  - apply (Detect_starts_thread_in_manual_mode manual). vm_compute.
    reflexivity.
  - apply (Detect_starts_thread_in_manual_mode
             automatic). vm_compute. reflexivity.
Defined.

(** ** The detector: the counters *)

Lemma HandleKeypress_run_no_thread evs b :
  HandleKeypress_run evs NoThread b = (NoThread, b).
Proof. destruct evs; reflexivity. Qed.

Lemma confirmed_ext b b' l :
  threshold b' = threshold b -> confirmed b' l = confirmed b l.
Proof. unfold confirmed. intros ->. reflexivity. Qed.

Lemma confirmed_at_zero b l : whitespace l = 0 -> confirmed b l = false.
Proof.
  intros H. unfold confirmed. rewrite H. simpl.
  rewrite andb_false_r. reflexivity.
Qed.

(** With automatic detection on, at the top of the loop: there is no
    interpreter thread, the port is open, the test for success fails on
    the current counters, and both flags are down. *)
Lemma at_loop_head_auto b0 l ts b :
  auto_detect b0 = true -> is_open b0 = true ->
  at_loop_head b0 l ts b ->
  ts = NoThread /\ auto_detect b = true /\ is_open b = true
  /\ confirmed b l = false /\ timed_out l = false
  /\ clear_counters l = false.
Proof.
  intros Hauto Hopen Hhead.
  induction Hhead as [ts b Hstart | tk l ts b ts' b1 l' b' _ IH Hrun Hiter].
  - unfold Detect_start, bind, get, ret in Hstart. rewrite Hauto in Hstart.
    simpl in Hstart. injection Hstart as <- <-.
    repeat split; try assumption. apply confirmed_at_zero. reflexivity.
  - destruct IH as (-> & Ha & Ho & Hc & Ht & Hf).
    rewrite HandleKeypress_run_no_thread in Hrun.
    injection Hrun as <- <-.
    assert (Ka : keeps auto_detect (Detect_iter tk l)) by frame.
    assert (Ko : keeps is_open (Detect_iter tk l)) by frame.
    assert (Kt : keeps threshold (Detect_iter tk l)) by frame.
    specialize (Ka b). specialize (Ko b). specialize (Kt b).
    rewrite Hiter in Ka, Ko, Kt. simpl in Ka, Ko, Kt.
    rewrite Ka, Ko. split; [reflexivity |].
    split; [assumption |]. split; [assumption |].
    rewrite (confirmed_ext b b') by assumption.
    apply Detect_iter_outcome in Hiter. cbv zeta in Hiter.
    assert (Kp : keeps auto_detect (_print (rx tk) false)) by frame.
    assert (Hsettled :
              forall bx l1,
                auto_detect bx = true ->
                (timed_out l1 = true \/ confirmed b l1 = false) ->
                confirmed b (settled bx l1) = false
                /\ timed_out (settled bx l1) = false
                /\ clear_counters (settled bx l1) = false).
    { intros bx l1 Hbx Hl1. unfold settled, cleared, rotated. rewrite Hbx.
      rewrite andb_true_r. destruct (timed_out l1) eqn:E1; simpl.
      - repeat split. apply confirmed_at_zero. reflexivity.
      - destruct Hl1 as [Hl1 | Hl1]; [discriminate |].
        destruct (clear_counters l1) eqn:E2; simpl.
        + repeat split; try assumption. apply confirmed_at_zero. reflexivity.
        + repeat split; assumption. }
    destruct (truthy (rx tk)).
    + unfold verdict in Hiter.
      destruct (confirmed b (classify b (rx tk) (open_window tk l))) eqn:Ec.
      * destruct Hiter as [Hiter _]. discriminate.
      * destruct (timeout b <=? _) in Hiter;
          destruct (ctlc _) in Hiter; try discriminate;
          injection Hiter as ->; apply Hsettled;
          try (rewrite Kp; assumption); auto.
    + destruct (ctlc b) in Hiter; [discriminate |].
      injection Hiter as ->. apply Hsettled; auto.
Qed.

Lemma settled_after_clear_request b l :
  clear_counters l = true -> counters_zero (settled b l).
Proof.
  intros H. unfold settled, cleared, rotated, counters_zero.
  destruct (timed_out l && auto_detect b); simpl; [auto |].
  rewrite H. simpl. auto.
Qed.

Lemma classify_member b v l :
  auto_detect b = true -> py_in v (valid_characters b) = true ->
  count (classify b v l) = count l + 1
  /\ clear_counters (classify b v l) = clear_counters l
  /\ ((whitespace (classify b v l) = whitespace l + 1
       /\ punctuation (classify b v l) = punctuation l
       /\ vowels (classify b v l) = vowels l)
      \/ (whitespace (classify b v l) = whitespace l
          /\ punctuation (classify b v l) = punctuation l + 1
          /\ vowels (classify b v l) = vowels l)
      \/ (whitespace (classify b v l) = whitespace l
          /\ punctuation (classify b v l) = punctuation l
          /\ vowels (classify b v l) = vowels l + 1)
      \/ (whitespace (classify b v l) = whitespace l
          /\ punctuation (classify b v l) = punctuation l
          /\ vowels (classify b v l) = vowels l)).
Proof.
  intros Ha Hv. unfold classify. rewrite Ha, Hv. cbn [andb].
  destruct (py_in v WHITESPACE);
    [cbn; split; [| split; [| left]]; auto |].
  destruct (py_in v PUNCTUATION);
    [cbn; split; [| split; [| right; left]]; auto |].
  destruct (py_in v VOWELS); cbn;
    (split; [| split; [| right; right]]; auto).
Qed.

Lemma verdict_counters b tk l :
  count (locals_of (verdict b tk l)) = count l
  /\ whitespace (locals_of (verdict b tk l)) = whitespace l
  /\ punctuation (locals_of (verdict b tk l)) = punctuation l
  /\ vowels (locals_of (verdict b tk l)) = vowels l.
Proof.
  unfold verdict. destruct (confirmed b l); [simpl; auto |].
  destruct (timeout b <=? clock_check tk - start_time l); simpl; auto.
Qed.

(** What the loop does with a received value, by the outcome of the test
    [byte in self.valid_characters]: when the test fails, the iteration
    ends (by going round again or by the cancellation exit, never by the
    success exit) with all four counters at zero; when it succeeds, the
    total grows by one and at most one of the whitespace, punctuation and
    vowel counts grows by one, and these are the counts on which the tests
    of that iteration are made.  The test can only succeed for a [str]. *)
Lemma Detect_counts_members_and_clears_on_others :
  (forall b0 l ts b tk ts' b1,
     auto_detect b0 = true -> is_open b0 = true ->
     at_loop_head b0 l ts b ->
     HandleKeypress_run (keys tk) ts b = (ts', b1) ->
     truthy (rx tk) = true ->
     py_in (rx tk) (valid_characters b1) = false ->
     exists c b',
       Detect_iter tk l b1 = (Ok c, b')
       /\ (c = Next (locals_of c) \/ c = Break ExitCancelled (locals_of c))
       /\ counters_zero (locals_of c))
  /\ (forall b l tk,
        auto_detect b = true ->
        truthy (rx tk) = true ->
        py_in (rx tk) (valid_characters b) = true ->
        exists c b',
          Detect_receive tk l b = (Ok c, b')
          /\ count (locals_of c) = count l + 1
          /\ ((whitespace (locals_of c) = whitespace l + 1
               /\ punctuation (locals_of c) = punctuation l
               /\ vowels (locals_of c) = vowels l)
              \/ (whitespace (locals_of c) = whitespace l
                  /\ punctuation (locals_of c) = punctuation l + 1
                  /\ vowels (locals_of c) = vowels l)
              \/ (whitespace (locals_of c) = whitespace l
                  /\ punctuation (locals_of c) = punctuation l
                  /\ vowels (locals_of c) = vowels l + 1)
              \/ (whitespace (locals_of c) = whitespace l
                  /\ punctuation (locals_of c) = punctuation l
                  /\ vowels (locals_of c) = vowels l))).
Proof.
  split.
  - intros b0 l ts b tk ts' b1 Hauto Hopen Hhead Hrun Htruthy Hnoise.
    destruct (at_loop_head_auto b0 l ts b Hauto Hopen Hhead)
      as (-> & Ha & Ho & Hc & Ht & Hf).
    rewrite HandleKeypress_run_no_thread in Hrun. injection Hrun as <- <-.
    destruct (Detect_iter_returns tk l b Ho) as (c & b' & Hiter).
    exists c, b'. split; [exact Hiter |].
    apply Detect_iter_outcome in Hiter. cbv zeta in Hiter.
    rewrite Htruthy in Hiter.
    assert (Hcls : classify b (rx tk) (open_window tk l)
                   = mkDetectLocals (count l) (whitespace l) (punctuation l)
                       (vowels l) (start_time (open_window tk l))
                       (timed_out l) true).
    { unfold classify. rewrite Hnoise, andb_false_r.
      unfold open_window. destruct (start_time l =? 0); reflexivity. }
    rewrite Hcls in Hiter. unfold verdict in Hiter.
    replace (confirmed b _) with (confirmed b l) in Hiter by reflexivity.
    rewrite Hc in Hiter.
    destruct (timeout b <=? _) in Hiter; destruct (ctlc _) in Hiter;
      subst c; simpl; (split; [auto |]);
      apply settled_after_clear_request; reflexivity.
  - intros b l tk Hauto Htruthy Hmember.
    rewrite Detect_receive_run, Htruthy. eexists. eexists.
    split; [reflexivity |].
    destruct (verdict_counters b tk (classify b (rx tk) (open_window tk l)))
      as (Vc & Vw & Vp & Vv).
    rewrite Vc, Vw, Vp, Vv, classify_open_window. cbn [count whitespace
      punctuation vowels].
    destruct (classify_member b (rx tk) l Hauto Hmember) as (Hc & _ & Hsub).
    split; assumption.
Qed.

Example Detect_counts_members_and_clears_on_others_example :
  (exists l b,
      at_loop_head automatic l NoThread b
      /\ count l = 1 /\ vowels l = 1
      /\ exists c b',
           Detect_iter (mkTick 3 (PyBytes [xff]) 4 []) l b = (Ok c, b')
           /\ counters_zero (locals_of c))
  /\ (exists c b',
        Detect_receive (mkTick 1 (PyStr (lit "e")) 2 []) Detect_locals
          automatic = (Ok c, b')
        /\ count (locals_of c) = 1).
Proof.
  destruct Detect_counts_members_and_clears_on_others as (Hnoise & Hvalid).
  split.
  - assert (Hhead :
        at_loop_head automatic (mkDetectLocals 1 0 0 1 1 false false) NoThread
          (snd (_print (PyStr (lit "e")) false automatic))).
    { apply (head_next automatic (mkTick 1 (PyStr (lit "e")) 2 [])
               Detect_locals NoThread automatic NoThread automatic).
      - apply head_first. vm_compute. reflexivity.
      - reflexivity.
      - vm_compute. reflexivity. }
    eexists. eexists. split; [exact Hhead |].
    split; [reflexivity |]. split; [reflexivity |].
    destruct (Hnoise automatic _ _ _ (mkTick 3 (PyBytes [xff]) 4 []) _ _
                eq_refl eq_refl Hhead eq_refl eq_refl eq_refl)
      as (c & b' & Hiter & _ & Hzero).
    exists c, b'. split; assumption.
  - destruct (Hvalid automatic Detect_locals
                (mkTick 1 (PyStr (lit "e")) 2 []) eq_refl eq_refl eq_refl)
      as (c & b' & Hrecv & Hcount & _).
    exists c, b'. split; assumption.
Defined.

(** C3, on the code: the first half holds (see the lemma above), the
    second does not for the bytes a serial port delivers.  The result of
    [serial.read(1)] is a [bytes] object and the elements of
    [valid_characters] are [str], so the membership test fails for every
    byte, printable or not: the byte is not counted, the clear flag is
    raised, and the iteration ends with the counters at zero.  Here the
    printable byte [b'a'] arrives first in an automatic session; the last
    line shows the count the [str] ['a'] would get. *)
Theorem Detect_discards_printable_bytes :
  auto_detect automatic = true
  /\ py_in (PyBytes [x61]) (valid_characters automatic) = false
  /\ py_in (PyStr (lit "a")) (valid_characters automatic) = true
  /\ (forall b l x,
        count (classify b (PyBytes x) l) = count l
        /\ whitespace (classify b (PyBytes x) l) = whitespace l
        /\ punctuation (classify b (PyBytes x) l) = punctuation l
        /\ vowels (classify b (PyBytes x) l) = vowels l
        /\ clear_counters (classify b (PyBytes x) l) = true)
  /\ fst (Detect_iter (mkTick 1 (PyBytes [x61]) 2 []) Detect_locals automatic)
     = Ok (Next (mkDetectLocals 0 0 0 0 1 false false))
  /\ fst (Detect_iter (mkTick 1 (PyStr (lit "a")) 2 []) Detect_locals
            automatic)
     = Ok (Next (mkDetectLocals 1 0 0 1 1 false false)).
Proof.
  split; [reflexivity |]. split; [reflexivity |]. split; [reflexivity |].
  split; [| split; vm_compute; reflexivity].
  intros b l x. unfold classify. rewrite py_in_bytes, andb_false_r.
  repeat split.
Qed.

(** ** Two consequences of the two string types *)

(** A [bytes] object is never equal to an element of [valid_characters],
    a list of [str]: on a transport that delivers [bytes], as pySerial
    does under Python 3, no byte is ever counted and the loop never takes
    the success exit. *)
Remark Detect_never_confirms_on_bytes ticks l ts b lx :
  Forall (fun tk => exists x, rx tk = PyBytes x) ticks ->
  whitespace l = 0 ->
  fst (Detect_loop ticks l ts b) <> Ok (Some (ExitConfirmed, lx)).
Proof.
  intros H Hl. apply Detect_loop_without_whitespace; [| exact Hl].
  eapply Forall_impl; [| exact H].
  intros tk (x & ->). apply py_in_bytes.
Qed.

(** The newline that [Detect] prints on its way out is a [str]: it has no
    [decode], the exception is swallowed, and nothing is printed. *)
Remark Detect_closing_newline_is_dropped b :
  _print (PyStr [LF]) true b = (Ok tt, b).
Proof.
  rewrite (surjective_pairing (_print (PyStr [LF]) true b)).
  rewrite _print_returns, _print_undecodable; [reflexivity |].
  intros s. discriminate.
Qed.

(** ** The ladder invariant through the two loops *)

Ltac keeps_concrete :=
  repeat (keeps_step
          || (apply keeps_modify; intro; reflexivity)
          || solve [eauto with keeps]).

Lemma preserves_bind {A B} (P : Baudrate -> Prop) (m : M A) (k : A -> M B) :
  preserves P m -> (forall a, preserves P (k a)) -> preserves P (bind m k).
Proof.
  intros Hm Hk b Hb. unfold bind. specialize (Hm b Hb).
  destruct (m b) as [[a | e] b']; simpl in *; [apply Hk |]; assumption.
Qed.

Lemma ladder_ok_keeps {A} (m : M A) :
  keeps index m -> keeps toggle_bauds m -> preserves ladder_ok m.
Proof.
  intros Ki Kt b Hb. unfold ladder_ok. rewrite Ki, Kt. exact Hb.
Qed.

Lemma preserves_NextBaudrate updn : preserves ladder_ok (NextBaudrate updn).
Proof. intros b. apply ladder_ok_NextBaudrate. Qed.

Lemma preserves_toggle_baud : preserves ladder_ok toggle_baud.
Proof. intros b. apply ladder_ok_toggle_baud. Qed.

Ltac preserves_tac :=
  repeat match goal with
         | |- preserves _ (bind _ _) => apply preserves_bind; [| intros]
         | |- preserves _ (if ?c then _ else _) => destruct c
         | |- preserves _ (match ?c with _ => _ end) => destruct c
         | |- preserves _ (NextBaudrate _) => apply preserves_NextBaudrate
         | |- preserves _ toggle_baud => apply preserves_toggle_baud
         | |- preserves ladder_ok _ =>
             solve [apply ladder_ok_keeps; keeps_concrete]
         | |- preserves _ _ => progress cbv zeta
         end.

Lemma preserves_HandleKeypress_iter ev l :
  preserves ladder_ok (HandleKeypress_iter ev l).
Proof.
  unfold HandleKeypress_iter, HandleKeypress_interpret. preserves_tac.
Qed.

Lemma ladder_ok_HandleKeypress_run evs :
  forall ts b, ladder_ok b -> ladder_ok (snd (HandleKeypress_run evs ts b)).
Proof.
  induction evs as [| ev evs IH]; intros ts b Hb; simpl.
  - destruct ts; exact Hb.
  - destruct ts as [| l |]; try exact Hb.
    pose proof (preserves_HandleKeypress_iter ev l b Hb) as H.
    destruct (HandleKeypress_iter ev l b) as [[l' | e] b']; simpl in *;
      [apply IH |]; exact H.
Qed.

Lemma is_open_HandleKeypress_run evs ts b :
  is_open (snd (HandleKeypress_run evs ts b)) = is_open b.
Proof. apply keeps_HandleKeypress_run; auto with keeps. Qed.

Lemma preserves_Detect_iter tk l : preserves ladder_ok (Detect_iter tk l).
Proof.
  unfold Detect_iter, Detect_settle. preserves_tac.
Qed.

Lemma Detect_loop_safe ticks :
  forall l ts b,
    ladder_ok b -> is_open b = true ->
    exists r b',
      Detect_loop ticks l ts b = (Ok r, b')
      /\ ladder_ok b' /\ is_open b' = true.
Proof.
  induction ticks as [| tk ticks IH]; intros l ts b Hb Ho.
  - exists None, b. auto.
  - cbn [Detect_loop]. unfold bind at 1.
    pose proof (ladder_ok_HandleKeypress_run (keys tk) ts b Hb) as Hb1.
    pose proof (is_open_HandleKeypress_run (keys tk) ts b) as Ho1.
    destruct (HandleKeypress_run (keys tk) ts b) as [ts' b1].
    simpl in Hb1, Ho1. rewrite Ho in Ho1.
    destruct (Detect_iter_returns tk l b1 Ho1) as (c & b2 & Hiter).
    pose proof (preserves_Detect_iter tk l b1 Hb1) as Hb2.
    assert (Ko : keeps is_open (Detect_iter tk l)) by frame.
    specialize (Ko b1). rewrite Hiter in Hb2, Ko. simpl in Hb2, Ko.
    unfold bind. rewrite Hiter. destruct c as [e l' | l'].
    + unfold ret. exists (Some (e, l')), b2.
      repeat split; try apply Hb2; congruence.
    + apply IH; congruence.
Qed.

Lemma Detect_run_safe ticks b :
  ladder_ok b -> is_open b = true ->
  exists ts b1 x b2,
    Detect_start b = (Ok ts, b1)
    /\ Detect_loop ticks Detect_locals ts b1 = (Ok x, b2)
    /\ ladder_ok b2
    /\ match x with
       | None => Detect ticks b = (Ok None, b2)
       | Some _ =>
           exists r,
             py_getitem BAUDRATES (index b2) = Ok r /\ In r BAUDRATES
             /\ Detect ticks b = (Ok (Some r), b2)
       end.
Proof.
  intros Hb Ho.
  assert (Hs : exists ts b1, Detect_start b = (Ok ts, b1)
                             /\ ladder_ok b1 /\ is_open b1 = true).
  { unfold Detect_start, bind, get, modify, ret.
    destruct (auto_detect b); simpl; eauto. }
  destruct Hs as (ts & b1 & Hstart & Hb1 & Ho1).
  destruct (Detect_loop_safe ticks Detect_locals ts b1 Hb1 Ho1)
    as (x & b2 & Hloop & Hb2 & Ho2).
  exists ts, b1, x, b2.
  split; [exact Hstart |]. split; [exact Hloop |]. split; [exact Hb2 |].
  destruct x as [x |].
  - destruct (py_getitem_in_ladder _ (proj1 Hb2)) as (rate & Hrate & Hin).
    exists rate. split; [exact Hrate |]. split; [exact Hin |].
    unfold Detect. unfold bind at 1. rewrite Hstart.
    unfold bind at 1. rewrite Hloop.
    unfold bind, get, lift, ret.
    rewrite Detect_closing_newline_is_dropped, Hrate. reflexivity.
  - unfold Detect. unfold bind at 1. rewrite Hstart.
    unfold bind at 1. rewrite Hloop. reflexivity.
Qed.

Lemma Detect_safe ticks b :
  ladder_ok b -> is_open b = true ->
  ladder_ok (snd (Detect ticks b))
  /\ (fst (Detect ticks b) = Ok None
      \/ exists r, fst (Detect ticks b) = Ok (Some r) /\ In r BAUDRATES).
Proof.
  intros Hb Ho.
  destruct (Detect_run_safe ticks b Hb Ho)
    as (ts & b1 & x & b2 & _ & _ & Hb2 & Hx).
  destruct x as [x |].
  - destruct Hx as (r & _ & Hin & ->). simpl. eauto.
  - rewrite Hx. simpl. auto.
Qed.

(** When the loop ends, [Detect] returns the rate at the index of that
    moment. *)
Lemma Detect_returns_current_rate ticks b ts b1 x b2 :
  ladder_ok b -> is_open b = true ->
  Detect_start b = (Ok ts, b1) ->
  Detect_loop ticks Detect_locals ts b1 = (Ok (Some x), b2) ->
  exists r,
    Detect ticks b = (Ok (Some r), b2)
    /\ py_getitem BAUDRATES (index b2) = Ok r /\ In r BAUDRATES.
Proof.
  intros Hb Ho Hstart Hloop.
  destruct (Detect_run_safe ticks b Hb Ho)
    as (ts' & b1' & x' & b2' & Hstart' & Hloop' & _ & Hx).
  rewrite Hstart in Hstart'. injection Hstart' as <- <-.
  rewrite Hloop in Hloop'. injection Hloop' as <- <-.
  destruct Hx as (r & H1 & H2 & H3). eauto.
Qed.

(** A cancellation seen by an iteration ends the loop in that iteration. *)
Lemma Detect_loop_exits_on_cancel tk ticks l ts b :
  is_open b = true ->
  ctlc (snd (HandleKeypress_run (keys tk) ts b)) = true ->
  exists x b', Detect_loop (tk :: ticks) l ts b = (Ok (Some x), b').
Proof.
  intros Ho Hc. cbn [Detect_loop]. unfold bind at 1.
  pose proof (is_open_HandleKeypress_run (keys tk) ts b) as Ho1.
  destruct (HandleKeypress_run (keys tk) ts b) as [ts' b1].
  simpl in Hc, Ho1. rewrite Ho in Ho1.
  destruct (Detect_iter_returns tk l b1 Ho1) as (c & b2 & Hiter).
  unfold bind. rewrite Hiter.
  apply Detect_iter_outcome in Hiter. cbv zeta in Hiter.
  assert (Kc : keeps ctlc (_print (rx tk) false)) by frame.
  assert (Hc' : ctlc (if truthy (rx tk)
                      then snd (_print (rx tk) false b1) else b1) = true).
  { destruct (truthy (rx tk)); [rewrite Kc |]; exact Hc. }
  rewrite Hc' in Hiter.
  destruct (if truthy (rx tk) then _ else _) as [e l1 | l1] in Hiter.
  - destruct Hiter as (-> & _). unfold ret. eauto.
  - subst c. unfold ret. eauto.
Qed.

(** The cancel key, read in interpreting mode, sets the flag. *)
Lemma HandleKeypress_cancel_key n a b :
  ctlc (snd (HandleKeypress_iter (mkKeyEvent (PyStr CONTROL_C) n a)
               (mkKeyLocals true 0) b)) = true.
Proof.
  unfold HandleKeypress_iter, HandleKeypress_interpret, bind, get, modify,
    ret. simpl. rewrite andb_false_r. simpl.
  destruct (passthrough_keys b); reflexivity.
Qed.

Lemma ladder_ok___init__ th tmo au ve nl pk tb b :
  __init__ th tmo au ve nl pk tb = Ok b -> ladder_ok b.
Proof.
  unfold __init__.
  destruct (py_index DEFAULT_BAUDRATE BAUDRATES) as [d |] eqn:Ed;
    [| discriminate].
  destruct (py_index tb BAUDRATES) as [i |] eqn:Ei; [| discriminate].
  intros [= <-]. apply py_index_in_ladder in Ed, Ei.
  unfold ladder_ok. simpl. auto.
Qed.

Lemma Open_safe b :
  ladder_ok b ->
  ladder_ok (snd (Open b)) /\ is_open (snd (Open b)) = true
  /\ fst (Open b) = Ok tt.
Proof.
  intros Hb. unfold Open, bind, modify.
  pose proof (ladder_ok_NextBaudrate 0 (with_serial (Some []) b) Hb) as H1.
  pose proof (NextBaudrate_returns 0 (with_serial (Some []) b) eq_refl) as H2.
  assert (K : keeps is_open (NextBaudrate 0)) by frame.
  specialize (K (with_serial (Some []) b)).
  destruct (NextBaudrate 0 (with_serial (Some []) b)) as [r b'].
  simpl in *. auto.
Qed.

Lemma run_op_returns o b :
  ladder_ok b -> is_open b = true -> valid_op o ->
  fst (run_op o b) = Ok tt /\ is_open (snd (run_op o b)) = true.
Proof.
  intros Hb Ho Hv. destruct o as [delta | arg |]; simpl.
  - split; [apply NextBaudrate_returns; exact Ho |].
    assert (K : keeps is_open (NextBaudrate delta)) by frame.
    rewrite K. exact Ho.
  - split.
    + apply set_baud_from_index_returns; [exact Ho |].
      unfold chosen_index. destruct arg as [i |]; [| apply Hb].
      destruct (i =? 0); [apply Hb | exact Hv].
    + assert (K : keeps is_open (set_baud_from_index arg)) by frame.
      rewrite K. exact Ho.
  - split; [apply toggle_baud_returns; assumption |].
    assert (K : keeps is_open toggle_baud) by frame.
    rewrite K. exact Ho.
Qed.

Lemma run_ops_returns ops :
  Forall valid_op ops ->
  forall b, ladder_ok b -> is_open b = true -> fst (run_ops ops b) = Ok tt.
Proof.
  induction 1 as [| o ops Hv _ IH]; intros b Hb Ho; simpl.
  - reflexivity.
  - unfold bind.
    destruct (run_op_returns o b Hb Ho Hv) as (Hr & Ho').
    pose proof (ladder_ok_run_op o b Hb Hv) as Hb'.
    destruct (run_op o b) as [[[] | e] b']; simpl in *; [| discriminate].
    apply IH; assumption.
Qed.

(** The two loops never move the ladder in the same session: the thread
    exists only without automatic detection (see C1), and without it an
    iteration of the detector leaves the index and the toggle pair alone.
    So the ladder sees one sequence of operations. *)
Remark Detect_iter_manual_keeps_ladder tk l b :
  auto_detect b = false ->
  index (snd (Detect_iter tk l b)) = index b
  /\ toggle_bauds (snd (Detect_iter tk l b)) = toggle_bauds b.
Proof.
  intros Hauto.
  assert (Hsettle : forall l' b',
             auto_detect b' = false ->
             snd (Detect_settle l' b') = b').
  { intros l' b' H. unfold Detect_settle, bind, get, ret.
    rewrite H, andb_false_r. destruct (ctlc b'); reflexivity. }
  assert (Ki : keeps index (_print (rx tk) false)) by frame.
  assert (Kt : keeps toggle_bauds (_print (rx tk) false)) by frame.
  assert (Ka : keeps auto_detect (_print (rx tk) false)) by frame.
  unfold Detect_iter, bind. rewrite Detect_receive_run.
  destruct (truthy (rx tk)).
  - destruct (verdict b tk (classify b (rx tk) (open_window tk l))).
    + simpl. auto.
    + rewrite Hsettle by (rewrite Ka; exact Hauto). auto.
  - rewrite Hsettle by exact Hauto. auto.
Qed.

(** C6: the ladder index is always a position of [BAUDRATES].  The
    constructor establishes it (for the index and for both toggle slots),
    [Open] keeps it, and so does every sequence of [NextBaudrate] (any
    step), [set_baud_from_index] (a position of the list, [0] or [None])
    and [toggle_baud]: on an opened port all the operations complete, and
    the state after the sequence, so after each of its prefixes, has its
    index in range, so that [BAUDRATES[index]] is an element of the list.
    [Detect], with the interpreter thread handling any keys, never raises
    on an opened port and keeps the invariant; when its loop ends it
    returns [BAUDRATES[index]] for the index of that moment, an element of
    the list. *)
Theorem ladder_index_stays_in_bounds :
  (forall th tmo au ve nl pk tb b,
     __init__ th tmo au ve nl pk tb = Ok b -> ladder_ok b)
  /\ (forall b,
        ladder_ok b ->
        ladder_ok (snd (Open b)) /\ is_open (snd (Open b)) = true
        /\ fst (Open b) = Ok tt)
  /\ (forall b ops,
        ladder_ok b -> Forall valid_op ops ->
        ladder_ok (snd (run_ops ops b))
        /\ (is_open b = true -> fst (run_ops ops b) = Ok tt)
        /\ exists r,
             py_getitem BAUDRATES (index (snd (run_ops ops b))) = Ok r
             /\ In r BAUDRATES)
  /\ (forall b ticks,
        ladder_ok b -> is_open b = true ->
        ladder_ok (snd (Detect ticks b))
        /\ (fst (Detect ticks b) = Ok None
            \/ exists r, fst (Detect ticks b) = Ok (Some r)
                         /\ In r BAUDRATES))
  /\ (forall b ticks ts b1 x b2,
        ladder_ok b -> is_open b = true ->
        Detect_start b = (Ok ts, b1) ->
        Detect_loop ticks Detect_locals ts b1 = (Ok (Some x), b2) ->
        exists r,
          Detect ticks b = (Ok (Some r), b2)
          /\ py_getitem BAUDRATES (index b2) = Ok r /\ In r BAUDRATES).
Proof.
  split; [| split; [| split; [| split]]].
  - apply ladder_ok___init__.
  - apply Open_safe.
  - intros b ops Hb Hv.
    pose proof (ladder_ok_run_ops ops Hv b Hb) as H.
    split; [exact H |]. split.
    + intros Ho. apply run_ops_returns; assumption.
    + apply py_getitem_in_ladder. apply H.
  - intros b ticks. apply Detect_safe.
  - intros b ticks ts b1 x b2. apply Detect_returns_current_rate.
Qed.

Lemma ladder_index_stays_in_bounds_witness :
  ladder_ok
    (snd (run_ops [Step 5; Toggle; SetIndex (Some 0); Step (-30)] manual))
  /\ index
       (snd (run_ops [Step 5; Toggle; SetIndex (Some 0); Step (-30)] manual))
     = 0
  /\ fst (Detect [mkTick 1 (PyBytes [x61]) 2
                    [mkKeyEvent (PyStr (lit "u")) 0 0;
                     mkKeyEvent (PyStr CONTROL_C) 0 0]] manual)
     = Ok (Some (lit "230400"))
  /\ In (lit "230400") BAUDRATES.
Proof.
  destruct ladder_index_stays_in_bounds as (_ & _ & Hops & Hdetect & _).
  assert (Hok : ladder_ok manual)
    by (vm_compute; repeat split; (reflexivity || discriminate)).
  assert (Hv : Forall valid_op
                 [Step 5; Toggle; SetIndex (Some 0); Step (-30)]).
  { repeat (apply Forall_cons || apply Forall_nil); simpl; try exact I.
    unfold in_ladder. rewrite py_len_BAUDRATES. lia. }
  destruct (Hops manual _ Hok Hv) as (Hfinal & _ & _).
  split; [exact Hfinal |]. split; [reflexivity |].
  destruct (Hdetect manual
              [mkTick 1 (PyBytes [x61]) 2
                 [mkKeyEvent (PyStr (lit "u")) 0 0;
                  mkKeyEvent (PyStr CONTROL_C) 0 0]] Hok eq_refl)
    as (_ & [Hnone | (r & Hr & Hin)]).
  - vm_compute in Hnone. discriminate.
  - assert (E : r = lit "230400").
    { vm_compute in Hr. injection Hr as <-. reflexivity. }
    subst r. split; [vm_compute; reflexivity | exact Hin].
Defined.


(** ** The success exit *)

Lemma classify_ext b b' v l :
  auto_detect b' = auto_detect b ->
  valid_characters b' = valid_characters b ->
  classify b' v l = classify b v l.
Proof. unfold classify. intros -> ->. reflexivity. Qed.

Lemma Detect_iter_success tk l b :
  truthy (rx tk) = true ->
  confirmed b (classify b (rx tk) l) = true ->
  exists l',
    Detect_iter tk l b
    = (Ok (Break ExitConfirmed l'), snd (_print (rx tk) false b)).
Proof.
  intros Ht Hc. rewrite <- (confirmed_open_window b _ tk) in Hc.
  unfold Detect_iter, bind. rewrite Detect_receive_run, Ht.
  unfold verdict. rewrite Hc. eexists. reflexivity.
Qed.

(** C2: in automatic mode the detector leaves its loop with success after
    a byte exactly when, with that byte counted, the total has reached
    the threshold and the whitespace, punctuation and vowel counts are
    all positive.  For one iteration this is an equivalence.  For the
    loop: when the condition holds at a byte the loop ends there with
    success, whatever input follows; when it does not, a success exit of
    the loop is a success exit of the loop run on the following input
    from the state that iteration leaves.  When the loop ends with
    success [Detect] returns [BAUDRATES[index]].  Hence a stream that
    repeats one printable character that is no vowel, no punctuation mark
    and no whitespace never reaches the success exit, whatever its length
    (and whatever the clock, the read timeouts in between and the state
    of the object). *)
Theorem Detect_confirms_on_all_four_counts :
  (forall b l tk,
     auto_detect b = true ->
     ((exists l', fst (Detect_iter tk l b) = Ok (Break ExitConfirmed l'))
      <-> truthy (rx tk) = true
          /\ threshold b <= count (classify b (rx tk) l)
          /\ 0 < whitespace (classify b (rx tk) l)
          /\ 0 < punctuation (classify b (rx tk) l)
          /\ 0 < vowels (classify b (rx tk) l)))
  /\ (forall b l ts tk ticks,
        auto_detect b = true ->
        truthy (rx tk) = true ->
        threshold b <= count (classify b (rx tk) l) ->
        0 < whitespace (classify b (rx tk) l) ->
        0 < punctuation (classify b (rx tk) l) ->
        0 < vowels (classify b (rx tk) l) ->
        exists l',
          Detect_loop (tk :: ticks) l ts b
          = (Ok (Some (ExitConfirmed, l')),
             snd (_print (rx tk) false
                    (snd (HandleKeypress_run (keys tk) ts b)))))
  /\ (forall b l ts tk ticks lx b',
        auto_detect b = true ->
        ~ (truthy (rx tk) = true
           /\ threshold b <= count (classify b (rx tk) l)
           /\ 0 < whitespace (classify b (rx tk) l)
           /\ 0 < punctuation (classify b (rx tk) l)
           /\ 0 < vowels (classify b (rx tk) l)) ->
        Detect_loop (tk :: ticks) l ts b
        = (Ok (Some (ExitConfirmed, lx)), b') ->
        exists l1 b1,
          Detect_iter tk l (snd (HandleKeypress_run (keys tk) ts b))
          = (Ok (Next l1), b1)
          /\ Detect_loop ticks l1 (fst (HandleKeypress_run (keys tk) ts b)) b1
             = (Ok (Some (ExitConfirmed, lx)), b'))
  /\ (forall b ticks ts b1 l' b2,
        auto_detect b = true -> ladder_ok b -> is_open b = true ->
        Detect_start b = (Ok ts, b1) ->
        Detect_loop ticks Detect_locals ts b1
        = (Ok (Some (ExitConfirmed, l')), b2) ->
        exists r,
          Detect ticks b = (Ok (Some r), b2)
          /\ py_getitem BAUDRATES (index b2) = Ok r /\ In r BAUDRATES)
  /\ (forall c b ts ticks lx,
        in_range 32 126 c = true ->
        py_in (PyStr [c]) VOWELS = false ->
        py_in (PyStr [c]) PUNCTUATION = false ->
        py_in (PyStr [c]) WHITESPACE = false ->
        Forall (fun tk => is_char c (rx tk) \/ truthy (rx tk) = false) ticks ->
        fst (Detect_loop ticks Detect_locals ts b)
        <> Ok (Some (ExitConfirmed, lx))).
Proof.
  assert (Hrun : forall b evs ts,
             threshold (snd (HandleKeypress_run evs ts b)) = threshold b
             /\ auto_detect (snd (HandleKeypress_run evs ts b))
                = auto_detect b
             /\ valid_characters (snd (HandleKeypress_run evs ts b))
                = valid_characters b).
  { intros b evs ts.
    repeat split; apply keeps_HandleKeypress_run; auto with keeps. }
  split; [| split; [| split; [| split]]].
  - intros b l tk _. rewrite Detect_iter_confirms, confirmed_iff. tauto.
  - intros b l ts tk ticks _ Ht Hc Hw Hp Hv.
    destruct (Hrun b (keys tk) ts) as (Kt & Ka & Kv).
    cbn [Detect_loop]. unfold bind.
    destruct (HandleKeypress_run (keys tk) ts b) as [ts' b1].
    cbn [fst snd] in *.
    destruct (Detect_iter_success tk l b1 Ht) as (l' & E).
    { rewrite (classify_ext b b1) by assumption.
      rewrite (confirmed_ext b b1) by assumption.
      apply confirmed_iff. auto. }
    rewrite E. exists l'. reflexivity.
  - intros b l ts tk ticks lx b' _ Hnot.
    destruct (Hrun b (keys tk) ts) as (Kt & Ka & Kv).
    cbn [Detect_loop]. unfold bind.
    destruct (HandleKeypress_run (keys tk) ts b) as [ts' b1].
    cbn [fst snd] in *.
    destruct (Detect_iter tk l b1) as [[[e l1 | l1] | ex] b2] eqn:E.
    + unfold ret. intros [= -> -> ->]. exfalso. apply Hnot.
      assert (Hex : exists l', fst (Detect_iter tk l b1)
                               = Ok (Break ExitConfirmed l'))
        by (exists lx; rewrite E; reflexivity).
      apply Detect_iter_confirms in Hex. destruct Hex as (Ht & Hc).
      rewrite (classify_ext b b1) in Hc by assumption.
      rewrite (confirmed_ext b b1) in Hc by assumption.
      apply confirmed_iff in Hc. tauto.
    + intros H. exists l1, b2. split; [reflexivity | exact H].
    + discriminate.
  - intros b ticks ts b1 l' b2 _ Hl Ho Hs Hloop.
    destruct (Detect_returns_current_rate ticks b ts b1 (ExitConfirmed, l')
                b2 Hl Ho Hs Hloop) as (r & H1 & H2 & H3).
    exists r. auto.
  - intros c b ts ticks lx _ _ _ Hws Hstream.
    apply Detect_loop_without_whitespace; [| reflexivity].
    eapply Forall_impl; [| exact Hstream].
    intros tk [Hc | Hempty].
    + eapply is_char_not_in; eassumption.
    + destruct (rx tk) as [[| x y] | [| x y]]; try discriminate;
        [apply py_in_bytes | reflexivity].
Qed.

Lemma Detect_confirms_on_all_four_counts_witness :
  (exists l',
      fst (Detect_iter (mkTick 1 (PyStr (lit "a")) 2 [])
             (mkDetectLocals 24 3 1 0 1 false false)
             automatic)
      = Ok (Break ExitConfirmed l'))
  /\ (exists l',
        fst (Detect_loop
               (mkTick 1 (PyStr (lit "a")) 2 []
                :: repeat (mkTick 1 (PyStr (lit "x")) 2 []) 3)
               (mkDetectLocals 24 3 1 0 1 false false) NoThread automatic)
        = Ok (Some (ExitConfirmed, l')))
  /\ fst (Detect
            (map (fun c => mkTick 1 (PyStr [c]) 2 [])
               (lit "The quick brown fox, jumps over."))
            automatic)
     = Ok (Some (lit "115200"))
  /\ fst (Detect_loop
            (repeat (mkTick 1 (PyStr (lit "x")) 2 []) 40)
            Detect_locals NoThread automatic)
     <> Ok (Some (ExitConfirmed, Detect_locals)).
Proof.
  destruct Detect_confirms_on_all_four_counts
    as (Hiff & Hexit & _ & Hret & Hnever).
  split; [| split; [| split]].
  - apply (Hiff automatic
             (mkDetectLocals 24 3 1 0 1 false false)
             (mkTick 1 (PyStr (lit "a")) 2 []) eq_refl).
    vm_compute. repeat split; discriminate.
  - destruct (Hexit automatic (mkDetectLocals 24 3 1 0 1 false false)
                NoThread (mkTick 1 (PyStr (lit "a")) 2 [])
                (repeat (mkTick 1 (PyStr (lit "x")) 2 []) 3))
      as (l' & H);
      try (vm_compute; first [reflexivity | discriminate]).
    exists l'. rewrite H. reflexivity.
  - assert (Hl : ladder_ok automatic)
      by (vm_compute; repeat split; (reflexivity || discriminate)).
    assert (Hs : Detect_start automatic = (Ok NoThread, automatic))
      by (vm_compute; reflexivity).
    assert (Hloop :
        Detect_loop
          (map (fun c => mkTick 1 (PyStr [c]) 2 [])
             (lit "The quick brown fox, jumps over."))
          Detect_locals NoThread automatic
        = (Ok (Some (ExitConfirmed, mkDetectLocals 25 4 1 6 1 false false)),
           snd (Detect_loop
                  (map (fun c => mkTick 1 (PyStr [c]) 2 [])
                     (lit "The quick brown fox, jumps over."))
                  Detect_locals NoThread automatic)))
      by (vm_compute; reflexivity).
    destruct (Hret automatic _ NoThread automatic _ _ eq_refl Hl eq_refl
                Hs Hloop) as (r & HD & Hr & _).
    rewrite HD. cbn [fst]. vm_compute in Hr. injection Hr as <-.
    reflexivity.
  - apply (Hnever 120%N); try reflexivity.
    apply Forall_forall. intros tk Htk. apply repeat_spec in Htk.
    subst tk. left. left. reflexivity.
Defined.

(** * Further properties *)

(** ** Construction *)

Lemma py_in_str v l :
  py_in v l = true <-> exists s, v = PyStr s /\ In s l.
Proof.
  unfold py_in. rewrite existsb_exists. split.
  - intros (s & Hin & Heq). destruct v as [x | t]; [discriminate |].
    apply str_eqb_eq in Heq. subst t. eauto.
  - intros (s & -> & Hin). exists s. split; [exact Hin |].
    apply str_eqb_eq. reflexivity.
Qed.

Lemma In_gen_printable fuel :
  forall c0 s,
    In s (gen_printable fuel c0)
    <-> exists c, s = [c] /\ (c0 <= c)%N /\ (c <= 126)%N
                  /\ (c < c0 + N.of_nat fuel)%N.
Proof.
  induction fuel as [| fuel IH]; intros c0 s.
  - simpl. split; [contradiction | intros (c & _ & H1 & _ & H2); lia].
  - cbn [gen_printable]. destruct (c0 <=? 126)%N eqn:E.
    + apply N.leb_le in E. cbn [In]. rewrite IH. split.
      * intros [<- | (c & -> & H)]; [exists c0 | exists c];
          (split; [reflexivity | lia]).
      * intros (c & -> & H1 & H2 & H3).
        destruct (N.eq_dec c0 c) as [-> | Hne]; [left; reflexivity |].
        right. exists c. split; [reflexivity | lia].
    + apply N.leb_gt in E. simpl.
      split; [contradiction | intros (c & _ & H1 & H2 & _); lia].
Qed.

Lemma In_add_missing ws :
  forall acc s, In s (add_missing ws acc) <-> In s acc \/ In s ws.
Proof.
  induction ws as [| w ws IH]; intros acc s; simpl.
  - tauto.
  - destruct (py_in (PyStr w) acc) eqn:E; simpl; rewrite IH.
    + apply py_in_str in E. destruct E as (t & [= <-] & Hin).
      split; [tauto |]. intros [H | [<- | H]]; auto.
    + rewrite in_app_iff. simpl. tauto.
Qed.

Lemma valid_characters_constructed th tmo au ve nl pk tb b :
  __init__ th tmo au ve nl pk tb = Ok b ->
  valid_characters b = add_missing WHITESPACE (gen_printable 128 SP).
Proof.
  unfold __init__.
  destruct (py_index DEFAULT_BAUDRATE BAUDRATES) as [z |]; [| discriminate].
  destruct (py_index tb BAUDRATES) as [z0 |]; [| discriminate].
  intros H.
  assert (E : Ok (valid_characters b)
              = Ok (add_missing WHITESPACE (gen_printable 128 SP)));
    [| congruence].
  change (add_missing WHITESPACE (gen_printable 128 SP))
    with (valid_characters
            (snd (_gen_char_list (new_self th tmo au ve nl pk z z0)))).
  congruence.
Qed.

(** X1: the characters that count as valid.  After construction a value
    is found in [valid_characters] exactly when it is a [str] of one
    character that is printable ASCII (space to tilde), a tab, a carriage
    return or a line feed. *)
Theorem valid_characters_are_printable_or_blank :
  forall th tmo au ve nl pk tb b,
    __init__ th tmo au ve nl pk tb = Ok b ->
    forall v,
      py_in v (valid_characters b) = true
      <-> exists c, v = PyStr [c] /\ printable_or_blank c = true.
Proof.
  intros th tmo au ve nl pk tb b Hinit v.
  rewrite (valid_characters_constructed _ _ _ _ _ _ _ _ Hinit).
  rewrite py_in_str. unfold printable_or_blank, in_range.
  split.
  - intros (s & -> & Hin). apply In_add_missing in Hin.
    destruct Hin as [Hin | Hin].
    + apply In_gen_printable in Hin. destruct Hin as (c & -> & H1 & H2 & _).
      exists c. split; [reflexivity |].
      apply N.leb_le in H1, H2. unfold SP in H1. rewrite H1, H2. reflexivity.
    + simpl in Hin.
      destruct Hin as [<- | [<- | [<- | [<- | []]]]];
        eexists; (split; [reflexivity | reflexivity]).
  - intros (c & -> & Hc). exists [c]. split; [reflexivity |].
    apply In_add_missing.
    rewrite !orb_true_iff, andb_true_iff, !N.eqb_eq, !N.leb_le in Hc.
    destruct Hc as [[[[H1 H2] | ->] | ->] | ->].
    + left. apply In_gen_printable. exists c.
      split; [reflexivity |]. unfold SP. lia.
    + right. simpl. auto.
    + right. simpl. auto.
    + right. simpl. auto.
Qed.

Lemma valid_characters_are_printable_or_blank_witness :
  py_in (PyStr (lit "~")) (valid_characters manual) = true
  /\ py_in (PyStr [127%N]) (valid_characters manual) = false.
Proof.
  destruct (session_is_constructed false true false false)
    as (b & Hinit & Hs & _).
  pose proof (valid_characters_are_printable_or_blank _ _ _ _ _ _ _ _ Hinit)
    as H.
  assert (E : valid_characters manual = valid_characters b).
  { unfold manual. rewrite Hs.
    assert (K : keeps valid_characters Open)
      by (unfold Open; keeps_concrete).
    apply K. }
  rewrite E. split.
  - apply H. exists 126%N. split; reflexivity.
  - destruct (py_in (PyStr [127%N]) (valid_characters b)) eqn:E1;
      [| reflexivity].
    apply H in E1. destruct E1 as (c & [= <-] & Hc). discriminate.
Defined.

Lemma py_getitem_nth {A} (l : list A) i x :
  0 <= i -> nth_error l (Z.to_nat i) = Some x -> py_getitem l i = Ok x.
Proof.
  intros Hi Hn. unfold py_getitem.
  assert (Hlt : i < py_len l).
  { unfold py_len.
    assert (Hs : nth_error l (Z.to_nat i) <> None) by congruence.
    apply nth_error_Some in Hs. lia. }
  destruct (i <? 0) eqn:E; [apply Z.ltb_lt in E; lia |].
  rewrite E. simpl. destruct (py_len l <=? i) eqn:E2;
    [apply Z.leb_le in E2; lia |].
  rewrite Hn. reflexivity.
Qed.

Lemma py_index_from_found x l :
  forall k, In x l ->
    exists r, py_index_from x l k = Ok r /\ k <= r
              /\ nth_error l (Z.to_nat (r - k)) = Some x.
Proof.
  induction l as [| y l IH]; intros k Hin; [contradiction |].
  simpl. destruct (str_eqb y x) eqn:E.
  - apply str_eqb_eq in E. subst y. exists k.
    rewrite Z.sub_diag. simpl. auto with zarith.
  - destruct Hin as [-> | Hin].
    + assert (str_eqb x x = true) by (apply str_eqb_eq; reflexivity).
      congruence.
    + destruct (IH (k + 1) Hin) as (r & Hr & Hk & Hn).
      exists r. split; [exact Hr |]. split; [lia |].
      replace (Z.to_nat (r - k)) with (S (Z.to_nat (r - (k + 1)))) by lia.
      exact Hn.
Qed.

Lemma py_index_from_missing x l :
  forall k, ~ In x l -> py_index_from x l k = Raise ValueError.
Proof.
  induction l as [| y l IH]; intros k Hnin; [reflexivity |].
  simpl. destruct (str_eqb y x) eqn:E.
  - apply str_eqb_eq in E. subst y. exfalso. apply Hnin. left. reflexivity.
  - apply IH. intros H. apply Hnin. right. exact H.
Qed.

(** X2: the constructor looks the toggle rate up in the list.  A rate
    that is not a candidate makes it raise [ValueError]; a candidate gives
    an object whose two toggle slots both hold its position, whose index
    is the position of ["115200"], with no port, no thread, nothing
    pending and the cancel flag down, and with the arguments stored. *)
Theorem init_checks_the_toggle_rate :
  forall th tmo au ve nl pk tb,
    (~ In tb BAUDRATES ->
     __init__ th tmo au ve nl pk tb = Raise ValueError)
    /\ (In tb BAUDRATES ->
        exists b i,
          __init__ th tmo au ve nl pk tb = Ok b
          /\ toggle_bauds b = (i, i)
          /\ py_getitem BAUDRATES i = Ok tb
          /\ py_getitem BAUDRATES (index b) = Ok DEFAULT_BAUDRATE
          /\ serial b = None /\ thread b = None /\ ctlc b = false
          /\ buffer b = [] /\ stderr_needs_capping b = false
          /\ threshold b = th /\ timeout b = tmo /\ auto_detect b = au
          /\ verbose b = ve /\ allow_newline b = nl
          /\ passthrough_keys b = pk).
Proof.
  intros th tmo au ve nl pk tb. unfold __init__.
  change (py_index DEFAULT_BAUDRATE BAUDRATES) with (@Ok Z 4).
  split.
  - intros Hnin. unfold py_index. rewrite py_index_from_missing by exact Hnin.
    reflexivity.
  - intros Hin. destruct (py_index_from_found tb BAUDRATES 0 Hin)
      as (i & Hi & H0 & Hn).
    unfold py_index. rewrite Hi. rewrite Z.sub_0_r in Hn.
    eexists. exists i. split; [reflexivity |].
    split; [reflexivity |].
    split; [apply py_getitem_nth; assumption |].
    repeat (split; [reflexivity |]). reflexivity.
Qed.

Lemma init_checks_the_toggle_rate_witness :
  __init__ 25 5 false true false false (lit "9601") = Raise ValueError
  /\ exists b,
       __init__ 25 5 false true false false (lit "9600") = Ok b
       /\ toggle_bauds b = (10, 10).
Proof.
  destruct (init_checks_the_toggle_rate 25 5 false true false false
              (lit "9601")) as (Hbad & _).
  destruct (init_checks_the_toggle_rate 25 5 false true false false
              (lit "9600")) as (_ & Hgood).
  split.
  - apply Hbad. vm_compute. intuition discriminate.
  - destruct Hgood as (b & i & Hb & Ht & Hi & _).
    + vm_compute. do 10 right. left. reflexivity.
    + exists b. split; [exact Hb |].
      vm_compute in Hb. injection Hb as <-. reflexivity.
Defined.

(** ** The ladder and the port *)

Lemma last_rate_app l1 l2 acc :
  last_rate (l1 ++ l2) acc = last_rate l2 (last_rate l1 acc).
Proof.
  revert acc. induction l1 as [| c l1 IH]; intros acc; [reflexivity |].
  destruct c; simpl; apply IH.
Qed.

Lemma sent_app l1 l2 : sent (l1 ++ l2) = sent l1 ++ sent l2.
Proof.
  induction l1 as [| c l1 IH]; [reflexivity |].
  destruct c; simpl; rewrite ?IH, ?app_assoc; reflexivity.
Qed.

(** The whole effect of a call of [set_baud_from_index] that succeeds. *)
Lemma set_baud_from_index_run arg b log r :
  serial b = Some log ->
  py_getitem BAUDRATES (chosen_index arg b) = Ok r ->
  set_baud_from_index arg b
  = (Ok tt,
     with_serial
       (Some (((log ++ [SerFlush]) ++ [SerSetBaudrate r]) ++ [SerFlush]))
       (with_stderr
          (if stderr_needs_capping b then stderr b ++ status_line r
           else (stderr b ++ [LF; LF]) ++ status_line r)
          (with_stderr_needs_capping true
             (with_index (chosen_index arg b) b)))).
Proof.
  intros Hlog Hr.
  unfold set_baud_from_index, chosen_index in *.
  set (G := py_getitem BAUDRATES) in *. clearbody G.
  set (S := status_line) in *. clearbody S.
  destruct b as [th tmo au ve ix vc cc thr buf mx ns cap an pk tg se er].
  cbn in Hlog, Hr. subst se.
  destruct arg as [i |]; [destruct (i =? 0) |];
    destruct cap; vm_compute; rewrite Hr; vm_compute; rewrite ?Hr;
    reflexivity.
Qed.

Lemma set_baud_from_index_effect arg b log r :
  serial b = Some log ->
  py_getitem BAUDRATES (chosen_index arg b) = Ok r ->
  fst (set_baud_from_index arg b) = Ok tt
  /\ index (snd (set_baud_from_index arg b)) = chosen_index arg b
  /\ serial (snd (set_baud_from_index arg b))
     = Some (log ++ [SerFlush; SerSetBaudrate r; SerFlush])
  /\ port_rate (snd (set_baud_from_index arg b)) = Some r.
Proof.
  intros Hlog Hr.
  rewrite (set_baud_from_index_run arg b log r Hlog Hr).
  cbn [fst snd]. split; [reflexivity |]. split; [reflexivity |].
  split.
  - cbn [serial with_serial]. rewrite <- !app_assoc. reflexivity.
  - unfold port_rate. cbn [serial with_serial].
    rewrite !last_rate_app. reflexivity.
Qed.

(** X3: a successful [set_baud_from_index] brings the port in step with
    the ladder.  On an open port, when the selected position holds the
    rate [r], the call returns normally; the port receives exactly flush,
    [baudrate = r], flush; standard error receives the status line for
    [r], after two newlines unless a status line was already showing; the
    capping flag is up; the toggle pair, the pending echo and the cancel
    flag are untouched. *)
Theorem set_baud_from_index_applies_the_rate :
  forall arg b log r,
    serial b = Some log ->
    py_getitem BAUDRATES (chosen_index arg b) = Ok r ->
    fst (set_baud_from_index arg b) = Ok tt
    /\ index (snd (set_baud_from_index arg b)) = chosen_index arg b
    /\ serial (snd (set_baud_from_index arg b))
       = Some (log ++ [SerFlush; SerSetBaudrate r; SerFlush])
    /\ port_rate (snd (set_baud_from_index arg b)) = Some r
    /\ stderr (snd (set_baud_from_index arg b))
       = stderr b ++ (if stderr_needs_capping b then [] else [LF; LF])
                  ++ status_line r
    /\ stderr_needs_capping (snd (set_baud_from_index arg b)) = true
    /\ toggle_bauds (snd (set_baud_from_index arg b)) = toggle_bauds b
    /\ buffer (snd (set_baud_from_index arg b)) = buffer b
    /\ ctlc (snd (set_baud_from_index arg b)) = ctlc b.
Proof.
  intros arg b log r Hlog Hr.
  destruct (set_baud_from_index_effect arg b log r Hlog Hr)
    as (H1 & H2 & H3 & H4).
  split; [exact H1 |]. split; [exact H2 |]. split; [exact H3 |].
  split; [exact H4 |].
  rewrite (set_baud_from_index_run arg b log r Hlog Hr).
  cbn [snd stderr stderr_needs_capping toggle_bauds buffer ctlc with_serial
       with_stderr with_stderr_needs_capping with_index].
  split; [| repeat (split; [reflexivity |]); reflexivity].
  destruct (stderr_needs_capping b);
    [reflexivity | rewrite <- app_assoc; reflexivity].
Qed.

Lemma set_baud_from_index_applies_the_rate_witness :
  port_rate (snd (set_baud_from_index (Some 10) manual)) = Some (lit "9600")
  /\ stderr (snd (set_baud_from_index (Some 10) manual))
     = stderr manual ++ status_line (lit "9600").
Proof.
  assert (Hlog : serial manual
                 = Some [SerFlush; SerSetBaudrate (lit "115200"); SerFlush])
    by reflexivity.
  assert (Hr : py_getitem BAUDRATES (chosen_index (Some 10) manual)
               = Ok (lit "9600")) by reflexivity.
  destruct (set_baud_from_index_applies_the_rate (Some 10) manual _ _ Hlog Hr)
    as (_ & _ & _ & Hp & He & _).
  split; [exact Hp | exact He].
Defined.

(** X4: an argument that is no index of the list.  The index is assigned
    before the list is consulted: the call raises [IndexError] with the
    index left at the bad value, after the capping newlines were written,
    and the port is not touched. *)
Theorem set_baud_from_index_out_of_range :
  forall i b,
    i <> 0 ->
    (i < - py_len BAUDRATES \/ py_len BAUDRATES <= i) ->
    fst (set_baud_from_index (Some i) b) = Raise IndexError
    /\ index (snd (set_baud_from_index (Some i) b)) = i
    /\ serial (snd (set_baud_from_index (Some i) b)) = serial b
    /\ stderr (snd (set_baud_from_index (Some i) b))
       = stderr b ++ (if stderr_needs_capping b then [] else [LF; LF]).
Proof.
  intros i b Hnz Hout.
  assert (Hget : py_getitem BAUDRATES i = Raise IndexError).
  { unfold py_getitem. rewrite py_len_BAUDRATES in *.
    destruct (i <? 0) eqn:E.
    - apply Z.ltb_lt in E.
      replace (i + 23 <? 0) with true by (symmetry; apply Z.ltb_lt; lia).
      reflexivity.
    - apply Z.ltb_ge in E.
      replace (23 <=? i) with true by (symmetry; apply Z.leb_le; lia).
      rewrite orb_true_r. reflexivity. }
  unfold set_baud_from_index, bind, get, modify, lift, ret, stderr_write,
    serial_do.
  destruct (i =? 0) eqn:E0; [apply Z.eqb_eq in E0; contradiction |].
  set (L := BAUDRATES) in *. clearbody L.
  destruct b as [th tmo au ve ix vc cc thr buf mx ns cap an pk tg se er].
  destruct cap; cbn; rewrite Hget; cbn; rewrite ?app_nil_r; auto.
Qed.

Lemma set_baud_from_index_out_of_range_witness :
  fst (set_baud_from_index (Some 23) manual) = Raise IndexError
  /\ index (snd (set_baud_from_index (Some 23) manual)) = 23.
Proof.
  assert (Hnz : 23 <> 0) by discriminate.
  assert (Hout : 23 < - py_len BAUDRATES \/ py_len BAUDRATES <= 23)
    by (right; rewrite py_len_BAUDRATES; apply Z.le_refl).
  destruct (set_baud_from_index_out_of_range 23 manual Hnz Hout)
    as (H1 & H2 & _).
  split; [exact H1 | exact H2].
Defined.

Lemma keeps_port_rate_write data : keeps port_rate (serial_do (SerWrite data)).
Proof.
  intro b. unfold serial_do, port_rate.
  destruct (serial b) as [log |] eqn:E; cbn; rewrite ?E; [| reflexivity].
  rewrite last_rate_app. reflexivity.
Qed.
#[global] Hint Resolve keeps_port_rate_write : keeps.

Lemma NextBaudrate_unfold updn b :
  NextBaudrate updn b
  = set_baud_from_index None
      (with_index (wrapped_index (index b - updn)) b).
Proof.
  unfold NextBaudrate, wrapped_index, bind, get, modify, ret.
  cbn [index with_index].
  destruct (py_len BAUDRATES <=? index b - updn);
    [| destruct (index b - updn <? 0)]; reflexivity.
Qed.

Lemma session_ok_set_baud_from_index arg b :
  ladder_ok b -> is_open b = true -> valid_op (SetIndex arg) ->
  fst (set_baud_from_index arg b) = Ok tt
  /\ session_ok (snd (set_baud_from_index arg b)).
Proof.
  intros Hb Ho Hv.
  assert (Hc : in_ladder (chosen_index arg b)).
  { unfold chosen_index. destruct arg as [i |]; [| apply Hb].
    destruct (i =? 0); [apply Hb | exact Hv]. }
  destruct (py_getitem_in_ladder _ Hc) as (r & Hr & _).
  unfold is_open in Ho. destruct (serial b) as [log |] eqn:Hlog;
    [| discriminate].
  pose proof (ladder_ok_set_baud_from_index arg b Hb Hv) as Hl.
  destruct (set_baud_from_index_effect arg b log r Hlog Hr)
    as (H1 & H2 & H3 & H4).
  split; [exact H1 |]. split; [exact Hl |]. split.
  - unfold is_open. rewrite H3. reflexivity.
  - exists r. rewrite H2. auto.
Qed.

Lemma session_ok_NextBaudrate updn b :
  ladder_ok b -> is_open b = true ->
  fst (NextBaudrate updn b) = Ok tt /\ session_ok (snd (NextBaudrate updn b)).
Proof.
  intros Hb Ho. rewrite NextBaudrate_unfold.
  apply session_ok_set_baud_from_index; [| exact Ho | exact I].
  destruct Hb as (_ & Ha & Hc). split; [| split; assumption].
  apply wrapped_index_in_ladder.
Qed.

Lemma session_ok_toggle_baud b :
  session_ok b ->
  fst (toggle_baud b) = Ok tt /\ session_ok (snd (toggle_baud b)).
Proof.
  intros (Hb & Ho & Hs).
  split; [apply toggle_baud_returns; assumption |].
  split; [apply ladder_ok_toggle_baud; exact Hb |].
  unfold toggle_baud, bind, get, modify, ret. cbn beta.
  destruct (index b =? snd (toggle_bauds b)); cbn [negb]; cbn beta iota.
  - cbn. auto.
  - destruct (session_ok_set_baud_from_index
                (Some (snd (toggle_bauds b))) b Hb Ho (proj2 (proj2 Hb)))
      as (Hr & _ & Ho' & Hs').
    destruct (set_baud_from_index (Some (snd (toggle_bauds b))) b)
      as [[[] | e] b']; cbn in *; [| discriminate]. auto.
Qed.

Lemma session_ok_keeps {A} (m : M A) :
  keeps index m -> keeps toggle_bauds m -> keeps is_open m ->
  keeps port_rate m -> preserves session_ok m.
Proof.
  intros Ki Kt Ko Kp b (Hb & Hopen & r & Hr & Hp).
  split; [apply (ladder_ok_keeps m Ki Kt b Hb) |].
  split; [rewrite Ko; exact Hopen |].
  exists r. rewrite Ki, Kp. auto.
Qed.

Lemma preserves_session_NextBaudrate updn :
  preserves session_ok (NextBaudrate updn).
Proof. intros b (Hb & Ho & _). apply session_ok_NextBaudrate; assumption. Qed.

Lemma preserves_session_toggle_baud : preserves session_ok toggle_baud.
Proof. intros b Hb. apply session_ok_toggle_baud. exact Hb. Qed.

Ltac session_tac :=
  repeat match goal with
         | |- preserves _ (bind _ _) => apply preserves_bind; [| intros]
         | |- preserves _ (if ?c then _ else _) => destruct c
         | |- preserves _ (match ?c with _ => _ end) => destruct c
         | |- preserves _ (NextBaudrate _) =>
             apply preserves_session_NextBaudrate
         | |- preserves _ toggle_baud => apply preserves_session_toggle_baud
         | |- preserves session_ok _ =>
             solve [apply session_ok_keeps; keeps_concrete]
         | |- preserves _ _ => progress cbv zeta
         end.

Lemma preserves_session_HandleKeypress_iter ev l :
  preserves session_ok (HandleKeypress_iter ev l).
Proof.
  unfold HandleKeypress_iter, HandleKeypress_interpret. session_tac.
Qed.

Lemma session_ok_HandleKeypress_run evs :
  forall ts b, session_ok b -> session_ok (snd (HandleKeypress_run evs ts b)).
Proof.
  induction evs as [| ev evs IH]; intros ts b Hb; simpl.
  - destruct ts; exact Hb.
  - destruct ts as [| l |]; try exact Hb.
    pose proof (preserves_session_HandleKeypress_iter ev l b Hb) as H.
    destruct (HandleKeypress_iter ev l b) as [[l' | e] b']; simpl in *;
      [apply IH |]; exact H.
Qed.

Lemma preserves_session_Detect_iter tk l :
  preserves session_ok (Detect_iter tk l).
Proof. unfold Detect_iter, Detect_settle. session_tac. Qed.

Lemma session_ok_Detect_loop ticks :
  forall l ts b,
    session_ok b -> session_ok (snd (Detect_loop ticks l ts b)).
Proof.
  induction ticks as [| tk ticks IH]; intros l ts b Hb; [exact Hb |].
  cbn [Detect_loop]. unfold bind at 1.
  pose proof (session_ok_HandleKeypress_run (keys tk) ts b Hb) as Hb1.
  destruct (HandleKeypress_run (keys tk) ts b) as [ts' b1]. simpl in Hb1.
  pose proof (preserves_session_Detect_iter tk l b1 Hb1) as Hb2.
  unfold bind. destruct (Detect_iter tk l b1) as [[[e l' | l'] | e] b2];
    simpl in *; auto.
Qed.

Lemma session_ok_run_ops ops :
  Forall valid_op ops ->
  forall b, session_ok b -> session_ok (snd (run_ops ops b)).
Proof.
  induction 1 as [| o ops Hv _ IH]; intros b Hb; simpl; [exact Hb |].
  unfold bind.
  assert (H1 : session_ok (snd (run_op o b))).
  { destruct Hb as (Hl & Ho & Hs). destruct o as [d | arg |]; simpl.
    - apply session_ok_NextBaudrate; assumption.
    - apply session_ok_set_baud_from_index; assumption.
    - apply session_ok_toggle_baud. exact (conj Hl (conj Ho Hs)). }
  destruct (run_op o b) as [[[] | e] b']; simpl in *; auto.
Qed.

Lemma session_ok_Open b : ladder_ok b -> session_ok (snd (Open b)).
Proof.
  intros Hb. unfold Open, bind, modify.
  apply (session_ok_NextBaudrate 0 (with_serial (Some []) b));
    [exact Hb | reflexivity].
Qed.

Lemma manual_session_ok :
  exists b, session_ok (snd (Open b)) /\ manual = snd (Open b).
Proof.
  destruct (session_is_constructed false true false false)
    as (b & Hinit & Hs & _).
  exists b. split; [| exact Hs].
  apply session_ok_Open. eapply ladder_ok___init__. exact Hinit.
Qed.

(** X5: the port follows the ladder.  After construction and [Open] the
    port is set to the rate at the index, and every sequence of
    [NextBaudrate], [set_baud_from_index] (a position of the list, [0] or
    [None]) and [toggle_baud] leaves the rate last assigned to the port
    equal to [BAUDRATES[index]]. *)
Theorem port_rate_follows_the_index :
  (forall th tmo au ve nl pk tb b,
     __init__ th tmo au ve nl pk tb = Ok b ->
     session_ok (snd (Open b))
     /\ port_rate (snd (Open b)) = Some DEFAULT_BAUDRATE)
  /\ (forall b ops,
        session_ok b -> Forall valid_op ops ->
        session_ok (snd (run_ops ops b))
        /\ exists r,
             py_getitem BAUDRATES (index (snd (run_ops ops b))) = Ok r
             /\ port_rate (snd (run_ops ops b)) = Some r).
Proof.
  split.
  - intros th tmo au ve nl pk tb b Hinit.
    pose proof (ladder_ok___init__ _ _ _ _ _ _ _ _ Hinit) as Hb.
    assert (Hidx : index b = 4).
    { unfold __init__ in Hinit.
      change (py_index DEFAULT_BAUDRATE BAUDRATES) with (@Ok Z 4) in Hinit.
      destruct (py_index tb BAUDRATES); [| discriminate].
      injection Hinit as <-. reflexivity. }
    assert (Hs : session_ok (snd (Open b)))
      by (apply session_ok_Open; exact Hb).
    split; [exact Hs |].
    destruct Hs as (_ & _ & r & Hr & Hp). rewrite Hp. f_equal.
    assert (Ei : index (snd (Open b)) = 4).
    { unfold Open, bind, modify. cbn [fst snd].
      rewrite NextBaudrate_index.
      change (index (with_serial (Some []) b)) with (index b).
      rewrite Hidx. reflexivity. }
    rewrite Ei in Hr. vm_compute in Hr. injection Hr as <-. reflexivity.
  - intros b ops Hb Hv.
    pose proof (session_ok_run_ops ops Hv b Hb) as H.
    split; [exact H | apply H].
Qed.

Lemma port_rate_follows_the_index_witness :
  port_rate (snd (run_ops [Step (-1); Toggle; Step 5] manual))
  = Some (lit "50").
Proof.
  destruct port_rate_follows_the_index as (_ & Hops).
  assert (Hok : session_ok manual).
  { destruct manual_session_ok as (b & Hb & ->). exact Hb. }
  assert (Hv : Forall valid_op [Step (-1); Toggle; Step 5])
    by (repeat (apply Forall_cons || apply Forall_nil); exact I).
  destruct (Hops manual _ Hok Hv) as (_ & r & Hr & Hp).
  rewrite Hp. vm_compute in Hr. injection Hr as <-. reflexivity.
Defined.

Lemma Detect_session_ok b ticks :
  session_ok b ->
  session_ok (snd (Detect ticks b))
  /\ forall r,
       fst (Detect ticks b) = Ok (Some r) ->
       py_getitem BAUDRATES (index (snd (Detect ticks b))) = Ok r
       /\ port_rate (snd (Detect ticks b)) = Some r.
Proof.
  intros Hb.
  pose proof Hb as (Hl & Ho & _).
  destruct (Detect_run_safe ticks b Hl Ho)
    as (ts & b1 & x & b2 & Hstart & Hloop & _ & Hx).
  assert (Hb1 : session_ok b1).
  { assert (P : preserves session_ok Detect_start)
      by (unfold Detect_start; session_tac).
    specialize (P b Hb). rewrite Hstart in P. exact P. }
  pose proof (session_ok_Detect_loop ticks Detect_locals ts b1 Hb1) as Hb2.
  rewrite Hloop in Hb2. simpl in Hb2.
  destruct x as [x |].
  - destruct Hx as (r & Hr & _ & ->). simpl. split; [exact Hb2 |].
    intros r' [= <-]. destruct Hb2 as (_ & _ & r2 & Hr2 & Hp).
    split; [exact Hr | congruence].
  - rewrite Hx. simpl. split; [exact Hb2 | discriminate].
Qed.

(** X6: the rate [Detect] returns is the rate the port is left at.  From
    a session in step, whatever is received and whatever keys the
    interpreter handles, the session stays in step, and when [Detect]
    returns [r] the last rate assigned to the port is [r]. *)
Theorem Detect_returns_the_port_rate :
  forall b ticks,
    session_ok b ->
    session_ok (snd (Detect ticks b))
    /\ forall r,
         fst (Detect ticks b) = Ok (Some r) ->
         port_rate (snd (Detect ticks b)) = Some r.
Proof.
  intros b ticks Hb.
  destruct (Detect_session_ok b ticks Hb) as (H1 & H2).
  split; [exact H1 |]. intros r Hr. apply (H2 r Hr).
Qed.

Lemma Detect_returns_the_port_rate_witness :
  fst (Detect [mkTick 1 (PyBytes [x61]) 2
                 [press (lit "d") 0; press CONTROL_C 0]] manual)
  = Ok (Some (lit "76800"))
  /\ port_rate
       (snd (Detect [mkTick 1 (PyBytes [x61]) 2
                       [press (lit "d") 0; press CONTROL_C 0]] manual))
     = Some (lit "76800").
Proof.
  assert (Hok : session_ok manual).
  { destruct manual_session_ok as (b & Hb & ->). exact Hb. }
  destruct (Detect_returns_the_port_rate manual
              [mkTick 1 (PyBytes [x61]) 2
                 [press (lit "d") 0; press CONTROL_C 0]] Hok) as (_ & H).
  assert (E : fst (Detect [mkTick 1 (PyBytes [x61]) 2
                             [press (lit "d") 0; press CONTROL_C 0]] manual)
              = Ok (Some (lit "76800"))) by (vm_compute; reflexivity).
  split; [exact E | exact (H _ E)].
Defined.

(** ** Stepping and toggling *)

Lemma wrapped_index_mod i :
  -1 <= i <= py_len BAUDRATES -> wrapped_index i = i mod py_len BAUDRATES.
Proof.
  unfold wrapped_index. rewrite py_len_BAUDRATES. intros Hr.
  destruct (23 <=? i) eqn:E1.
  - apply Z.leb_le in E1. replace i with 23 by lia. reflexivity.
  - apply Z.leb_gt in E1. destruct (i <? 0) eqn:E2.
    + apply Z.ltb_lt in E2. replace i with (-1) by lia. reflexivity.
    + apply Z.ltb_ge in E2. symmetry. apply Z.mod_small. lia.
Qed.

Lemma steps_index n :
  forall b updn,
    in_ladder (index b) -> -1 <= updn <= 1 ->
    index (steps n updn b)
    = (index b - Z.of_nat n * updn) mod py_len BAUDRATES.
Proof.
  induction n as [| n IH]; intros b updn Hin Hd.
  - cbn [steps]. rewrite Z.mul_0_l, Z.sub_0_r. symmetry.
    apply Z.mod_small. exact Hin.
  - cbn [steps].
    assert (Hi : index (snd (NextBaudrate updn b))
                 = (index b - updn) mod py_len BAUDRATES).
    { rewrite NextBaudrate_index. apply wrapped_index_mod.
      unfold in_ladder in Hin. lia. }
    rewrite IH; [| rewrite NextBaudrate_index; apply wrapped_index_in_ladder
                | exact Hd].
    rewrite Hi. rewrite Zminus_mod_idemp_l. f_equal. lia.
Qed.

(** X7: a step up and a step down cancel, also across the two ends of the
    list: from any position, [NextBaudrate(1)] followed by
    [NextBaudrate(-1)] (or the other way round) is back at that
    position. *)
Theorem NextBaudrate_up_and_down_cancel :
  forall b,
    in_ladder (index b) ->
    index (snd (NextBaudrate (-1) (snd (NextBaudrate 1 b)))) = index b
    /\ index (snd (NextBaudrate 1 (snd (NextBaudrate (-1) b)))) = index b.
Proof.
  intros b Hin. rewrite !NextBaudrate_index.
  unfold in_ladder in Hin. unfold wrapped_index.
  rewrite py_len_BAUDRATES in *.
  split.
  - destruct (23 <=? index b - 1) eqn:E1; [apply Z.leb_le in E1; lia |].
    destruct (index b - 1 <? 0) eqn:E2.
    + apply Z.ltb_lt in E2. replace (index b) with 0 by lia. reflexivity.
    + apply Z.ltb_ge in E2.
      destruct (23 <=? index b - 1 - -1) eqn:E3; [apply Z.leb_le in E3; lia |].
      destruct (index b - 1 - -1 <? 0) eqn:E4; [apply Z.ltb_lt in E4; lia |].
      lia.
  - destruct (23 <=? index b - -1) eqn:E1.
    + apply Z.leb_le in E1. replace (index b) with 22 by lia. reflexivity.
    + apply Z.leb_gt in E1.
      destruct (index b - -1 <? 0) eqn:E2; [apply Z.ltb_lt in E2; lia |].
      destruct (23 <=? index b - -1 - 1) eqn:E3; [apply Z.leb_le in E3; lia |].
      destruct (index b - -1 - 1 <? 0) eqn:E4; [apply Z.ltb_lt in E4; lia |].
      lia.
Qed.

Lemma NextBaudrate_up_and_down_cancel_witness :
  index (snd (NextBaudrate (-1) (snd (NextBaudrate 1 at_top)))) = 0.
Proof.
  assert (Hin : in_ladder (index at_top))
    by (vm_compute; split; [discriminate | reflexivity]).
  destruct (NextBaudrate_up_and_down_cancel at_top Hin) as (H & _).
  rewrite H. reflexivity.
Defined.

(** X8: stepping goes round the list.  After [n] steps of one position
    the index is the start moved by [n], modulo the length of the list;
    after as many steps as there are rates it is back at the start, and
    before that it is somewhere else: a full round visits every
    candidate once. *)
Theorem NextBaudrate_goes_round :
  forall b updn n,
    in_ladder (index b) -> updn = 1 \/ updn = -1 ->
    index (steps n updn b)
    = (index b - Z.of_nat n * updn) mod py_len BAUDRATES
    /\ index (steps (List.length BAUDRATES) updn b) = index b
    /\ (0 < n < List.length BAUDRATES -> index (steps n updn b) <> index b)%nat.
Proof.
  intros b updn n Hin Hd.
  assert (Hd' : -1 <= updn <= 1) by lia.
  rewrite !steps_index by assumption.
  change (Z.of_nat (List.length BAUDRATES)) with 23.
  unfold in_ladder in Hin. rewrite py_len_BAUDRATES in *.
  split; [reflexivity |]. split.
  - destruct Hd as [-> | ->].
    + replace (index b - 23 * 1) with (index b + (-1) * 23) by lia.
      rewrite Z_mod_plus_full. apply Z.mod_small. exact Hin.
    + replace (index b - 23 * -1) with (index b + 1 * 23) by lia.
      rewrite Z_mod_plus_full. apply Z.mod_small. exact Hin.
  - change (List.length BAUDRATES) with 23%nat. intros Hn Heq.
    pose proof (Z.mod_pos_bound (index b - Z.of_nat n * updn) 23 eq_refl)
      as Hbound.
    pose proof (Z.div_mod (index b - Z.of_nat n * updn) 23) as Hdm.
    rewrite Heq in Hdm. destruct Hd as [-> | ->]; nia.
Qed.

Lemma NextBaudrate_goes_round_witness :
  index (steps 23 (-1) manual) = 4 /\ index (steps 20 (-1) manual) = 1.
Proof.
  assert (Hin : in_ladder (index manual))
    by (vm_compute; split; [discriminate | reflexivity]).
  destruct (NextBaudrate_goes_round manual (-1) 20 Hin (or_intror eq_refl))
    as (H20 & H23 & _).
  split; [exact H23 | rewrite H20; reflexivity].
Defined.

(** X9: toggling from anywhere.  When the current position is not the
    stored "next" slot (and neither is position 0), the first
    [toggle_baud] moves to the stored slot and remembers the position it
    left, and from then on the calls alternate between the two: after an
    even number of calls the index is where it started, after an odd
    number it is the slot that was stored. *)
Theorem toggle_baud_from_elsewhere :
  forall b n,
    is_open b = true -> ladder_ok b ->
    index b <> snd (toggle_bauds b) ->
    index b <> 0 -> snd (toggle_bauds b) <> 0 ->
    toggle_bauds (toggles 1 b) = (snd (toggle_bauds b), index b)
    /\ index (toggles n b)
       = (if Nat.even n then index b else snd (toggle_bauds b)).
Proof.
  intros b n Hopen Hok Hne Hi Hc.
  assert (Hret : fst (toggle_baud b) = Ok tt)
    by (apply toggle_baud_returns; assumption).
  assert (Hneb : (index b =? snd (toggle_bauds b)) = false)
    by (apply Z.eqb_neq; exact Hne).
  assert (Hcz : (snd (toggle_bauds b) =? 0) = false)
    by (apply Z.eqb_neq; exact Hc).
  assert (Hp : toggle_bauds (snd (toggle_baud b))
               = (snd (toggle_bauds b), index b)).
  { rewrite toggle_baud_pair by exact Hret. rewrite Hneb. reflexivity. }
  assert (Hx : index (snd (toggle_baud b)) = snd (toggle_bauds b)).
  { rewrite toggle_baud_index, Hneb. unfold chosen_index. rewrite Hcz.
    reflexivity. }
  split; [exact Hp |].
  destruct n as [| n]; [reflexivity |].
  cbn [toggles].
  assert (Hopen' : is_open (snd (toggle_baud b)) = true).
  { assert (K : keeps is_open toggle_baud) by frame. rewrite K. exact Hopen. }
  destruct (toggles_alternate n (snd (toggle_baud b)) Hopen'
              (ladder_ok_toggle_baud b Hok)) as (H & _);
    rewrite ?Hp, ?Hx; cbn [fst snd]; auto.
  rewrite H, Hp. cbn [fst snd].
  rewrite Nat.even_succ, <- Nat.negb_even. destruct (Nat.even n); reflexivity.
Qed.

Lemma toggle_baud_from_elsewhere_witness :
  index (toggles 1 (snd (run_ops [Step (-1); Step (-1)] manual))) = 4
  /\ index (toggles 2 (snd (run_ops [Step (-1); Step (-1)] manual))) = 6.
Proof.
  pose (b := snd (run_ops [Step (-1); Step (-1)] manual)).
  assert (Hopen : is_open b = true) by reflexivity.
  assert (Hok : ladder_ok b)
    by (vm_compute; repeat split; (reflexivity || discriminate)).
  assert (Hne : index b <> snd (toggle_bauds b)) by (vm_compute; discriminate).
  assert (Hi : index b <> 0) by (vm_compute; discriminate).
  assert (Hc : snd (toggle_bauds b) <> 0) by (vm_compute; discriminate).
  destruct (toggle_baud_from_elsewhere b 1 Hopen Hok Hne Hi Hc) as (_ & H1).
  destruct (toggle_baud_from_elsewhere b 2 Hopen Hok Hne Hi Hc) as (_ & H2).
  fold b. rewrite H1, H2. split; reflexivity.
Defined.

(** X10: the highest rate cannot be toggled to.  When the stored slot is
    position 0 (as with the toggle rate "921600") and the operator is
    elsewhere, [toggle_baud] never moves the index, however often it is
    called: [set_baud_from_index(0)] selects nothing. *)
Theorem toggle_baud_never_reaches_position_zero :
  forall n b,
    is_open b = true -> ladder_ok b ->
    index b <> 0 -> snd (toggle_bauds b) = 0 ->
    index (toggles n b) = index b.
Proof.
  assert (H : forall n b,
             is_open b = true -> ladder_ok b -> index b <> 0 ->
             snd (toggle_bauds b) = 0 \/ toggle_bauds b = (0, index b) ->
             index (toggles n b) = index b).
  { induction n as [| n IH]; intros b Hopen Hok Hi Hpair; [reflexivity |].
    cbn [toggles].
    assert (Hret : fst (toggle_baud b) = Ok tt)
      by (apply toggle_baud_returns; assumption).
    assert (Hopen' : is_open (snd (toggle_baud b)) = true).
    { assert (K : keeps is_open toggle_baud) by frame.
      rewrite K. exact Hopen. }
    assert (Hx : index (snd (toggle_baud b)) = index b).
    { rewrite toggle_baud_index. unfold chosen_index.
      destruct (index b =? snd (toggle_bauds b)) eqn:E; [reflexivity |].
      destruct Hpair as [Hz | Hp].
      - rewrite Hz. reflexivity.
      - rewrite Hp in E. cbn [snd] in E. rewrite Z.eqb_refl in E.
        discriminate. }
    rewrite IH; [exact Hx | exact Hopen'
                | apply ladder_ok_toggle_baud; exact Hok
                | rewrite Hx; exact Hi |].
    rewrite toggle_baud_pair by exact Hret. rewrite Hx. cbn [snd].
    destruct Hpair as [Hz | Hp].
    - assert (E : (index b =? snd (toggle_bauds b)) = false)
        by (apply Z.eqb_neq; rewrite Hz; exact Hi).
      rewrite E, Hz. right. reflexivity.
    - rewrite Hp. cbn [fst snd]. rewrite Z.eqb_refl. left.
      reflexivity. }
  intros n b Hopen Hok Hi Hz. apply H; auto.
Qed.

Lemma toggle_baud_never_reaches_position_zero_witness :
  index (toggles 3 (snd (Open (snd (_gen_char_list
                                     (new_self 25 5 false true false false
                                        4 0)))))) = 4.
Proof.
  pose (b := snd (Open (snd (_gen_char_list
                               (new_self 25 5 false true false false 4 0))))).
  assert (Hopen : is_open b = true) by reflexivity.
  assert (Hok : ladder_ok b)
    by (vm_compute; repeat split; (reflexivity || discriminate)).
  assert (Hi : index b <> 0) by (vm_compute; discriminate).
  assert (Hz : snd (toggle_bauds b) = 0) by reflexivity.
  pose proof (toggle_baud_never_reaches_position_zero 3 b Hopen Hok Hi Hz)
    as H.
  subst b. rewrite H. vm_compute. reflexivity.
Defined.

(** ** The interpreter: what reaches the transport *)

Lemma keeps_transport_out_flush : keeps transport_out (serial_do SerFlush).
Proof.
  intro b. unfold serial_do, transport_out.
  destruct (serial b) as [log |] eqn:E; cbn; rewrite ?E; [| reflexivity].
  rewrite sent_app. cbn. apply app_nil_r.
Qed.

Lemma keeps_transport_out_rate r :
  keeps transport_out (serial_do (SerSetBaudrate r)).
Proof.
  intro b. unfold serial_do, transport_out.
  destruct (serial b) as [log |] eqn:E; cbn; rewrite ?E; [| reflexivity].
  rewrite sent_app. cbn. apply app_nil_r.
Qed.
#[global] Hint Resolve keeps_transport_out_flush keeps_transport_out_rate
  : keeps.

Lemma keeps_transport_out_set_baud_from_index arg :
  keeps transport_out (set_baud_from_index arg).
Proof. unfold set_baud_from_index. keeps_concrete. Qed.
#[global] Hint Resolve keeps_transport_out_set_baud_from_index : keeps.

Lemma keeps_transport_out_NextBaudrate updn :
  keeps transport_out (NextBaudrate updn).
Proof. unfold NextBaudrate. keeps_concrete. Qed.
#[global] Hint Resolve keeps_transport_out_NextBaudrate : keeps.

Lemma keeps_transport_out_toggle_baud : keeps transport_out toggle_baud.
Proof. unfold toggle_baud. keeps_concrete. Qed.
#[global] Hint Resolve keeps_transport_out_toggle_baud : keeps.

Lemma keeps_transport_out_interpret ev l :
  keeps transport_out (HandleKeypress_interpret ev l).
Proof. unfold HandleKeypress_interpret. keeps_concrete. Qed.

Lemma keeps_passthrough_interpret ev l :
  keeps passthrough_keys (HandleKeypress_interpret ev l).
Proof. unfold HandleKeypress_interpret. keeps_concrete. Qed.

(** In interpreting mode with no deadline the iteration is the command
    dispatch, and it ends in forwarding mode exactly when keys are passed
    through. *)
Lemma HandleKeypress_iter_interpreting ev b :
  HandleKeypress_iter ev (mkKeyLocals true 0) b
  = HandleKeypress_interpret ev (mkKeyLocals true 0) b.
Proof.
  unfold HandleKeypress_iter, bind, get. cbn.
  rewrite andb_false_r. reflexivity.
Qed.

Lemma HandleKeypress_interpret_locals ev b l' b' :
  HandleKeypress_interpret ev (mkKeyLocals true 0) b = (Ok l', b') ->
  (passthrough_keys b = false -> l' = mkKeyLocals true 0)
  /\ (passthrough_keys b = true ->
      interpret_mode l' = false
      /\ (py_eq (key ev) (PyStr ESCAPE_KEY) = false ->
          interpret_esc_timeout l' = 0)).
Proof.
  unfold HandleKeypress_interpret. cbn [interpret_mode interpret_esc_timeout].
  unfold bind at 1. unfold get at 1. cbn beta iota zeta.
  pose (fin := fun pk : bool =>
                 if pk then mkKeyLocals false 0 else mkKeyLocals true 0).
  pose (good := fun k : M KeyLocals =>
                  forall b0 l1 b1,
                    k b0 = (Ok l1, b1) -> l1 = fin (passthrough_keys b0)).
  assert (Gd : good (self <- get ;;
                     ret (if passthrough_keys self
                          then mkKeyLocals false 0 else mkKeyLocals true 0))).
  { intros b0 l1 b1. unfold bind, get, ret. intros [= <- _]. reflexivity. }
  assert (Gb : forall (m : M unit) k,
             keeps passthrough_keys m -> good k -> good (m ;; k)).
  { intros m k K G b0 l1 b1. unfold bind. specialize (K b0).
    destruct (m b0) as [[[] | e] bx]; cbn in *; [| discriminate].
    intros H. apply G in H. rewrite H, K. reflexivity. }
  assert (Hfin : forall l1,
             l1 = fin (passthrough_keys b) ->
             (passthrough_keys b = false -> l1 = mkKeyLocals true 0)
             /\ (passthrough_keys b = true ->
                 interpret_mode l1 = false
                 /\ (py_eq (key ev) (PyStr ESCAPE_KEY) = false ->
                     interpret_esc_timeout l1 = 0))).
  { intros l1 ->. unfold fin. split; intros ->; auto. }
  destruct (py_in (key ev) UPKEYS);
    [intros H; apply Hfin; refine (Gb _ _ _ Gd b l' b' H); frame |].
  destruct (py_in (key ev) DOWNKEYS);
    [intros H; apply Hfin; refine (Gb _ _ _ Gd b l' b' H); frame |].
  destruct (py_in (key ev) HELPKEYS);
    [intros H; apply Hfin; refine (Gb _ _ _ Gd b l' b' H); frame |].
  destruct (py_eq (key ev) (PyStr [SP]));
    [intros H; apply Hfin; refine (Gb _ _ _ Gd b l' b' H); frame |].
  destruct (py_in (key ev) RETURN);
    [intros H; apply Hfin;
     refine (Gb _ _ _ (Gb _ _ _ Gd) b l' b' H);
     [destruct (stderr_needs_capping b) |];
     first [frame | apply keeps_ret] |].
  destruct (py_eq (key ev) (PyStr CONTROL_C));
    [intros H; apply Hfin; refine (Gb _ _ _ Gd b l' b' H);
     intro; reflexivity |].
  destruct (py_eq (key ev) (PyStr ESCAPE_KEY)) eqn:Eesc.
  - destruct (passthrough_keys b) eqn:Ep; cbn [andb].
    + unfold ret. intros [= <- _]. split; [discriminate |].
      intros _. split; [reflexivity | discriminate].
    + intros H. apply Hfin. pose proof (Gd b l' b' H) as G.
      rewrite Ep in G. exact G.
  - cbn [andb]. intros H. apply Hfin. exact (Gd b l' b' H).
Qed.

Lemma HandleKeypress_run_dedicated evs :
  forall ts b ts' b',
    passthrough_keys b = false ->
    ts = Ended \/ ts = Running (mkKeyLocals true 0) ->
    HandleKeypress_run evs ts b = (ts', b') ->
    transport_out b' = transport_out b
    /\ (ts' = Ended \/ ts' = Running (mkKeyLocals true 0)).
Proof.
  induction evs as [| ev evs IH]; intros ts b ts' b' Hp Hts Hrun.
  - destruct Hts as [-> | ->]; cbn in Hrun; injection Hrun as <- <-; auto.
  - destruct Hts as [-> | ->]; cbn [HandleKeypress_run] in Hrun.
    + injection Hrun as <- <-. auto.
    + rewrite HandleKeypress_iter_interpreting in Hrun.
      pose proof (keeps_transport_out_interpret ev (mkKeyLocals true 0) b)
        as Kt.
      pose proof (keeps_passthrough_interpret ev (mkKeyLocals true 0) b)
        as Kp.
      destruct (HandleKeypress_interpret ev (mkKeyLocals true 0) b)
        as [[l1 | e] b1] eqn:E; cbn in Kt, Kp.
      * apply HandleKeypress_interpret_locals in E.
        destruct E as (E & _). rewrite (E Hp) in Hrun.
        apply IH in Hrun; [| congruence |].
        -- rewrite <- Kt. exact Hrun.
        -- unfold HandleKeypress_wait. destruct (ctlc b1); auto.
      * injection Hrun as <- <-. auto.
Qed.

(** X11: without pass-through the interpreter sends nothing.  Whatever
    keys it handles, no byte is written to the transport, and as long as
    it runs it stays in interpreting mode with no escape deadline. *)
Theorem dedicated_interpreter_never_writes :
  forall evs b ts' b',
    passthrough_keys b = false ->
    HandleKeypress_run evs (HandleKeypress_start b) b = (ts', b') ->
    transport_out b' = transport_out b
    /\ (ts' = Ended \/ ts' = Running (mkKeyLocals true 0)).
Proof.
  intros evs b ts' b' Hp Hrun.
  eapply HandleKeypress_run_dedicated; [exact Hp | | exact Hrun].
  unfold HandleKeypress_start, HandleKeypress_wait. rewrite Hp.
  destruct (ctlc b); auto.
Qed.

Lemma dedicated_interpreter_never_writes_witness :
  transport_out
    (snd (HandleKeypress_run
            [press (lit "u") 0; press (lit "x") 1; press [SP] 2]
            (HandleKeypress_start manual) manual)) = [].
Proof.
  destruct (HandleKeypress_run
              [press (lit "u") 0; press (lit "x") 1; press [SP] 2]
              (HandleKeypress_start manual) manual) as [ts' b'] eqn:E.
  destruct (dedicated_interpreter_never_writes _ manual ts' b' eq_refl E)
    as (H & _).
  cbn [snd]. rewrite H. reflexivity.
Defined.

Lemma sent_writes log datas :
  sent (log ++ map SerWrite datas) = sent log ++ List.concat datas.
Proof.
  rewrite sent_app. f_equal.
  induction datas as [| d datas IH]; [reflexivity |].
  cbn. rewrite IH. reflexivity.
Qed.

Lemma HandleKeypress_iter_forwards ev b data log :
  passthrough_keys b = true ->
  py_eq (key ev) (PyStr INTERPRET_MODE_KEY) = false ->
  py_bytes (key ev) = Ok data ->
  serial b = Some log ->
  HandleKeypress_iter ev (mkKeyLocals false 0) b
  = (Ok (mkKeyLocals false 0),
     with_serial (Some (log ++ [SerWrite data])) b).
Proof.
  intros Hp Hk Hd Hlog.
  unfold HandleKeypress_iter, HandleKeypress_interpret, bind, get, ret, lift,
    serial_do. cbn.
  rewrite Hp, Hk, Hd. cbn. rewrite Hlog. reflexivity.
Qed.

(** X12: in forwarding mode every key but the mode key goes to the
    device.  With pass-through on, no deadline armed and the cancel flag
    down, a run of keys none of which is the mode key is written to the
    transport, key by key, as its UTF-8 encoding; nothing else about the
    object changes.  This includes the keys that are commands in
    interpreting mode: the cancel key is sent, not obeyed. *)
Theorem forwarding_mode_sends_every_key :
  forall evs datas b log,
    passthrough_keys b = true -> ctlc b = false ->
    serial b = Some log ->
    Forall2 (fun ev data =>
               py_eq (key ev) (PyStr INTERPRET_MODE_KEY) = false
               /\ py_bytes (key ev) = Ok data) evs datas ->
    HandleKeypress_run evs (Running (mkKeyLocals false 0)) b
    = (Running (mkKeyLocals false 0),
       with_serial (Some (log ++ map SerWrite datas)) b)
    /\ transport_out
         (snd (HandleKeypress_run evs (Running (mkKeyLocals false 0)) b))
       = transport_out b ++ List.concat datas.
Proof.
  intros evs datas b log Hp Hc Hlog Hall.
  assert (H : HandleKeypress_run evs (Running (mkKeyLocals false 0)) b
              = (Running (mkKeyLocals false 0),
                 with_serial (Some (log ++ map SerWrite datas)) b)).
  { revert b log Hp Hc Hlog.
    induction Hall as [| ev data evs datas (Hk & Hd) _ IH];
      intros b log Hp Hc Hlog.
    - cbn. rewrite app_nil_r. destruct b; cbn in *; subst; reflexivity.
    - cbn [HandleKeypress_run].
      rewrite (HandleKeypress_iter_forwards ev b data log Hp Hk Hd Hlog).
      unfold HandleKeypress_wait. cbn [ctlc with_serial]. rewrite Hc.
      rewrite (IH _ (log ++ [SerWrite data])); try reflexivity; try assumption.
      cbn [map]. rewrite <- app_assoc. reflexivity. }
  split; [exact H |]. rewrite H. cbn [snd]. unfold transport_out.
  cbn [serial with_serial]. rewrite Hlog. apply sent_writes.
Qed.

Lemma forwarding_mode_sends_every_key_witness :
  transport_out
    (snd (HandleKeypress_run [press (lit "u") 0; press CONTROL_C 1]
            (Running (mkKeyLocals false 0)) (session false true false true)))
  = [x75; x03]
  /\ ctlc (snd (HandleKeypress_run [press (lit "u") 0; press CONTROL_C 1]
                  (Running (mkKeyLocals false 0))
                  (session false true false true))) = false.
Proof.
  assert (Hall : Forall2
                   (fun ev data =>
                      py_eq (key ev) (PyStr INTERPRET_MODE_KEY) = false
                      /\ py_bytes (key ev) = Ok data)
                   [press (lit "u") 0; press CONTROL_C 1] [[x75]; [x03]]).
  { repeat constructor. }
  destruct (forwarding_mode_sends_every_key _ _
              (session false true false true) _ eq_refl eq_refl eq_refl Hall)
    as (Hrun & Hout).
  split.
  - rewrite Hout. reflexivity.
  - rewrite Hrun. reflexivity.
Defined.

(** X13: a command is one shot.  With pass-through on, the mode key
    switches to interpreting mode and is not sent; the key after it is
    handled as a command and never sent, and leaves the interpreter in
    forwarding mode again, with no deadline unless the key was Escape. *)
Theorem passthrough_commands_are_one_shot :
  forall b,
    passthrough_keys b = true ->
    (forall ev,
       py_eq (key ev) (PyStr INTERPRET_MODE_KEY) = true ->
       HandleKeypress_iter ev (mkKeyLocals false 0) b
       = (Ok (mkKeyLocals true 0), b))
    /\ (forall ev l' b',
          HandleKeypress_iter ev (mkKeyLocals true 0) b = (Ok l', b') ->
          interpret_mode l' = false
          /\ transport_out b' = transport_out b
          /\ (py_eq (key ev) (PyStr ESCAPE_KEY) = false ->
              interpret_esc_timeout l' = 0)).
Proof.
  intros b Hp. split.
  - intros ev Hk. unfold HandleKeypress_iter, bind, get, ret. cbn.
    rewrite Hp, Hk. reflexivity.
  - intros ev l' b' H. rewrite HandleKeypress_iter_interpreting in H.
    pose proof (keeps_transport_out_interpret ev (mkKeyLocals true 0) b) as K.
    rewrite H in K. cbn in K.
    apply HandleKeypress_interpret_locals in H. destruct H as (_ & H).
    destruct (H Hp) as (H1 & H2). auto.
Qed.

Lemma passthrough_commands_are_one_shot_witness :
  HandleKeypress_run [press INTERPRET_MODE_KEY 0; press (lit "u") 1]
    (Running (mkKeyLocals false 0)) (session false true false true)
  = (Running (mkKeyLocals false 0),
     snd (NextBaudrate 1 (session false true false true))).
Proof.
  destruct (passthrough_commands_are_one_shot
              (session false true false true) eq_refl) as (Hmode & _).
  cbn [HandleKeypress_run].
  rewrite (Hmode (press INTERPRET_MODE_KEY 0) eq_refl).
  vm_compute. reflexivity.
Defined.

(** X14: the cancel key ends the interpreter.  Read in interpreting mode,
    it raises the cancel flag, changes nothing else, and no later key is
    handled. *)
Theorem cancel_key_ends_the_interpreter :
  forall b t rest,
    HandleKeypress_run (press CONTROL_C t :: rest)
      (Running (mkKeyLocals true 0)) b
    = (Ended, with_ctlc true b).
Proof.
  intros b t rest. cbn [HandleKeypress_run].
  rewrite HandleKeypress_iter_interpreting.
  unfold HandleKeypress_interpret, bind, get, modify, ret. cbn.
  destruct (passthrough_keys b); cbn; destruct rest; reflexivity.
Qed.

(** ** The interpreter: the arrow keys *)

Lemma HandleKeypress_iter_steps_up ev b :
  py_in (key ev) UPKEYS = true ->
  is_open b = true ->
  HandleKeypress_iter ev (mkKeyLocals true 0) b
  = (Ok (if passthrough_keys b
         then mkKeyLocals false 0 else mkKeyLocals true 0),
     snd (NextBaudrate 1 b)).
Proof.
  intros Hup Hopen. rewrite HandleKeypress_iter_interpreting.
  unfold HandleKeypress_interpret. cbn [interpret_mode interpret_esc_timeout].
  unfold bind at 1. unfold get at 1. cbn beta iota zeta. rewrite Hup.
  pose proof (NextBaudrate_returns 1 b Hopen) as Hret.
  assert (K : keeps passthrough_keys (NextBaudrate 1)) by frame.
  specialize (K b). unfold bind, get, ret.
  destruct (NextBaudrate 1 b) as [[[] | e] b1]; cbn in *; [| discriminate].
  rewrite K. reflexivity.
Qed.

Lemma HandleKeypress_iter_no_command ev b :
  py_in (key ev) UPKEYS = false ->
  py_in (key ev) DOWNKEYS = false ->
  py_in (key ev) HELPKEYS = false ->
  py_eq (key ev) (PyStr [SP]) = false ->
  py_in (key ev) RETURN = false ->
  py_eq (key ev) (PyStr CONTROL_C) = false ->
  py_eq (key ev) (PyStr ESCAPE_KEY) && passthrough_keys b = false ->
  HandleKeypress_iter ev (mkKeyLocals true 0) b
  = (Ok (if passthrough_keys b
         then mkKeyLocals false 0 else mkKeyLocals true 0), b).
Proof.
  intros H1 H2 H3 H4 H5 H6 H7. rewrite HandleKeypress_iter_interpreting.
  unfold HandleKeypress_interpret, bind, get, ret. cbn.
  fold UPKEYS DOWNKEYS HELPKEYS RETURN.
  unfold py_in in *. cbn in H1, H2, H3, H5.
  rewrite H1, H2, H3, H4, H5, H6, H7. reflexivity.
Qed.

(** X15: the up arrow, which the terminal delivers as Escape, ['['],
    ['A'].  Without pass-through the first two keys do nothing and the
    third steps the ladder up once.  With pass-through, after the mode
    key, Escape arms a deadline of 100 ms; if ['['] comes in time the
    ['A'] steps the ladder up once, nothing is sent, and the interpreter
    is back in forwarding mode; if ['['] comes late, ['['] and ['A'] are
    sent to the device and the ladder does not move. *)
Theorem up_arrow_steps_the_ladder :
  forall b t0 t1 t2,
    is_open b = true -> ctlc b = false ->
    (passthrough_keys b = false ->
     HandleKeypress_run
       [press ESCAPE_KEY t0; press ESCAPE_CODE_COMING t1; press (lit "A") t2]
       (Running (mkKeyLocals true 0)) b
     = (Running (mkKeyLocals true 0), snd (NextBaudrate 1 b)))
    /\ (passthrough_keys b = true ->
        t1 < t0 + INTERPRET_ESC_TIMEOUT_MS ->
        t0 + INTERPRET_ESC_TIMEOUT_MS <> 0 ->
        HandleKeypress_run
          [press ESCAPE_KEY t0; press ESCAPE_CODE_COMING t1;
           press (lit "A") t2]
          (Running (mkKeyLocals true 0)) b
        = (Running (mkKeyLocals false 0), snd (NextBaudrate 1 b)))
    /\ (passthrough_keys b = true ->
        t0 + INTERPRET_ESC_TIMEOUT_MS <= t1 ->
        forall log,
          serial b = Some log ->
          HandleKeypress_run
            [press ESCAPE_KEY t0; press ESCAPE_CODE_COMING t1;
             press (lit "A") t2]
            (Running (mkKeyLocals true 0)) b
          = (Running (mkKeyLocals false 0),
             with_serial (Some (log ++ [SerWrite [x5b]; SerWrite [x41]])) b)).
Proof.
  intros b t0 t1 t2 Hopen Hc.
  assert (Kc : keeps ctlc (NextBaudrate 1)) by frame.
  assert (Hwait : forall l, HandleKeypress_wait l b = Running l)
    by (intro l; unfold HandleKeypress_wait; rewrite Hc; reflexivity).
  assert (Hwait' : forall l,
             HandleKeypress_wait l (snd (NextBaudrate 1 b)) = Running l)
    by (intro l; unfold HandleKeypress_wait; rewrite Kc, Hc; reflexivity).
  split; [| split].
  - intros Hp. cbn [HandleKeypress_run].
    rewrite (HandleKeypress_iter_no_command (press ESCAPE_KEY t0) b)
      by (rewrite ?Hp; reflexivity).
    rewrite Hp, Hwait.
    rewrite (HandleKeypress_iter_no_command (press ESCAPE_CODE_COMING t1) b)
      by (rewrite ?Hp; reflexivity).
    rewrite Hp, Hwait.
    rewrite (HandleKeypress_iter_steps_up (press (lit "A") t2) b eq_refl Hopen).
    rewrite Hp, Hwait'. reflexivity.
  - intros Hp Hin Hnz. cbn [HandleKeypress_run].
    assert (Harm : HandleKeypress_iter (press ESCAPE_KEY t0)
                     (mkKeyLocals true 0) b
                   = (Ok (mkKeyLocals false (t0 + INTERPRET_ESC_TIMEOUT_MS)),
                      b)).
    { rewrite HandleKeypress_iter_interpreting.
      unfold HandleKeypress_interpret, bind, get, ret. cbn.
      rewrite Hp. reflexivity. }
    rewrite Harm, Hwait.
    assert (Hmark : HandleKeypress_iter (press ESCAPE_CODE_COMING t1)
                      (mkKeyLocals false (t0 + INTERPRET_ESC_TIMEOUT_MS)) b
                    = (Ok (mkKeyLocals true 0), b)).
    { unfold HandleKeypress_iter. cbn [interpret_esc_timeout now_ms key press].
      apply Z.eqb_neq in Hnz. apply Z.ltb_lt in Hin. rewrite Hnz, Hin.
      reflexivity. }
    rewrite Hmark, Hwait.
    rewrite (HandleKeypress_iter_steps_up (press (lit "A") t2) b eq_refl Hopen).
    rewrite Hp, Hwait'. reflexivity.
  - intros Hp Hlate log Hlog. cbn [HandleKeypress_run].
    assert (Harm : HandleKeypress_iter (press ESCAPE_KEY t0)
                     (mkKeyLocals true 0) b
                   = (Ok (mkKeyLocals false (t0 + INTERPRET_ESC_TIMEOUT_MS)),
                      b)).
    { rewrite HandleKeypress_iter_interpreting.
      unfold HandleKeypress_interpret, bind, get, ret. cbn.
      rewrite Hp. reflexivity. }
    rewrite Harm, Hwait.
    assert (Hlapse : HandleKeypress_iter (press ESCAPE_CODE_COMING t1)
                       (mkKeyLocals false (t0 + INTERPRET_ESC_TIMEOUT_MS)) b
                     = HandleKeypress_iter (press ESCAPE_CODE_COMING t1)
                         (mkKeyLocals false 0) b).
    { unfold HandleKeypress_iter. cbn [interpret_esc_timeout now_ms key press
        interpret_mode].
      apply Z.ltb_ge in Hlate. rewrite Hlate, andb_false_r.
      rewrite Z.eqb_refl. reflexivity. }
    rewrite Hlapse.
    rewrite (HandleKeypress_iter_forwards (press ESCAPE_CODE_COMING t1) b
               [x5b] log Hp eq_refl eq_refl Hlog).
    unfold HandleKeypress_wait at 1. cbn [ctlc with_serial]. rewrite Hc.
    rewrite (HandleKeypress_iter_forwards (press (lit "A") t2)
               (with_serial (Some (log ++ [SerWrite [x5b]])) b) [x41]
               (log ++ [SerWrite [x5b]]) Hp eq_refl eq_refl eq_refl).
    unfold HandleKeypress_wait. cbn [ctlc with_serial]. rewrite Hc.
    rewrite <- app_assoc. reflexivity.
Qed.

Lemma up_arrow_steps_the_ladder_witness :
  index (snd (HandleKeypress_run
                [press ESCAPE_KEY 1000; press ESCAPE_CODE_COMING 1002;
                 press (lit "A") 1003]
                (Running (mkKeyLocals true 0))
                (session false true false true))) = 3
  /\ transport_out
       (snd (HandleKeypress_run
               [press ESCAPE_KEY 1000; press ESCAPE_CODE_COMING 1200;
                press (lit "A") 1201]
               (Running (mkKeyLocals true 0))
               (session false true false true))) = [x5b; x41].
Proof.
  destruct (up_arrow_steps_the_ladder (session false true false true)
              1000 1002 1003 eq_refl eq_refl) as (_ & Hin & _).
  destruct (up_arrow_steps_the_ladder (session false true false true)
              1000 1200 1201 eq_refl eq_refl) as (_ & _ & Hlate).
  split.
  - rewrite (Hin eq_refl eq_refl); [reflexivity | discriminate].
  - rewrite (Hlate eq_refl) with (log := [SerFlush;
                                         SerSetBaudrate (lit "115200");
                                         SerFlush]);
      [reflexivity | discriminate | reflexivity].
Defined.

(** ** The detector in its two modes *)

Lemma classify_manual b v l :
  auto_detect b = false ->
  classify b v l
  = mkDetectLocals (count l) (whitespace l) (punctuation l) (vowels l)
      (start_time l) (timed_out l) true.
Proof. intros H. unfold classify. rewrite H. reflexivity. Qed.

Lemma Detect_loop_manual_never_confirms ticks :
  forall l ts b lx,
    auto_detect b = false -> whitespace l = 0 ->
    fst (Detect_loop ticks l ts b) <> Ok (Some (ExitConfirmed, lx)).
Proof.
  induction ticks as [| tk ticks IH]; intros l ts b lx Hauto Hws.
  - simpl. discriminate.
  - cbn [Detect_loop]. unfold bind at 1.
    assert (Ka : auto_detect (snd (HandleKeypress_run (keys tk) ts b))
                 = auto_detect b)
      by (apply keeps_HandleKeypress_run; auto with keeps).
    destruct (HandleKeypress_run (keys tk) ts b) as [ts' b1].
    cbn [snd] in Ka. rewrite Hauto in Ka.
    assert (Ki : keeps auto_detect (Detect_iter tk l)) by frame.
    specialize (Ki b1). unfold bind.
    destruct (Detect_iter tk l b1) as [[c | e] b2] eqn:Eiter;
      [| simpl; discriminate].
    cbn [snd] in Ki. apply Detect_iter_outcome in Eiter. cbv zeta in Eiter.
    assert (Hnext : exists l1,
               (if truthy (rx tk)
                then verdict b1 tk (classify b1 (rx tk) (open_window tk l))
                else Next (mark_timed_out (open_window tk l))) = Next l1
               /\ whitespace l1 = 0).
    { assert (Hw : whitespace (open_window tk l) = 0).
      { unfold open_window. destruct (start_time l =? 0); exact Hws. }
      destruct (truthy (rx tk)).
      - apply verdict_without_whitespace.
        rewrite classify_manual by exact Ka. exact Hw.
      - eexists. split; [reflexivity | exact Hw]. }
    destruct Hnext as (l1 & Hn & Hl1). rewrite Hn in Eiter. subst c.
    destruct (ctlc _).
    + simpl. discriminate.
    + apply IH; [congruence | apply settled_whitespace; exact Hl1].
Qed.

Lemma Detect_settle_manual l b :
  auto_detect b = false -> snd (Detect_settle l b) = b.
Proof.
  intros H. unfold Detect_settle, bind, get, ret.
  rewrite H, andb_false_r. destruct (ctlc b); reflexivity.
Qed.

(** X16: without automatic detection the detector only echoes.  An
    iteration changes the object exactly as the echo of the received byte
    does, and not at all when nothing was received; and the loop never
    takes the success exit, whatever is received and whatever keys are
    handled: it can only end by cancellation. *)
Theorem manual_detector_only_echoes :
  forall b,
    auto_detect b = false ->
    (forall tk l,
       snd (Detect_iter tk l b)
       = (if truthy (rx tk) then snd (_print (rx tk) false b) else b))
    /\ (forall ticks ts lx,
          fst (Detect_loop ticks Detect_locals ts b)
          <> Ok (Some (ExitConfirmed, lx))).
Proof.
  intros b Hauto. split.
  - intros tk l. unfold Detect_iter, bind. rewrite Detect_receive_run.
    assert (Ka : keeps auto_detect (_print (rx tk) false)) by frame.
    destruct (truthy (rx tk)).
    + destruct (verdict b tk (classify b (rx tk) (open_window tk l))).
      * reflexivity.
      * apply Detect_settle_manual. rewrite Ka. exact Hauto.
    + apply Detect_settle_manual. exact Hauto.
  - intros ticks ts lx.
    apply Detect_loop_manual_never_confirms; [exact Hauto | reflexivity].
Qed.

Lemma manual_detector_only_echoes_witness :
  snd (Detect_iter (mkTick 1 (PyBytes []) 9 []) Detect_locals manual) = manual
  /\ fst (Detect_loop
            (map (fun c => mkTick 1 (PyStr [c]) 2 [])
               (lit "Hello, world. This is the text."))
            Detect_locals (HandleKeypress_start manual) manual)
     <> Ok (Some (ExitConfirmed, Detect_locals)).
Proof.
  destruct (manual_detector_only_echoes manual eq_refl) as (H1 & H2).
  split; [rewrite H1; reflexivity | apply H2].
Defined.

Lemma Detect_loop_auto_never_cancels ticks :
  forall l b lx,
    ctlc b = false ->
    fst (Detect_loop ticks l NoThread b) <> Ok (Some (ExitCancelled, lx)).
Proof.
  induction ticks as [| tk ticks IH]; intros l b lx Hc.
  - simpl. discriminate.
  - cbn [Detect_loop]. unfold bind at 1.
    rewrite HandleKeypress_run_no_thread.
    assert (Kc : keeps ctlc (Detect_iter tk l)) by frame.
    assert (Kp : keeps ctlc (_print (rx tk) false)) by frame.
    specialize (Kc b). specialize (Kp b). unfold bind.
    destruct (Detect_iter tk l b) as [[c | e] b2] eqn:Eiter;
      [| simpl; discriminate].
    cbn [snd] in Kc. apply Detect_iter_outcome in Eiter. cbv zeta in Eiter.
    assert (Hb2 : ctlc b2 = false) by congruence.
    destruct (truthy (rx tk)).
    + unfold verdict in Eiter.
      destruct (confirmed _ _).
      * destruct Eiter as (-> & _). unfold ret. cbn [fst]. discriminate.
      * rewrite Kp, Hc in Eiter.
        destruct (timeout _ <=? _); subst c; cbv beta iota; apply IH;
          exact Hb2.
    + rewrite Hc in Eiter. subst c. cbv beta iota. apply IH. exact Hb2.
Qed.

Lemma Detect_start_automatic b :
  auto_detect b = true -> Detect_start b = (Ok NoThread, b).
Proof.
  intros H. unfold Detect_start, bind, get. rewrite H. reflexivity.
Qed.

(** X17: automatic detection never ends on a port that delivers
    [bytes].  With automatic detection on, the port open, the cancel flag
    down and nothing typed, whatever [bytes] objects the reads return
    (empty ones included), [Detect] does not return: no byte is counted,
    so the success exit is never taken, and nothing raises the cancel
    flag. *)
Theorem automatic_detection_never_returns_on_bytes :
  forall b ticks,
    auto_detect b = true -> ctlc b = false ->
    ladder_ok b -> is_open b = true ->
    Forall (fun tk => (exists x, rx tk = PyBytes x) /\ keys tk = []) ticks ->
    fst (Detect ticks b) = Ok None.
Proof.
  intros b ticks Hauto Hc Hl Ho Hall.
  destruct (Detect_run_safe ticks b Hl Ho)
    as (ts & b1 & x & b2 & Hstart & Hloop & _ & Hx).
  rewrite (Detect_start_automatic b Hauto) in Hstart.
  injection Hstart as <- <-.
  destruct x as [[e lx] |]; [exfalso | rewrite Hx; reflexivity].
  destruct e.
  - apply (Detect_never_confirms_on_bytes ticks Detect_locals NoThread b lx);
      [| reflexivity | rewrite Hloop; reflexivity].
    eapply Forall_impl; [| exact Hall]. intros tk (H & _). exact H.
  - apply (Detect_loop_auto_never_cancels ticks Detect_locals b lx Hc).
    rewrite Hloop. reflexivity.
Qed.

Lemma automatic_detection_never_returns_on_bytes_witness :
  fst (Detect
         (map (fun x => mkTick 1 (PyBytes [x]) 2 [])
            [x54; x68; x65; x20; x71; x75; x69; x63; x6b; x2c; x20; x66;
             x6f; x78; x2e; x20; x54; x68; x65; x20; x71; x75; x69; x63;
             x6b; x2c; x20; x66; x6f; x78; x2e])
         automatic)
  = Ok None.
Proof.
  apply automatic_detection_never_returns_on_bytes;
    try reflexivity.
  - vm_compute. repeat split; (reflexivity || discriminate).
  - repeat constructor; eexists; reflexivity.
Defined.

Lemma Detect_iter_silent tk l b :
  silent tk -> auto_detect b = true -> ctlc b = false ->
  is_open b = true ->
  exists l', Detect_iter tk l b = (Ok (Next l'), snd (NextBaudrate (-1) b)).
Proof.
  intros Hs Hauto Hc Hopen. unfold silent in Hs.
  unfold Detect_iter. unfold bind at 1. rewrite Detect_receive_run, Hs.
  unfold Detect_settle. unfold bind at 1. unfold get at 1.
  cbn [timed_out mark_timed_out]. rewrite Hauto. cbn [andb].
  pose proof (NextBaudrate_returns (-1) b Hopen) as Hret.
  assert (Kc : keeps ctlc (NextBaudrate (-1))) by frame.
  specialize (Kc b). unfold bind, get, ret.
  destruct (NextBaudrate (-1) b) as [[[] | e] b1]; cbn [fst snd] in *;
    [| discriminate].
  rewrite Kc, Hc. eexists. reflexivity.
Qed.

Lemma Detect_loop_silent ticks :
  forall l b,
    Forall silent ticks -> auto_detect b = true -> ctlc b = false ->
    is_open b = true ->
    Detect_loop ticks l NoThread b
    = (Ok None, steps (List.length ticks) (-1) b).
Proof.
  induction ticks as [| tk ticks IH]; intros l b Hall Hauto Hc Hopen.
  - reflexivity.
  - inversion Hall as [| ? ? Hs Hrest]; subst.
    cbn [Detect_loop]. unfold bind at 1.
    rewrite HandleKeypress_run_no_thread. unfold bind.
    destruct (Detect_iter_silent tk l b Hs Hauto Hc Hopen) as (l' & E).
    rewrite E. cbn [List.length steps].
    assert (Ka : keeps auto_detect (NextBaudrate (-1))) by frame.
    assert (Kc : keeps ctlc (NextBaudrate (-1))) by frame.
    assert (Ko : keeps is_open (NextBaudrate (-1))) by frame.
    apply IH; [exact Hrest | rewrite Ka | rewrite Kc | rewrite Ko];
      assumption.
Qed.

(** X18: on a silent line the automatic detector goes down the list.
    Every read that times out is answered by one [NextBaudrate(-1)], so
    after [n] silent reads the object is what [n] such calls make of it,
    the index has moved by [n] modulo the length of the list, and
    [Detect] is still running. *)
Theorem silent_line_rotates_the_ladder :
  forall ticks b,
    auto_detect b = true -> ctlc b = false -> is_open b = true ->
    in_ladder (index b) -> Forall silent ticks ->
    Detect ticks b = (Ok None, steps (List.length ticks) (-1) b)
    /\ index (snd (Detect ticks b))
       = (index b + Z.of_nat (List.length ticks)) mod py_len BAUDRATES.
Proof.
  intros ticks b Hauto Hc Hopen Hin Hall.
  assert (H : Detect ticks b = (Ok None, steps (List.length ticks) (-1) b)).
  { unfold Detect, bind. rewrite (Detect_start_automatic b Hauto).
    rewrite (Detect_loop_silent ticks Detect_locals b Hall Hauto Hc Hopen).
    reflexivity. }
  split; [exact H |]. rewrite H. cbn [snd].
  rewrite steps_index by (assumption || lia). f_equal. lia.
Qed.

Lemma silent_line_rotates_the_ladder_witness :
  index (snd (Detect [mkTick 1 (PyBytes []) 6 []; mkTick 6 (PyBytes []) 11 [];
                      mkTick 11 (PyBytes []) 16 []] automatic)) = 7.
Proof.
  assert (Hin : in_ladder (index automatic))
    by (vm_compute; split; [discriminate | reflexivity]).
  assert (Hall : Forall silent
                   [mkTick 1 (PyBytes []) 6 []; mkTick 6 (PyBytes []) 11 [];
                    mkTick 11 (PyBytes []) 16 []])
    by (repeat constructor).
  destruct (silent_line_rotates_the_ladder _ automatic eq_refl eq_refl eq_refl
              Hin Hall) as (_ & H).
  rewrite H. reflexivity.
Defined.

(** ** The counters of the detector *)

Lemma counters_ok_open_window tk l :
  counters_ok l -> counters_ok (open_window tk l).
Proof.
  unfold open_window, counters_ok. destruct (start_time l =? 0); auto.
Qed.

Lemma counters_ok_classify b v l :
  counters_ok l -> counters_ok (classify b v l).
Proof.
  unfold classify, counters_ok. intros H.
  destruct (auto_detect b && py_in v (valid_characters b));
    [destruct (py_in v WHITESPACE);
     [| destruct (py_in v PUNCTUATION); [| destruct (py_in v VOWELS)]] |];
    cbn [count whitespace punctuation vowels]; lia.
Qed.

Lemma counters_ok_verdict b tk l l' :
  counters_ok l -> verdict b tk l = Next l' -> counters_ok l'.
Proof.
  unfold verdict. intros H.
  destruct (confirmed b l); [discriminate |].
  destruct (timeout b <=? clock_check tk - start_time l);
    intros [= <-]; exact H.
Qed.

Lemma counters_ok_settled b l : counters_ok l -> counters_ok (settled b l).
Proof.
  unfold settled, cleared, rotated, counters_ok. intros H.
  destruct (timed_out l && auto_detect b);
    cbn [clear_counters]; [| destruct (clear_counters l)];
    cbn [count whitespace punctuation vowels]; lia.
Qed.

(** X19: the counters stay consistent.  Whenever [Detect] is at the top
    of its loop, none of the three category counters is negative and
    together they are at most the count of valid characters: a character
    is counted in at most one category, and the four are only ever
    cleared together. *)
Theorem counters_stay_consistent :
  forall b0 l ts b, at_loop_head b0 l ts b -> counters_ok l.
Proof.
  intros b0 l ts b H.
  induction H as [ts b Hstart | tk l ts b ts' b1 l' b' Hhead IH Hrun Hiter].
  - unfold counters_ok, Detect_locals. cbn. lia.
  - apply Detect_iter_outcome in Hiter. cbv zeta in Hiter.
    pose proof (counters_ok_open_window tk l IH) as Hw.
    destruct (truthy (rx tk)).
    + destruct (verdict b1 tk (classify b1 (rx tk) (open_window tk l)))
        as [e l1 | l1] eqn:Ev.
      * destruct Hiter as (Hc & _). discriminate.
      * apply counters_ok_verdict in Ev;
          [| apply counters_ok_classify; exact Hw].
        destruct (ctlc _); [discriminate |].
        injection Hiter as ->. apply counters_ok_settled. exact Ev.
    + destruct (ctlc b1); [discriminate |].
      injection Hiter as ->. apply counters_ok_settled. exact Hw.
Qed.

Lemma counters_stay_consistent_witness :
  counters_ok (mkDetectLocals 1 0 0 1 1 false false).
Proof.
  apply (counters_stay_consistent automatic _ NoThread
           (snd (_print (PyStr (lit "e")) false automatic))).
  apply (head_next automatic (mkTick 1 (PyStr (lit "e")) 2 [])
           Detect_locals NoThread automatic NoThread automatic).
  - apply head_first. vm_compute. reflexivity.
  - reflexivity.
  - vm_compute. reflexivity.
Defined.

(** ** The echo: what it touches and how much it keeps pending *)

Lemma _print_try_run data nl b :
  snd (_print_try data nl b)
  = match decode data with
    | Raise _ => b
    | Ok buf =>
        if nl || allow_newline b then
          snd (_print_write (negb (contains LF buf))
                 (with_buffer (buffer b ++ buf) b))
        else if contains LF buf then
          if str_eqb [LF] buf then with_buffer (newline_sub b) b
          else if contains LF (strip buf) then
            snd (_print_write true
                   (with_buffer
                      (newline_sub b
                       ++ py_slice_from (strip buf) (rfind LF (strip buf) + 1))
                      b))
          else snd (_print_write true (with_buffer (strip buf) b))
        else snd (_print_write true (with_buffer (buffer b ++ buf) b))
    end.
Proof.
  unfold _print_try, bind, lift, get, modify.
  destruct (decode data) as [buf | e]; [| reflexivity].
  destruct (nl || allow_newline b); [reflexivity |].
  destruct (contains LF buf); [| reflexivity].
  destruct (str_eqb [LF] buf); [reflexivity |].
  destruct (contains LF (strip buf)); reflexivity.
Qed.

Lemma _print_write_pending r x b :
  max_display_chars (snd (_print_write r (with_buffer x b)))
  = max_display_chars b
  /\ newline_sub (snd (_print_write r (with_buffer x b))) = newline_sub b
  /\ (buffer (snd (_print_write r (with_buffer x b))) = []
      \/ (buffer (snd (_print_write r (with_buffer x b))) = x
          /\ py_len x < max_display_chars b)).
Proof.
  assert (Km : keeps max_display_chars (_print_write r)) by frame.
  assert (Kn : keeps newline_sub (_print_write r)) by frame.
  rewrite Km, Kn, _print_write_buffer.
  split; [reflexivity |]. split; [reflexivity |].
  cbn [max_display_chars buffer with_buffer].
  destruct (max_display_chars b <=? py_len x) eqn:E; cbn [orb]; [auto |].
  destruct r; cbn [negb]; [| auto].
  right. split; [reflexivity |]. apply Z.leb_gt. exact E.
Qed.

Lemma _print_pending data nl b :
  max_display_chars (snd (_print data nl b)) = max_display_chars b
  /\ newline_sub (snd (_print data nl b)) = newline_sub b
  /\ (buffer (snd (_print data nl b)) = buffer b
      \/ buffer (snd (_print data nl b)) = newline_sub b
      \/ buffer (snd (_print data nl b)) = []
      \/ py_len (buffer (snd (_print data nl b))) < max_display_chars b).
Proof.
  assert (Hw : forall r x,
             max_display_chars (snd (_print_write r (with_buffer x b)))
             = max_display_chars b
             /\ newline_sub (snd (_print_write r (with_buffer x b)))
                = newline_sub b
             /\ (buffer (snd (_print_write r (with_buffer x b))) = buffer b
                 \/ buffer (snd (_print_write r (with_buffer x b)))
                    = newline_sub b
                 \/ buffer (snd (_print_write r (with_buffer x b))) = []
                 \/ py_len (buffer (snd (_print_write r (with_buffer x b))))
                    < max_display_chars b)).
  { intros r x. destruct (_print_write_pending r x b) as (H1 & H2 & H3).
    split; [exact H1 |]. split; [exact H2 |].
    destruct H3 as [H3 | (H3 & H4)]; [auto |].
    right. right. right. rewrite H3. exact H4. }
  unfold _print, bind, get, try_except_pass, ret.
  destruct (verbose b); cbn [snd]; [| auto].
  rewrite _print_try_run.
  destruct (decode data) as [buf | e]; [| auto].
  destruct (nl || allow_newline b); [apply Hw |].
  destruct (contains LF buf); [| apply Hw].
  destruct (str_eqb [LF] buf); [auto |].
  destruct (contains LF (strip buf)); apply Hw.
Qed.

(** X20: the echo touches nothing but the display.  Whatever it is
    given, [_print] changes at most the pending buffer, the text on
    standard error and the capping flag: the port, the ladder, the toggle
    pair, the cancel flag and the settings are as before.  With echo off
    it changes nothing at all. *)
Theorem print_only_touches_the_display :
  forall data nl b,
    snd (_print data nl b)
    = with_buffer (buffer (snd (_print data nl b)))
        (with_stderr (stderr (snd (_print data nl b)))
           (with_stderr_needs_capping
              (stderr_needs_capping (snd (_print data nl b))) b))
    /\ (verbose b = false -> snd (_print data nl b) = b).
Proof.
  intros data nl b. split.
  - assert (K1 : keeps threshold (_print data nl)) by frame.
    assert (K2 : keeps timeout (_print data nl)) by frame.
    assert (K3 : keeps auto_detect (_print data nl)) by frame.
    assert (K4 : keeps verbose (_print data nl)) by frame.
    assert (K5 : keeps index (_print data nl)) by frame.
    assert (K6 : keeps valid_characters (_print data nl)) by frame.
    assert (K7 : keeps ctlc (_print data nl)) by frame.
    assert (K8 : keeps thread (_print data nl)) by frame.
    assert (K9 : keeps max_display_chars (_print data nl)) by frame.
    assert (K10 : keeps newline_sub (_print data nl)) by frame.
    assert (K11 : keeps allow_newline (_print data nl)) by frame.
    assert (K12 : keeps passthrough_keys (_print data nl)) by frame.
    assert (K13 : keeps toggle_bauds (_print data nl)) by frame.
    assert (K14 : keeps serial (_print data nl)) by frame.
    specialize (K1 b). specialize (K2 b). specialize (K3 b).
    specialize (K4 b). specialize (K5 b). specialize (K6 b).
    specialize (K7 b). specialize (K8 b). specialize (K9 b).
    specialize (K10 b). specialize (K11 b). specialize (K12 b).
    specialize (K13 b). specialize (K14 b).
    destruct (snd (_print data nl b)), b. cbn in *. subst. reflexivity.
  - intros Hv. unfold _print, bind, get, ret. rewrite Hv. reflexivity.
Qed.

Lemma print_only_touches_the_display_witness :
  snd (_print (PyBytes [x61]) false (session false false false false))
  = session false false false false.
Proof.
  apply (print_only_touches_the_display (PyBytes [x61]) false
           (session false false false false)).
  reflexivity.
Defined.

(** X21: the pending echo stays short.  With the display constants of
    [__init__], whatever chunks are echoed and in whichever mode, the
    text kept in [self.buffer] is never longer than the line-clear
    sequence (82 characters): a line that reaches the display width is
    dropped from the buffer as soon as it is written. *)
Theorem print_pending_is_bounded :
  forall chunks b,
    display_ok b -> py_len (buffer b) <= 82 ->
    display_ok
      (fold_left (fun b c => snd (_print (fst c) (snd c) b)) chunks b)
    /\ py_len
         (buffer
            (fold_left (fun b c => snd (_print (fst c) (snd c) b)) chunks b))
       <= 82.
Proof.
  induction chunks as [| [data nl] chunks IH]; intros b Hd Hlen.
  - split; assumption.
  - cbn [fold_left fst snd]. destruct Hd as (Hmax & Hsub).
    destruct (_print_pending data nl b) as (Hm & Hn & Hb).
    apply IH.
    + split; [rewrite Hm; exact Hmax | rewrite Hn; exact Hsub].
    + destruct Hb as [-> | [-> | [-> | Hb]]].
      * exact Hlen.
      * rewrite Hsub. vm_compute. discriminate.
      * vm_compute. discriminate.
      * lia.
Qed.

Lemma print_pending_is_bounded_witness :
  py_len
    (buffer
       (fold_left (fun b c => snd (_print (fst c) (snd c) b))
          [(PyBytes [x0a], false); (PyBytes [x61], false)] manual))
  <= 82.
Proof.
  assert (Hd : display_ok manual) by (split; reflexivity).
  assert (Hlen : py_len (buffer manual) <= 82) by (vm_compute; discriminate).
  exact (proj2 (print_pending_is_bounded
                  [(PyBytes [x0a], false); (PyBytes [x61], false)]
                  manual Hd Hlen)).
Defined.

(** ** The minicom configuration *)

Lemma MinicomConfig_text port self_name save_error name b w r :
  py_getitem BAUDRATES (index b) = Ok r ->
  exists ok,
    fst (fst (MinicomConfig port self_name save_error name b w))
    = Ok (ok, config_text port r).
Proof.
  intros Hr. unfold MinicomConfig. rewrite Hr. cbv zeta.
  destruct (match name with None => self_name | Some _ => name end)
    as [[| c n] |]; try (exists true; reflexivity).
  destruct (save_error _); [exists false | exists true]; reflexivity.
Qed.

(** X22: without a name nothing is saved.  When the name is empty, or
    none is given and the object has none, [MinicomConfig] reports
    success and returns the configuration text without touching the disk,
    standard output or the object.  An empty name given explicitly is not
    replaced by the name of the object. *)
Theorem MinicomConfig_without_a_name :
  forall port self_name save_error name b w r,
    py_getitem BAUDRATES (index b) = Ok r ->
    name = Some [] \/ (name = None /\ (self_name = None \/ self_name = Some []))
    ->
    MinicomConfig port self_name save_error name b w
    = (Ok (true, config_text port r), b, w).
Proof.
  intros port self_name save_error name b w r Hr Hname.
  unfold MinicomConfig. rewrite Hr. cbv zeta.
  destruct Hname as [-> | (-> & [-> | ->])]; reflexivity.
Qed.

Lemma MinicomConfig_without_a_name_witness :
  MinicomConfig (Some (lit "/dev/ttyUSB0")) (Some (lit "router"))
    (fun _ => None) (Some []) manual (mkOutside [] [])
  = (Ok (true, config_text (Some (lit "/dev/ttyUSB0")) (lit "115200")),
     manual, mkOutside [] []).
Proof.
  apply MinicomConfig_without_a_name; [reflexivity | left; reflexivity].
Defined.

(** X23: saving under a name.  With a non-empty name (given, or the
    object's when none is given) the text is written to
    [/etc/minicom/minirc.<name>].  When that fails the call still returns
    the text, with success [False]; the error goes to standard output,
    behind the two capping newlines on standard error when a status line
    is showing, and neither the ladder nor the port is touched. *)
Theorem MinicomConfig_saves_under_the_name :
  forall port self_name save_error name n b w r,
    py_getitem BAUDRATES (index b) = Ok r ->
    n <> [] ->
    name = Some n \/ (name = None /\ self_name = Some n) ->
    (save_error (lit "/etc/minicom/minirc." ++ n) = None ->
     MinicomConfig port self_name save_error name b w
     = (Ok (true, config_text port r), b,
        mkOutside
          (files w
           ++ [(lit "/etc/minicom/minirc." ++ n, config_text port r)])
          (stdout w)))
    /\ (forall msg,
          save_error (lit "/etc/minicom/minirc." ++ n) = Some msg ->
          fst (fst (MinicomConfig port self_name save_error name b w))
          = Ok (false, config_text port r)
          /\ stdout (snd (MinicomConfig port self_name save_error name b w))
             = stdout w ++ lit "Error saving minicom config file: " ++ msg
                        ++ [LF]
          /\ stderr (snd (fst (MinicomConfig port self_name save_error name
                                 b w)))
             = stderr b ++ cap_text b
          /\ stderr_needs_capping
               (snd (fst (MinicomConfig port self_name save_error name b w)))
             = false
          /\ index (snd (fst (MinicomConfig port self_name save_error name
                                b w))) = index b
          /\ serial (snd (fst (MinicomConfig port self_name save_error name
                                 b w))) = serial b).
Proof.
  intros port self_name save_error name n b w r Hr Hn Hname.
  destruct n as [| c n]; [contradiction |].
  unfold MinicomConfig. rewrite Hr.
  destruct Hname as [-> | (-> & ->)]; cbv beta iota zeta;
    (split;
     [ intros Hs; rewrite Hs; reflexivity
     | intros msg Hs; rewrite Hs; cbn [fst snd stdout];
       split; [reflexivity |]; split; [reflexivity |];
       unfold cap_text, cap_stderr, bind, stderr_write, modify;
       destruct (stderr_needs_capping b) eqn:Ec; cbn [fst snd];
       repeat split; try reflexivity; try exact Ec;
       symmetry; apply app_nil_r ]).
Qed.

Lemma MinicomConfig_saves_under_the_name_witness :
  fst (fst (MinicomConfig (Some (lit "/dev/ttyUSB0")) None
              (fun _ => Some (lit "Permission denied"))
              (Some (lit "router")) manual (mkOutside [] [])))
  = Ok (false, config_text (Some (lit "/dev/ttyUSB0")) (lit "115200"))
  /\ stdout (snd (MinicomConfig (Some (lit "/dev/ttyUSB0")) None
                    (fun _ => Some (lit "Permission denied"))
                    (Some (lit "router")) manual (mkOutside [] [])))
     = lit "Error saving minicom config file: Permission denied" ++ [LF].
Proof.
  assert (Hn : lit "router" <> []) by discriminate.
  destruct (MinicomConfig_saves_under_the_name
              (Some (lit "/dev/ttyUSB0")) None
              (fun _ => Some (lit "Permission denied"))
              (Some (lit "router")) (lit "router") manual (mkOutside [] [])
              (lit "115200") eq_refl Hn (or_introl eq_refl))
    as (_ & H).
  destruct (H (lit "Permission denied") eq_refl) as (H1 & H2 & _).
  split; [exact H1 | exact H2].
Defined.

(** X24: the configuration records the detected rate.  When [Detect],
    run on a session in step, returns [r], the port is set to [r] and
    the text [MinicomConfig] produces afterwards is the configuration
    for [r], whatever the name and whether or not the save succeeds.
    Only the index is consulted, so this holds for any later state with
    the same index. *)
Theorem MinicomConfig_records_the_detected_rate :
  forall b ticks r port self_name save_error name w b2,
    session_ok b ->
    fst (Detect ticks b) = Ok (Some r) ->
    index b2 = index (snd (Detect ticks b)) ->
    port_rate (snd (Detect ticks b)) = Some r
    /\ exists ok,
         fst (fst (MinicomConfig port self_name save_error name b2 w))
         = Ok (ok, config_text port r).
Proof.
  intros b ticks r port self_name save_error name w b2 Hb Hr Hi.
  destruct (Detect_session_ok b ticks Hb) as (_ & H).
  destruct (H r Hr) as (Hget & Hp).
  split; [exact Hp |].
  apply MinicomConfig_text. rewrite Hi. exact Hget.
Qed.

Lemma MinicomConfig_records_the_detected_rate_witness :
  exists ok,
    fst (fst (MinicomConfig (Some (lit "/dev/ttyUSB0")) None (fun _ => None)
                (Some (lit "router"))
                (snd (Detect [mkTick 1 (PyBytes [x61]) 2
                                [press (lit "d") 0; press CONTROL_C 0]]
                        manual))
                (mkOutside [] [])))
    = Ok (ok, config_text (Some (lit "/dev/ttyUSB0")) (lit "76800")).
Proof.
  assert (Hok : session_ok manual).
  { destruct manual_session_ok as (b & Hb & ->). exact Hb. }
  assert (Hr : fst (Detect [mkTick 1 (PyBytes [x61]) 2
                              [press (lit "d") 0; press CONTROL_C 0]]
                      manual) = Ok (Some (lit "76800")))
    by (vm_compute; reflexivity).
  destruct (MinicomConfig_records_the_detected_rate manual _ _
              (Some (lit "/dev/ttyUSB0")) None (fun _ => None)
              (Some (lit "router")) (mkOutside [] []) _ Hok Hr eq_refl)
    as (_ & H).
  exact H.
Defined.

(** ** The interpreter: keys that are no rate command *)

Section OtherKeys.
Context {X : Type} (proj : Baudrate -> X).
Hypothesis proj_ctlc : ignores proj (@with_ctlc).
Hypothesis proj_stderr : ignores proj (@with_stderr).
Hypothesis proj_capping : ignores proj (@with_stderr_needs_capping).
Hypothesis proj_write : forall data, keeps proj (serial_do (SerWrite data)).

Lemma keeps_interpret_other ev l :
  py_in (key ev) UPKEYS = false ->
  py_in (key ev) DOWNKEYS = false ->
  py_eq (key ev) (PyStr [SP]) = false ->
  keeps proj (HandleKeypress_interpret ev l).
Proof.
  intros H1 H2 H3. unfold HandleKeypress_interpret.
  rewrite H1, H2, H3. keeps_tac.
Qed.

Lemma keeps_iter_other ev l :
  py_in (key ev) UPKEYS = false ->
  py_in (key ev) DOWNKEYS = false ->
  py_eq (key ev) (PyStr [SP]) = false ->
  keeps proj (HandleKeypress_iter ev l).
Proof.
  intros H1 H2 H3. unfold HandleKeypress_iter.
  pose proof (fun l => keeps_interpret_other ev l H1 H2 H3) as K.
  keeps_tac.
Qed.

End OtherKeys.

(** X25: only the rate keys change the rate.  A key that is neither an
    up key, a down key nor the space bar never moves the ladder, the
    toggle pair or the rate of the port, in whichever mode the
    interpreter is and whether or not an escape deadline is armed. *)
Theorem other_keys_leave_the_rate :
  forall ev l b,
    py_in (key ev) UPKEYS = false ->
    py_in (key ev) DOWNKEYS = false ->
    py_eq (key ev) (PyStr [SP]) = false ->
    index (snd (HandleKeypress_iter ev l b)) = index b
    /\ toggle_bauds (snd (HandleKeypress_iter ev l b)) = toggle_bauds b
    /\ port_rate (snd (HandleKeypress_iter ev l b)) = port_rate b.
Proof.
  intros ev l b H1 H2 H3.
  split; [| split]; apply keeps_iter_other; auto with keeps;
    try (intros ? ?; reflexivity).
Qed.

Lemma other_keys_leave_the_rate_witness :
  port_rate (snd (HandleKeypress_iter (press (lit "h") 0)
                    (mkKeyLocals true 0) manual))
  = Some (lit "115200").
Proof.
  destruct (other_keys_leave_the_rate (press (lit "h") 0)
              (mkKeyLocals true 0) manual eq_refl eq_refl eq_refl)
    as (_ & _ & H).
  rewrite H. reflexivity.
Defined.

(** ** Manual mode: the received data has no say *)

Lemma rate_view_eq b1 b2 :
  rate_view b1 = rate_view b2 ->
  index b1 = index b2 /\ toggle_bauds b1 = toggle_bauds b2
  /\ serial b1 = serial b2 /\ ctlc b1 = ctlc b2
  /\ passthrough_keys b1 = passthrough_keys b2.
Proof. unfold rate_view. intros [= H1 H2 H3 H4 H5]. auto. Qed.

Lemma display_only_ret : display_only (ret tt).
Proof. intro b. split; reflexivity. Qed.

Lemma display_only_stderr_write s : display_only (stderr_write s).
Proof. intro b. split; reflexivity. Qed.

Lemma display_only_capping v :
  display_only (modify (with_stderr_needs_capping v)).
Proof. intro b. split; reflexivity. Qed.

Lemma display_only_bind (m1 m2 : M unit) :
  display_only m1 -> display_only m2 -> display_only (m1 ;; m2).
Proof.
  intros H1 H2 b. unfold bind. destruct (H1 b) as (E1 & V1).
  destruct (m1 b) as [[[] | e] b']; cbn [fst snd] in *; [| discriminate].
  destruct (H2 b') as (E2 & V2). split; [exact E2 | congruence].
Qed.

Lemma display_only_cap_stderr : display_only cap_stderr.
Proof.
  unfold cap_stderr. apply display_only_bind;
    [apply display_only_stderr_write | apply display_only_capping].
Qed.

Lemma display_only_get (k : Baudrate -> M unit) :
  (forall s, display_only (k s)) -> display_only (self <- get ;; k self).
Proof. intros H b. unfold bind, get. apply H. Qed.

Ltac display_step :=
  lazymatch goal with
  | |- display_only (ret tt) => apply display_only_ret
  | |- display_only (stderr_write _) => apply display_only_stderr_write
  | |- display_only (modify (with_stderr_needs_capping _)) =>
      apply display_only_capping
  | |- display_only cap_stderr => apply display_only_cap_stderr
  | |- display_only (bind get _) => apply display_only_get; intros ?
  | |- display_only (bind _ _) => apply display_only_bind
  | |- display_only (if ?c then _ else _) => destruct c
  end.

Ltac display_tac := repeat display_step.

Lemma display_only_help_keys : display_only help_keys.
Proof. unfold help_keys. cbv zeta. display_tac. Qed.

Lemma display_only__print data nl : display_only (_print data nl).
Proof.
  intro b. split; [apply _print_returns |].
  assert (K1 : keeps index (_print data nl)) by frame.
  assert (K2 : keeps toggle_bauds (_print data nl)) by frame.
  assert (K3 : keeps serial (_print data nl)) by frame.
  assert (K4 : keeps ctlc (_print data nl)) by frame.
  assert (K5 : keeps passthrough_keys (_print data nl)) by frame.
  unfold rate_view. rewrite K1, K2, K3, K4, K5. reflexivity.
Qed.

Lemma agree_ret A (a : A) : agree (ret a) (ret a).
Proof. intros b1 b2 H. split; [reflexivity | exact H]. Qed.

Lemma agree_lift A (r : result A) : agree (lift r) (lift r).
Proof. intros b1 b2 H. split; [reflexivity | exact H]. Qed.

Lemma agree_bind A B (m1 m2 : M A) (k1 k2 : A -> M B) :
  agree m1 m2 -> (forall a, agree (k1 a) (k2 a)) ->
  agree (bind m1 k1) (bind m2 k2).
Proof.
  intros Hm Hk b1 b2 H. unfold bind. destruct (Hm b1 b2 H) as (E & V).
  destruct (m1 b1) as [[a1 | e1] b1'], (m2 b2) as [[a2 | e2] b2'];
    cbn [fst snd] in *; try discriminate.
  - injection E as <-. apply Hk. exact V.
  - injection E as <-. split; [reflexivity | exact V].
Qed.

Lemma agree_get A (k1 k2 : Baudrate -> M A) :
  (forall s1 s2, rate_view s1 = rate_view s2 -> agree (k1 s1) (k2 s2)) ->
  agree (bind get k1) (bind get k2).
Proof. intros Hk b1 b2 H. unfold bind, get. apply Hk; exact H. Qed.

Lemma agree_display (m1 m2 : M unit) :
  display_only m1 -> display_only m2 -> agree m1 m2.
Proof.
  intros H1 H2 b1 b2 H. destruct (H1 b1) as (E1 & V1), (H2 b2) as (E2 & V2).
  split; congruence.
Qed.

Lemma agree_modify (f1 f2 : Baudrate -> Baudrate) :
  (forall b1 b2,
     rate_view b1 = rate_view b2 -> rate_view (f1 b1) = rate_view (f2 b2)) ->
  agree (modify f1) (modify f2).
Proof. intros Hf b1 b2 H. split; [reflexivity | apply Hf; exact H]. Qed.

Lemma agree_serial_do c : agree (serial_do c) (serial_do c).
Proof.
  intros b1 b2 H. destruct (rate_view_eq b1 b2 H) as (E1 & E2 & E3 & E4 & E5).
  unfold serial_do. rewrite <- E3.
  destruct (serial b1) as [log |]; cbn [fst snd]; [| auto].
  split; [reflexivity |]. unfold rate_view. cbn. congruence.
Qed.

Create HintDb agree.
#[global] Hint Resolve agree_ret agree_lift agree_serial_do : agree.

Ltac agree_step :=
  match goal with
  | |- agree _ _ => solve [auto with agree]
  | |- agree (bind get _) (bind get _) =>
      let s1 := fresh "s" in
      let s2 := fresh "s" in
      let Hs := fresh "Hs" in
      let E1 := fresh "E" in
      let E2 := fresh "E" in
      let E3 := fresh "E" in
      let E4 := fresh "E" in
      let E5 := fresh "E" in
      apply agree_get; intros s1 s2 Hs;
      destruct (rate_view_eq s1 s2 Hs) as (E1 & E2 & E3 & E4 & E5);
      rewrite <- ?E1, <- ?E2, <- ?E3, <- ?E4, <- ?E5
  | |- agree (bind _ _) (bind _ _) => apply agree_bind; [| intros ?]
  | |- agree (modify _) (modify _) =>
      let H := fresh "H" in
      let E1 := fresh "E" in
      let E2 := fresh "E" in
      let E3 := fresh "E" in
      let E4 := fresh "E" in
      let E5 := fresh "E" in
      apply agree_modify; intros ? ? H;
      destruct (rate_view_eq _ _ H) as (E1 & E2 & E3 & E4 & E5);
      unfold rate_view; cbn; congruence
  | |- agree (if ?c then _ else _) (if ?c then _ else _) => destruct c
  | |- agree _ _ => apply agree_display; solve [display_tac]
  | |- agree _ _ => progress cbv zeta
  end.

Ltac agree_tac := repeat agree_step.

Lemma agree_set_baud_from_index arg :
  agree (set_baud_from_index arg) (set_baud_from_index arg).
Proof. unfold set_baud_from_index. agree_tac. Qed.
#[global] Hint Resolve agree_set_baud_from_index : agree.

Lemma agree_NextBaudrate updn : agree (NextBaudrate updn) (NextBaudrate updn).
Proof. unfold NextBaudrate. agree_tac. Qed.
#[global] Hint Resolve agree_NextBaudrate : agree.

Lemma agree_toggle_baud : agree toggle_baud toggle_baud.
Proof. unfold toggle_baud. agree_tac. Qed.
#[global] Hint Resolve agree_toggle_baud : agree.

Lemma agree_help_keys : agree help_keys help_keys.
Proof. apply agree_display; apply display_only_help_keys. Qed.
#[global] Hint Resolve agree_help_keys : agree.

Lemma agree_HandleKeypress_interpret ev l :
  agree (HandleKeypress_interpret ev l) (HandleKeypress_interpret ev l).
Proof. unfold HandleKeypress_interpret. agree_tac. Qed.
#[global] Hint Resolve agree_HandleKeypress_interpret : agree.

Lemma agree_HandleKeypress_iter ev l :
  agree (HandleKeypress_iter ev l) (HandleKeypress_iter ev l).
Proof. unfold HandleKeypress_iter. agree_tac. Qed.

Lemma HandleKeypress_run_agree evs :
  forall ts b1 b2,
    rate_view b1 = rate_view b2 ->
    fst (HandleKeypress_run evs ts b1) = fst (HandleKeypress_run evs ts b2)
    /\ rate_view (snd (HandleKeypress_run evs ts b1))
       = rate_view (snd (HandleKeypress_run evs ts b2)).
Proof.
  induction evs as [| ev evs IH]; intros ts b1 b2 H.
  - destruct ts; split; (reflexivity || exact H).
  - destruct ts as [| l |]; cbn [HandleKeypress_run];
      try (split; (reflexivity || exact H)).
    destruct (agree_HandleKeypress_iter ev l b1 b2 H) as (E & V).
    destruct (HandleKeypress_iter ev l b1) as [[l1 | e1] b1'],
             (HandleKeypress_iter ev l b2) as [[l2 | e2] b2'];
      cbn [fst snd] in *; try discriminate.
    + injection E as <-.
      destruct (rate_view_eq _ _ V) as (_ & _ & _ & Ec & _).
      unfold HandleKeypress_wait. rewrite <- Ec. apply IH. exact V.
    + split; [reflexivity | exact V].
Qed.

Lemma Detect_iter_manual tk l b :
  auto_detect b = false -> whitespace l = 0 ->
  exists l' b',
    Detect_iter tk l b
    = (Ok (if ctlc b then Break ExitCancelled l' else Next l'), b')
    /\ whitespace l' = 0 /\ rate_view b' = rate_view b
    /\ auto_detect b' = false.
Proof.
  intros Hauto Hws.
  assert (Hw : whitespace (open_window tk l) = 0).
  { unfold open_window. destruct (start_time l =? 0); exact Hws. }
  assert (Hsettle : forall l1 b1,
             auto_detect b1 = false -> whitespace l1 = 0 ->
             exists l', Detect_settle l1 b1
                        = (Ok (if ctlc b1 then Break ExitCancelled l'
                               else Next l'), b1)
                        /\ whitespace l' = 0).
  { intros l1 b1 Ha Hl. unfold Detect_settle, bind, get, ret.
    rewrite Ha, andb_false_r. exists (cleared l1). split.
    - destruct (ctlc b1); reflexivity.
    - unfold cleared. destruct (clear_counters l1); [reflexivity | exact Hl]. }
  unfold Detect_iter, bind. rewrite Detect_receive_run.
  destruct (truthy (rx tk)).
  - destruct (verdict_without_whitespace b tk
                (classify b (rx tk) (open_window tk l))) as (l1 & Hv & Hl1).
    { rewrite classify_manual by exact Hauto. exact Hw. }
    rewrite Hv.
    destruct (display_only__print (rx tk) false b) as (_ & Vp).
    assert (Ka : keeps auto_detect (_print (rx tk) false)) by frame.
    destruct (Hsettle l1 (snd (_print (rx tk) false b))) as (l' & Hs & Hl');
      [rewrite Ka; exact Hauto | exact Hl1 |].
    rewrite Hs. destruct (rate_view_eq _ _ Vp) as (_ & _ & _ & Ec & _).
    rewrite Ec. exists l', (snd (_print (rx tk) false b)).
    split; [reflexivity |]. split; [exact Hl' |]. split; [exact Vp |].
    rewrite Ka. exact Hauto.
  - destruct (Hsettle (mark_timed_out (open_window tk l)) b Hauto Hw)
      as (l' & Hs & Hl').
    rewrite Hs. exists l', b. auto.
Qed.

Lemma Detect_loop_manual_agree ticks1 :
  forall ticks2 l1 l2 ts b1 b2,
    map keys ticks1 = map keys ticks2 ->
    auto_detect b1 = false -> auto_detect b2 = false ->
    whitespace l1 = 0 -> whitespace l2 = 0 ->
    rate_view b1 = rate_view b2 ->
    rate_view (snd (Detect_loop ticks1 l1 ts b1))
    = rate_view (snd (Detect_loop ticks2 l2 ts b2))
    /\ ((fst (Detect_loop ticks1 l1 ts b1) = Ok None
         /\ fst (Detect_loop ticks2 l2 ts b2) = Ok None)
        \/ exists x1 x2,
             fst (Detect_loop ticks1 l1 ts b1) = Ok (Some x1)
             /\ fst (Detect_loop ticks2 l2 ts b2) = Ok (Some x2)).
Proof.
  induction ticks1 as [| tk1 ticks1 IH];
    intros [| tk2 ticks2] l1 l2 ts b1 b2 Hk Ha1 Ha2 Hl1 Hl2 Hv;
    try discriminate.
  - split; [exact Hv | left; split; reflexivity].
  - cbn [map] in Hk. injection Hk as Hk1 Hk.
    cbn [Detect_loop]. unfold bind. rewrite <- Hk1.
    destruct (HandleKeypress_run_agree (keys tk1) ts b1 b2 Hv) as (Et & Vr).
    assert (Kr1 : auto_detect (snd (HandleKeypress_run (keys tk1) ts b1))
                  = auto_detect b1)
      by (apply keeps_HandleKeypress_run; auto with keeps).
    assert (Kr2 : auto_detect (snd (HandleKeypress_run (keys tk1) ts b2))
                  = auto_detect b2)
      by (apply keeps_HandleKeypress_run; auto with keeps).
    destruct (HandleKeypress_run (keys tk1) ts b1) as [ts1 c1],
             (HandleKeypress_run (keys tk1) ts b2) as [ts2 c2].
    cbn [fst snd] in *. subst ts2.
    destruct (Detect_iter_manual tk1 l1 c1) as (l1' & c1' & E1 & W1 & V1 & A1);
      [congruence | exact Hl1 |].
    destruct (Detect_iter_manual tk2 l2 c2) as (l2' & c2' & E2 & W2 & V2 & A2);
      [congruence | exact Hl2 |].
    rewrite E1, E2.
    destruct (rate_view_eq _ _ Vr) as (_ & _ & _ & Ec & _). rewrite <- Ec.
    destruct (ctlc c1).
    + unfold ret. cbn [fst snd]. split; [congruence |].
      right. eexists. eexists. split; reflexivity.
    + apply IH; try assumption. congruence.
Qed.

Lemma Detect_unfold ticks b :
  Detect ticks b
  = match Detect_start b with
    | (Ok ts, b0) =>
        match Detect_loop ticks Detect_locals ts b0 with
        | (Ok None, b1) => (Ok None, b1)
        | (Ok (Some _), b1) =>
            (_print (PyStr [LF]) true ;;
             self <- get ;;
             rate <- lift (py_getitem BAUDRATES (index self)) ;;
             ret (Some rate)) b1
        | (Raise e, b1) => (Raise e, b1)
        end
    | (Raise e, b0) => (Raise e, b0)
    end.
Proof.
  unfold Detect. unfold bind at 1.
  destruct (Detect_start b) as [[ts | e] b0]; [| reflexivity].
  unfold bind at 1.
  destruct (Detect_loop ticks Detect_locals ts b0) as [[[x |] | e] b1];
    reflexivity.
Qed.

(** X26: in manual mode the received data has no say.  Two runs of
    [Detect] from the same object, with the same keys typed during the
    same iterations, end the same way whatever is received and whatever
    the clock shows: the same outcome (the same rate returned, or both
    still running), and the same index, toggle pair, port log and cancel
    flag afterwards.  Only the display can differ. *)
Theorem manual_outcome_is_decided_by_the_keys :
  forall ticks1 ticks2 b,
    auto_detect b = false ->
    map keys ticks1 = map keys ticks2 ->
    fst (Detect ticks1 b) = fst (Detect ticks2 b)
    /\ rate_view (snd (Detect ticks1 b)) = rate_view (snd (Detect ticks2 b)).
Proof.
  intros ticks1 ticks2 b Hauto Hk.
  assert (Ka : keeps auto_detect Detect_start)
    by (unfold Detect_start; keeps_concrete).
  specialize (Ka b). rewrite !Detect_unfold.
  destruct (Detect_start b) as [[ts | e] b0]; cbn [snd] in Ka;
    [| split; reflexivity].
  assert (Ha0 : auto_detect b0 = false) by congruence.
  destruct (Detect_loop_manual_agree ticks1 ticks2 Detect_locals Detect_locals
              ts b0 b0 Hk Ha0 Ha0 eq_refl eq_refl eq_refl) as (V & Hout).
  assert (Htail : agree
            (_print (PyStr [LF]) true ;;
             self <- get ;;
             rate <- lift (py_getitem BAUDRATES (index self)) ;;
             ret (Some rate))
            (_print (PyStr [LF]) true ;;
             self <- get ;;
             rate <- lift (py_getitem BAUDRATES (index self)) ;;
             ret (Some rate))).
  { apply agree_bind;
      [apply agree_display; apply display_only__print | intros _].
    agree_tac. }
  destruct (Detect_loop ticks1 Detect_locals ts b0) as [r1 c1],
           (Detect_loop ticks2 Detect_locals ts b0) as [r2 c2].
  cbn [fst snd] in *.
  destruct Hout as [(-> & ->) | (x1 & x2 & -> & ->)].
  - split; [reflexivity | exact V].
  - apply (Htail c1 c2 V).
Qed.

Lemma manual_outcome_is_decided_by_the_keys_witness :
  fst (Detect [mkTick 1 (PyBytes [x61]) 2
                 [press (lit "d") 0; press CONTROL_C 0]] manual)
  = fst (Detect [mkTick 5 (PyBytes []) 11
                   [press (lit "d") 0; press CONTROL_C 0]] manual).
Proof.
  destruct (manual_outcome_is_decided_by_the_keys
              [mkTick 1 (PyBytes [x61]) 2
                 [press (lit "d") 0; press CONTROL_C 0]]
              [mkTick 5 (PyBytes []) 11
                 [press (lit "d") 0; press CONTROL_C 0]]
              manual eq_refl eq_refl) as (H & _).
  exact H.
Defined.

(** ** Keys delivered as bytes *)

Lemma HandleKeypress_iter_bytes x t1 t2 l b :
  snd (HandleKeypress_iter (mkKeyEvent (PyBytes x) t1 t2) l b) = b
  /\ (passthrough_keys b = true -> interpret_mode l = false ->
      fst (HandleKeypress_iter (mkKeyEvent (PyBytes x) t1 t2) l b)
      = Raise TypeError).
Proof.
  unfold HandleKeypress_iter, HandleKeypress_interpret.
  cbn [key interpret_mode interpret_esc_timeout py_eq py_bytes].
  rewrite !py_in_bytes, !andb_false_r. cbn [andb].
  unfold bind, get, ret, lift.
  destruct (passthrough_keys b) eqn:Ep, (interpret_mode l) eqn:Em;
    cbn [andb negb fst snd]; rewrite ?Ep; split;
    try reflexivity; intros; discriminate.
Qed.

Lemma HandleKeypress_run_bytes evs :
  forall ts b,
    Forall (fun ev => exists x, key ev = PyBytes x) evs ->
    snd (HandleKeypress_run evs ts b) = b.
Proof.
  induction evs as [| ev evs IH]; intros ts b Hall.
  - destruct ts; reflexivity.
  - inversion Hall as [| ? ? (x & Hx) Hrest]; subst.
    destruct ts as [| l |]; cbn [HandleKeypress_run]; try reflexivity.
    destruct ev as [k t1 t2]. cbn [key] in Hx. subst k.
    destruct (HandleKeypress_iter_bytes x t1 t2 l b) as (Hs & _).
    destruct (HandleKeypress_iter (mkKeyEvent (PyBytes x) t1 t2) l b)
      as [[l' | e] b'].
    + cbn [snd] in Hs. subst b'. apply IH. exact Hrest.
    + exact Hs.
Qed.

Lemma Detect_loop_manual_bytes ticks :
  forall l ts b,
    auto_detect b = false -> ctlc b = false -> whitespace l = 0 ->
    Forall (fun tk => Forall (fun ev => exists x, key ev = PyBytes x)
                        (keys tk)) ticks ->
    fst (Detect_loop ticks l ts b) = Ok None
    /\ ctlc (snd (Detect_loop ticks l ts b)) = false
    /\ index (snd (Detect_loop ticks l ts b)) = index b.
Proof.
  induction ticks as [| tk ticks IH]; intros l ts b Hauto Hc Hl Hall.
  - repeat split; assumption || reflexivity.
  - inversion Hall as [| ? ? Hk Hrest]; subst.
    cbn [Detect_loop]. unfold bind.
    pose proof (HandleKeypress_run_bytes (keys tk) ts b Hk) as Hrun.
    destruct (HandleKeypress_run (keys tk) ts b) as [ts' b1].
    cbn [snd] in Hrun. subst b1.
    destruct (Detect_iter_manual tk l b Hauto Hl)
      as (l' & b' & E & Hl' & V & Ha).
    rewrite E, Hc.
    destruct (rate_view_eq _ _ V) as (Ei & _ & _ & Ec & _).
    destruct (IH l' ts' b' Ha) as (H1 & H2 & H3);
      [congruence | exact Hl' | exact Hrest |].
    split; [exact H1 |]. split; [exact H2 | congruence].
Qed.

(** X27: keys delivered as bytes are never obeyed.  When the keyboard
    reader returns [bytes] (as [msvcrt.getch] does), no key equals any of
    the command keys, which are [str]: the interpreter changes nothing,
    whatever is typed; in forwarding mode the first key ends it with a
    [TypeError], nothing sent.  So in manual mode the cancel flag is
    never raised and [Detect] does not return, whatever is typed and
    received. *)
Theorem bytes_keys_are_never_obeyed :
  (forall evs ts b,
     Forall (fun ev => exists x, key ev = PyBytes x) evs ->
     snd (HandleKeypress_run evs ts b) = b)
  /\ (forall x t rest b,
        passthrough_keys b = true ->
        HandleKeypress_run (mkKeyEvent (PyBytes x) t t :: rest)
          (Running (mkKeyLocals false 0)) b
        = (Ended, b))
  /\ (forall ticks b,
        auto_detect b = false -> ctlc b = false ->
        Forall (fun tk => Forall (fun ev => exists x, key ev = PyBytes x)
                            (keys tk)) ticks ->
        fst (Detect ticks b) = Ok None
        /\ index (snd (Detect ticks b)) = index b).
Proof.
  split; [| split].
  - intros evs ts b. apply HandleKeypress_run_bytes.
  - intros x t rest b Hp. cbn [HandleKeypress_run].
    destruct (HandleKeypress_iter_bytes x t t (mkKeyLocals false 0) b)
      as (Hs & Hf). specialize (Hf Hp eq_refl).
    destruct (HandleKeypress_iter (mkKeyEvent (PyBytes x) t t)
                (mkKeyLocals false 0) b) as [[l' | e] b'];
      cbn [fst snd] in *; [discriminate | congruence].
  - intros ticks b Hauto Hc Hall.
    assert (Ka : keeps auto_detect Detect_start)
      by (unfold Detect_start; keeps_concrete).
    assert (Kc : keeps ctlc Detect_start)
      by (unfold Detect_start; keeps_concrete).
    assert (Ki : keeps index Detect_start)
      by (unfold Detect_start; keeps_concrete).
    specialize (Ka b). specialize (Kc b). specialize (Ki b).
    rewrite Detect_unfold.
    destruct (Detect_start b) as [[ts | e] b0] eqn:Es; cbn [snd] in *.
    + destruct (Detect_loop_manual_bytes ticks Detect_locals ts b0)
        as (H1 & _ & H3); [congruence | congruence | reflexivity
                          | exact Hall |].
      destruct (Detect_loop ticks Detect_locals ts b0) as [r b1].
      cbn [fst snd] in *. subst r. cbn [fst snd].
      split; [reflexivity | congruence].
    + exfalso. unfold Detect_start, bind, get, modify, ret in Es.
      rewrite Hauto in Es. discriminate.
Qed.

Lemma bytes_keys_are_never_obeyed_witness :
  fst (Detect [mkTick 1 (PyBytes [x61]) 2
                 [mkKeyEvent (PyBytes [x03]) 0 0;
                  mkKeyEvent (PyBytes [x75]) 0 0]] manual) = Ok None.
Proof.
  destruct bytes_keys_are_never_obeyed as (_ & _ & H).
  apply H; [reflexivity | reflexivity |].
  repeat constructor; eexists; reflexivity.
Defined.
